(** * OpenELP proxy core (proxy.c, digest.c): shallow embedding and properties

    The C code is embedded with explicit state passing.  Bytes and C integers
    are values of [Z]; a C array is a list updated by index; a pointer that
    may be NULL is an [option].  The collaborators that live outside the two
    translated files (sockets, regular expressions, the MD5 routine, the
    random source, the worker threads) are represented by the values their
    calls return, supplied with the input. *)

From Stdlib Require Import ZArith Lia Bool String Ascii.
From stdpp Require Import base option list gmap.

Local Open Scope Z_scope.

(** ** errno values (errno.h, Linux numbering) *)

Definition EINTR : Z := 4.
Definition ENOMEM : Z := 12.
Definition EACCES : Z := 13.
Definition EBUSY : Z := 16.
Definition EINVAL : Z := 22.
Definition EPIPE : Z := 32.
Definition ECONNRESET : Z := 104.
Definition ENOTCONN : Z := 107.

(** ** C strings and byte buffers *)

(** The characters of the C string stored at the start of [s]: everything
    before the first NUL byte. *)
Fixpoint cstr (s : list Z) : list Z :=
  match s with
  | [] => []
  | c :: rest => if c =? 0 then [] else c :: cstr rest
  end.

Definition strlen (s : list Z) : nat := length (cstr s).

(** [strcpy dst src]: the characters of [src] and the terminating NUL are
    written at the start of [dst]; the rest of [dst] keeps its bytes. *)
Definition strcpy (dst src : list Z) : list Z :=
  let s := cstr src ++ [0] in
  s ++ drop (length s) dst.

(** A block returned by [malloc]: [n] bytes whose contents [junk] are not
    initialised by the allocator. *)
Definition malloc_bytes (junk : nat -> Z) (n : nat) : list Z :=
  map junk (seq 0 n).

Definition bytes_of_string (s : string) : list Z :=
  map (fun a => Z.of_nat (nat_of_ascii a)) (list_ascii_of_string s).

(** ** digest.c *)

Definition DIGEST_LEN : nat := 16.
Definition PROXY_PASS_RES_LEN : nat := 16.

Definition hex_digit (nibble : Z) : Z :=
  if nibble <? 10 then 48 + nibble else 87 + nibble.

(** The 8 lowercase hexadecimal characters of a 32-bit value, most
    significant nibble first. *)
Definition hex8 (data : Z) : list Z :=
  map (fun sh => hex_digit (Z.land (Z.shiftr data sh) 15))
      [28; 24; 20; 16; 12; 8; 4; 0].

Fixpoint write_bytes (buf : list Z) (off : nat) (data : list Z) : list Z :=
  match data with
  | [] => buf
  | b :: rest => write_bytes (<[off := b]> buf) (S off) rest
  end.

(** Modelled from the spec: [digest_to_hex32] is declared in digest.h and its
    body is not part of the translated sources.  It formats a 32-bit value as
    exactly 8 lowercase hex characters, stored at [result[0..7]]; here
    [result] is the position [off] of [buf]. *)
Definition digest_to_hex32 (data : Z) (buf : list Z) (off : nat) : list Z :=
  write_bytes buf off (hex8 data).

Section Digest.

(** The MD5 routine behind [MD5_Init], [MD5_Update] and [MD5_Final]
    (md5.h), as a function from the hashed bytes to the digest. *)
Variable md5 : list Z -> list Z.

(** [digest_get(data, len, result)]: the result array. *)
Definition digest_get (data : list Z) (len : nat) : list Z :=
  md5 (take len data).

(** ** get_password_response *)

(** The [while] loop, which runs until [password] points at the NUL byte:
    [password] is the rest of the string, [iter] the write position in the
    buffer. *)
Fixpoint upcase_loop (password : list Z) (buf : list Z) (iter : nat)
  : list Z * nat :=
  match password with
  | [] => (buf, iter)
  | c :: rest =>
      if c =? 0 then (buf, iter)
      else
        let v := if (97 <=? c) && (c <=? 122) then c - 32 else c in
        upcase_loop rest (<[iter := v]> buf) (S iter)
  end.

(** Returns the C return value and the [response] array. *)
Definition get_password_response (junk : nat -> Z) (nonce : Z)
    (password : list Z) : Z * list Z :=
  let pass_with_nonce_len := (Z.of_nat (strlen password) + 8) mod 2 ^ 32 in
  let pass_with_nonce := malloc_bytes junk (Z.to_nat pass_with_nonce_len) in
  let '(buf, iter) := upcase_loop password pass_with_nonce 0 in
  let buf := digest_to_hex32 nonce buf iter in
  (0, digest_get buf (Z.to_nat pass_with_nonce_len)).

End Digest.

(** ** MD5 (md5.h) *)

(** Modelled from the spec: the digest collaborator [digest.md5(bytes)] that
    returns 16 bytes; md5.h and its implementation are not part of the
    translated sources.  This is the MD5 algorithm of RFC 1321 on 32-bit
    words kept in [Z]. *)
Module MD5.

Definition mask32 : Z := 0xFFFFFFFF.
Definition add32 (a b : Z) : Z := (a + b) mod 2 ^ 32.
Definition not32 (a : Z) : Z := Z.lxor a mask32.
Definition rotl32 (x s : Z) : Z :=
  Z.lor (Z.land (Z.shiftl x s) mask32) (Z.shiftr x (32 - s)).

Definition K : list Z :=
  [0xd76aa478; 0xe8c7b756; 0x242070db; 0xc1bdceee;
   0xf57c0faf; 0x4787c62a; 0xa8304613; 0xfd469501;
   0x698098d8; 0x8b44f7af; 0xffff5bb1; 0x895cd7be;
   0x6b901122; 0xfd987193; 0xa679438e; 0x49b40821;
   0xf61e2562; 0xc040b340; 0x265e5a51; 0xe9b6c7aa;
   0xd62f105d; 0x02441453; 0xd8a1e681; 0xe7d3fbc8;
   0x21e1cde6; 0xc33707d6; 0xf4d50d87; 0x455a14ed;
   0xa9e3e905; 0xfcefa3f8; 0x676f02d9; 0x8d2a4c8a;
   0xfffa3942; 0x8771f681; 0x6d9d6122; 0xfde5380c;
   0xa4beea44; 0x4bdecfa9; 0xf6bb4b60; 0xbebfbc70;
   0x289b7ec6; 0xeaa127fa; 0xd4ef3085; 0x04881d05;
   0xd9d4d039; 0xe6db99e5; 0x1fa27cf8; 0xc4ac5665;
   0xf4292244; 0x432aff97; 0xab9423a7; 0xfc93a039;
   0x655b59c3; 0x8f0ccc92; 0xffeff47d; 0x85845dd1;
   0x6fa87e4f; 0xfe2ce6e0; 0xa3014314; 0x4e0811a1;
   0xf7537e82; 0xbd3af235; 0x2ad7d2bb; 0xeb86d391].

Definition S : list Z :=
  [7; 12; 17; 22; 7; 12; 17; 22; 7; 12; 17; 22; 7; 12; 17; 22;
   5; 9; 14; 20; 5; 9; 14; 20; 5; 9; 14; 20; 5; 9; 14; 20;
   4; 11; 16; 23; 4; 11; 16; 23; 4; 11; 16; 23; 4; 11; 16; 23;
   6; 10; 15; 21; 6; 10; 15; 21; 6; 10; 15; 21; 6; 10; 15; 21].

(** Little-endian encoding of a 32-bit word and of a 64-bit length. *)
Definition le_bytes (n : nat) (x : Z) : list Z :=
  map (fun k => Z.land (Z.shiftr x (8 * Z.of_nat k)) 255) (seq 0 n).

Fixpoint le_word (bs : list Z) : Z :=
  match bs with
  | [] => 0
  | b :: rest => b + 256 * le_word rest
  end.

(** The message followed by the bit 1, zero bits up to 56 modulo 64 bytes
    and the length in bits. *)
Definition pad (msg : list Z) : list Z :=
  let len := Z.of_nat (length msg) in
  let zeros := Z.to_nat ((55 - len) mod 64) in
  msg ++ [128] ++ replicate zeros 0 ++ le_bytes 8 ((8 * len) mod 2 ^ 64).

(** The 16 words of a 64-byte block. *)
Definition block_words (blk : list Z) : list Z :=
  map (fun k => le_word (take 4 (drop (4 * k) blk))) (seq 0 16).

Definition state : Type := Z * Z * Z * Z.

Definition round (M : list Z) (st : state) (i : nat) : state :=
  let '(A, B, C, D) := st in
  let '(F, g) :=
    if (i <? 16)%nat then
      (Z.lor (Z.land B C) (Z.land (not32 B) D), i)
    else if (i <? 32)%nat then
      (Z.lor (Z.land D B) (Z.land (not32 D) C), (5 * i + 1) mod 16)%nat
    else if (i <? 48)%nat then
      (Z.lxor B (Z.lxor C D), (3 * i + 5) mod 16)%nat
    else
      (Z.lxor C (Z.lor B (not32 D)), (7 * i) mod 16)%nat in
  let F := add32 (add32 (add32 F A) (nth i K 0)) (nth g M 0) in
  (D, add32 B (rotl32 F (nth i S 0)), B, C).

Definition process_block (st : state) (blk : list Z) : state :=
  let '(a0, b0, c0, d0) := st in
  let '(A, B, C, D) := fold_left (round (block_words blk)) (seq 0 64) st in
  (add32 a0 A, add32 b0 B, add32 c0 C, add32 d0 D).

(** The blocks of a padded message, [n] of them. *)
Fixpoint blocks (n : nat) (bs : list Z) : list (list Z) :=
  match n with
  | O => []
  | Datatypes.S n' => take 64 bs :: blocks n' (drop 64 bs)
  end.

Definition init : state := (0x67452301, 0xefcdab89, 0x98badcfe, 0x10325476).

Definition md5 (msg : list Z) : list Z :=
  let p := pad msg in
  let '(a, b, c, d) :=
    fold_left process_block (blocks (length p / 64) p) init in
  le_bytes 4 a ++ le_bytes 4 b ++ le_bytes 4 c ++ le_bytes 4 d.

End MD5.

(** The transformation of the password named by the specification. *)
Definition to_upper (b : Z) : Z :=
  if (0x61 <=? b) && (b <=? 0x7A) then b - 32 else b.

(** ** Connections (conn.h) *)

(** Modelled from the spec: the socket wrapper of conn.h is not part of the
    translated sources.  A connection is described by what its peer does:
    [rx] are the bytes the peer delivers, in order; once they run out a read
    fails with [-rx_errno]; [send_rets] are the return values of the coming
    [conn_send] calls (0 when the list is exhausted).  [recvs] records the
    sizes of the completed reads, [tx] the data and return value of every
    send, [is_open] whether the socket is still open. *)
Record conn_handle := mk_conn {
  rx : list Z;
  rx_errno : positive;
  send_rets : list Z;
  recvs : list nat;
  tx : list (list Z * Z);
  is_open : bool;
}.

(** [conn_send(conn, data, len)]: negative return value on failure. *)
Definition conn_send (c : conn_handle) (data : list Z) : Z * conn_handle :=
  let ret := hd 0 (send_rets c) in
  (ret, mk_conn (rx c) (rx_errno c) (tl (send_rets c)) (recvs c)
          (tx c ++ [(data, ret)]) (is_open c)).

(** [conn_recv(conn, buff + off, n)]: reads exactly [n] bytes into the
    buffer, or fails with a negative return value. *)
Definition conn_recv (c : conn_handle) (buff : list Z) (off n : nat)
  : Z * conn_handle * list Z :=
  if (n <=? length (rx c))%nat then
    (0, mk_conn (drop n (rx c)) (rx_errno c) (send_rets c) (recvs c ++ [n])
          (tx c) (is_open c),
     write_bytes buff off (take n (rx c)))
  else (Z.neg (rx_errno c), c, buff).

(** [conn_free]: closes the socket. *)
Definition conn_free (c : conn_handle) : conn_handle :=
  mk_conn (rx c) (rx_errno c) (send_rets c) (recvs c) (tx c) false.

(** ** Regular expressions (regex.h) *)

(** Modelled from the spec: [regex.match(handle, str)] answers yes, no or
    error; [regex_is_match] returns 1, 0 or a negative errno value. *)
Inductive regex_result := RE_MATCH | RE_NOMATCH | RE_ERROR (e : positive).

Record regex_handle := mk_regex { re_run : list Z -> regex_result }.

Definition regex_is_match (re : regex_handle) (str : list Z) : Z :=
  match re_run re (cstr str) with
  | RE_MATCH => 1
  | RE_NOMATCH => 0
  | RE_ERROR e => Z.neg e
  end.

(** ** Log levels, events *)

(** [enum LOG_LEVEL] of log.h, in the order of its enumerators (most severe
    first, numbered from 0). *)
Inductive LOG_LEVEL :=
| LOG_LEVEL_FATAL | LOG_LEVEL_ERROR | LOG_LEVEL_WARN | LOG_LEVEL_INFO
| LOG_LEVEL_DEBUG.

Definition level_code (l : LOG_LEVEL) : Z :=
  match l with
  | LOG_LEVEL_FATAL => 0
  | LOG_LEVEL_ERROR => 1
  | LOG_LEVEL_WARN => 2
  | LOG_LEVEL_INFO => 3
  | LOG_LEVEL_DEBUG => 4
  end.

Inductive mutex_id := MxWorker (i : nat) | MxUsableClients.

(** The calls into the collaborators that are visible from outside, in the
    order in which the code makes them. *)
Inductive event :=
| EvLog (lvl : LOG_LEVEL) (fmt : string)
| EvMutexLock (m : mutex_id)
| EvMutexUnlock (m : mutex_id)
| EvMutexLockShared (m : mutex_id)
| EvMutexUnlockShared (m : mutex_id)
| EvWorkerWake (i : nat)
| EvRegistrationUpdate (slots_used slots_total : Z)
| EvCall (fn : string) (i : nat).

(** ** The proxy instance *)

(** [struct proxy_conf] (conf.h), the members the proxy reads.  The array
    [bind_addr_ext_add] and its length [bind_addr_ext_add_len] are kept as
    one list; [None] is the NULL pointer. *)
Record proxy_conf := mk_conf {
  password : list Z;
  bind_addr : option string;
  port : Z;
  bind_addr_ext : option string;
  bind_addr_ext_add : option (list string);
  calls_allowed : option string;
  calls_denied : option string;
}.

Definition bind_addr_ext_add_len (c : proxy_conf) : Z :=
  match bind_addr_ext_add c with
  | Some l => Z.of_nat (length l)
  | None => 0
  end.

(** [bind_addr_ext_add[i]] *)
Definition bind_addr_ext_add_at (c : proxy_conf) (i : nat) : option string :=
  match bind_addr_ext_add c with
  | Some l => l !! i
  | None => None
  end.

(** [struct proxy_conn_handle] (proxy_conn.h): a slot.  [pc_ph] tells whether
    the back pointer to the proxy has been set. *)
Record proxy_conn_handle := mk_pc {
  source_addr : option string;
  pc_ph : bool;
  in_use : bool;
}.

(** [struct proxy_worker].  The mutex and the worker thread are collaborator
    objects; calls on them appear in the trace. *)
Record proxy_worker := mk_pw {
  pw_ph : bool;
  conn_client : option nat;
  callsign : list Z;
}.

(** [struct proxy_priv] *)
Record proxy_priv := mk_priv {
  clients : option (list proxy_conn_handle);
  client_workers : option (list proxy_worker);
  re_calls_allowed : option regex_handle;
  re_calls_denied : option regex_handle;
  num_clients : Z;
  usable_clients : Z;
  log_level : Z;
  port_str : string;
}.

(** The proxy handle [ph] with the memory it refers to: [priv] is the object
    [ph->priv] points to and [priv_alloc] tells whether that pointer is
    non-NULL; [heap] holds the [conn_handle] objects obtained from [malloc];
    [trace] is the sequence of events so far. *)
Record world := mk_world {
  conf : proxy_conf;
  priv_alloc : bool;
  priv : proxy_priv;
  heap : gmap nat conn_handle;
  trace : list event;
}.

(** The result of [memset(..., 0x0, ...)] on each structure. *)
Definition pc_zero : proxy_conn_handle := mk_pc None false false.
Definition pw_zero : proxy_worker := mk_pw false None (replicate 12 0).
Definition priv_zero : proxy_priv :=
  mk_priv None None None None 0 0 0 EmptyString.
Definition conn_zero : conn_handle := mk_conn [] 1%positive [] [] [] false.

(** Field updates. *)
Definition set_conn_client (v : option nat) (pw : proxy_worker) :=
  mk_pw (pw_ph pw) v (callsign pw).
Definition set_callsign (v : list Z) (pw : proxy_worker) :=
  mk_pw (pw_ph pw) (conn_client pw) v.
Definition set_pw_ph (pw : proxy_worker) :=
  mk_pw true (conn_client pw) (callsign pw).
Definition set_source_addr (v : option string) (pc : proxy_conn_handle) :=
  mk_pc v (pc_ph pc) (in_use pc).
Definition set_pc_ph (pc : proxy_conn_handle) :=
  mk_pc (source_addr pc) true (in_use pc).
Definition set_in_use (v : bool) (pc : proxy_conn_handle) :=
  mk_pc (source_addr pc) (pc_ph pc) v.

Definition set_clients v (p : proxy_priv) :=
  mk_priv v (client_workers p) (re_calls_allowed p) (re_calls_denied p)
    (num_clients p) (usable_clients p) (log_level p) (port_str p).
Definition set_client_workers v (p : proxy_priv) :=
  mk_priv (clients p) v (re_calls_allowed p) (re_calls_denied p)
    (num_clients p) (usable_clients p) (log_level p) (port_str p).
Definition set_re_calls_allowed v (p : proxy_priv) :=
  mk_priv (clients p) (client_workers p) v (re_calls_denied p)
    (num_clients p) (usable_clients p) (log_level p) (port_str p).
Definition set_re_calls_denied v (p : proxy_priv) :=
  mk_priv (clients p) (client_workers p) (re_calls_allowed p) v
    (num_clients p) (usable_clients p) (log_level p) (port_str p).
Definition set_num_clients v (p : proxy_priv) :=
  mk_priv (clients p) (client_workers p) (re_calls_allowed p)
    (re_calls_denied p) v (usable_clients p) (log_level p) (port_str p).
Definition set_usable_clients v (p : proxy_priv) :=
  mk_priv (clients p) (client_workers p) (re_calls_allowed p)
    (re_calls_denied p) (num_clients p) v (log_level p) (port_str p).
Definition set_log_level v (p : proxy_priv) :=
  mk_priv (clients p) (client_workers p) (re_calls_allowed p)
    (re_calls_denied p) (num_clients p) (usable_clients p) v (port_str p).
Definition set_port_str v (p : proxy_priv) :=
  mk_priv (clients p) (client_workers p) (re_calls_allowed p)
    (re_calls_denied p) (num_clients p) (usable_clients p) (log_level p) v.

Definition set_conf v (w : world) :=
  mk_world v (priv_alloc w) (priv w) (heap w) (trace w).
Definition set_priv_alloc v (w : world) :=
  mk_world (conf w) v (priv w) (heap w) (trace w).
Definition set_priv v (w : world) :=
  mk_world (conf w) (priv_alloc w) v (heap w) (trace w).
Definition upd_priv (f : proxy_priv -> proxy_priv) (w : world) :=
  set_priv (f (priv w)) w.
Definition set_heap v (w : world) :=
  mk_world (conf w) (priv_alloc w) (priv w) v (trace w).
Definition set_trace v (w : world) :=
  mk_world (conf w) (priv_alloc w) (priv w) (heap w) v.
Definition emit (e : event) (w : world) :=
  mk_world (conf w) (priv_alloc w) (priv w) (heap w) (trace w ++ [e]).
Definition emits (es : list event) (w : world) :=
  mk_world (conf w) (priv_alloc w) (priv w) (heap w) (trace w ++ es).

(** The worker array, empty when [client_workers] is NULL. *)
Definition workers (w : world) : list proxy_worker :=
  default [] (client_workers (priv w)).
Definition slots (w : world) : list proxy_conn_handle :=
  default [] (clients (priv w)).
Definition set_workers (ws : list proxy_worker) (w : world) :=
  upd_priv (set_client_workers (Some ws)) w.
Definition set_slots (cs : list proxy_conn_handle) (w : world) :=
  upd_priv (set_clients (Some cs)) w.

(** ** proxy_log *)

(** Nothing is printed without private data or when the level of the message
    is above the configured one; otherwise the message goes to the log. *)
Definition proxy_log (lvl : LOG_LEVEL) (fmt : string) (w : world) : world :=
  if negb (priv_alloc w) || (log_level (priv w) <? level_code lvl)
  then w
  else emit (EvLog lvl fmt) w.

(** ** proxy_update_registration *)

(** The private data exist and the slot and worker arrays hold
    [num_clients] elements each.  [proxy_init] and [proxy_close] establish
    it with no array and [num_clients = 0], a successful [proxy_open] with
    [1 + bind_addr_ext_add_len] elements.  The loops over [clients] and
    [client_workers] visit every index below [num_clients]: where this
    does not hold (as after a failed allocation of the slot array in
    [proxy_open]) the C code reads outside the arrays, and what the model
    computes there says nothing about it. *)
Definition handle_ok (w : world) : Prop :=
  priv_alloc w = true
  /\ 0 <= num_clients (priv w)
  /\ length (slots w) = Z.to_nat (num_clients (priv w))
  /\ length (workers w) = Z.to_nat (num_clients (priv w)).

(** The loop counts the slots in use among [clients[0 .. num_clients - 1]];
    it is meant for states with [handle_ok]. *)
Definition proxy_update_registration (w : world) : world :=
  let slots_used :=
    Z.of_nat (length (filter (fun pc => in_use pc = true)
                        (take (Z.to_nat (num_clients (priv w))) (slots w)))) in
  let w := emit (EvMutexLockShared MxUsableClients) w in
  let slots_total := usable_clients (priv w) in
  let w := emit (EvMutexUnlockShared MxUsableClients) w in
  emit (EvRegistrationUpdate slots_used slots_total) w.

(** ** proxy_worker_accept *)

(** [wake_ret] is the return value of [worker_wake]; [i] is the index of the
    worker [pw] in the worker array. *)
Definition proxy_worker_accept (wake_ret : Z) (i : nat) (pw : proxy_worker)
    (new_conn : option nat) (tr : list event)
  : Z * proxy_worker * list event :=
  let tr := tr ++ [EvMutexLock (MxWorker i)] in
  match conn_client pw with
  | Some _ => (- EBUSY, pw, tr ++ [EvMutexUnlock (MxWorker i)])
  | None =>
      let pw := set_conn_client new_conn pw in
      let ret := wake_ret in
      let tr := tr ++ [EvWorkerWake i] in
      let pw := if ret <? 0 then set_conn_client None pw else pw in
      (ret, pw, tr ++ [EvMutexUnlock (MxWorker i)])
  end.

(** ** proxy_authorize_callsign *)

Definition proxy_authorize_callsign (w : world) (call : list Z) : Z * world :=
  let denied :=
    match re_calls_denied (priv w) with
    | Some re =>
        let ret := regex_is_match re call in
        if negb (ret =? 0) then
          Some (if ret <? 0
                then proxy_log LOG_LEVEL_WARN
                       "Failed to match callsign '%s' against denial pattern (%d): %s" w
                else w)
        else None
    | None => None
    end in
  match denied with
  | Some w' => (0, w')
  | None =>
      match re_calls_allowed (priv w) with
      | Some re =>
          let ret := regex_is_match re call in
          if negb (ret =? 1) then
            (0, if ret <? 0
                then proxy_log LOG_LEVEL_WARN
                       "Failed to match callsign '%s' against allowing pattern (%d): %s" w
                else w)
          else (1, w)
      | None => (1, w)
      end
  end.

(** ** proxy_worker_authorize *)

Definition msg_bad_pw : list Z := [7; 0; 0; 0; 0; 1; 0; 0; 0; 1].
Definition msg_bad_auth : list Z := [7; 0; 0; 0; 0; 1; 0; 0; 0; 2].

(** What one run of the authorization draws from outside: the result of
    [rand_get] and the bytes found in fresh heap and stack memory. *)
Record auth_env := mk_auth_env {
  rand_ret : Z;
  rand_nonce : Z;
  heap_junk : nat -> Z;
  stack_junk : nat -> Z;
}.

Definition get_nonce (e : auth_env) : Z * Z := (rand_ret e, rand_nonce e).

(** The scan [for (idx = 0; idx < 11 && buff[idx] != '\n'; idx++);] with
    [n] iterations left before [idx] reaches 11. *)
Fixpoint find_newline (buff : list Z) (idx n : nat) : nat :=
  match n with
  | O => idx
  | S n' =>
      if nth idx buff 0 =? 10 then idx else find_newline buff (S idx) n'
  end.

(** The comparison loop, with [n] iterations left: [true] when some
    [response[j]] differs from [buff[idx]]. *)
Fixpoint response_differs (response buff : list Z) (idx j n : nat) : bool :=
  match n with
  | O => false
  | S n' =>
      if negb (nth j response 0 =? nth idx buff 0) then true
      else response_differs response buff (S idx) (S j) n'
  end.

Section Proxy.

Variable md5 : list Z -> list Z.

(** [pw] is the worker and [c] the connection [pw->conn_client] points
    to. *)
Definition proxy_worker_authorize (e : auth_env) (pw : proxy_worker)
    (c : conn_handle) (w : world)
  : Z * proxy_worker * conn_handle * world :=
  let buff := malloc_bytes (stack_junk e) 28 in
  let '(ret, nonce) := get_nonce e in
  if ret <? 0 then (ret, pw, c, w) else
  let nonce_str := digest_to_hex32 nonce (malloc_bytes (stack_junk e) 9) 0 in
  let '(ret, response) :=
    get_password_response md5 (heap_junk e) nonce (password (conf w)) in
  if ret <? 0 then (ret, pw, c, w) else
  let '(ret, c) := conn_send c (take 8 nonce_str) in
  if ret <? 0 then (ret, pw, c, w) else
  let '(ret, c, buff) := conn_recv c buff 0 16 in
  if ret <? 0 then (ret, pw, c, w) else
  let idx := find_newline buff 0 11 in
  if (11 <=? idx)%nat then (- EINVAL, pw, c, w) else
  let buff := <[idx := 0]> buff in
  let pw := set_callsign (strcpy (callsign pw) buff) pw in
  let '(ret, c, buff) := conn_recv c buff 16 (idx + 1) in
  if ret <? 0 then (ret, pw, c, w) else
  if response_differs response buff (idx + 1) 0 PROXY_PASS_RES_LEN then
    let w := proxy_log LOG_LEVEL_INFO
               "Client '%s' supplied an incorrect password. Dropping..." w in
    let '(ret, c) := conn_send c (take (length msg_bad_pw) msg_bad_pw) in
    (if ret <? 0 then ret else - EACCES, pw, c, w)
  else
  let '(ret, w) := proxy_authorize_callsign w (callsign pw) in
  if negb (ret =? 1) then
    let w := proxy_log LOG_LEVEL_INFO
               "Client '%s' is not authorized to use this proxy. Dropping..." w in
    let '(ret, c) := conn_send c (take (length msg_bad_pw) msg_bad_auth) in
    (if ret <? 0 then ret else - EACCES, pw, c, w)
  else (0, pw, c, w).

(** ** proxy_worker_func *)

Record worker_env := mk_worker_env {
  auth : auth_env;
  slot_accept_ret : nat -> Z;
  process_rets : list Z;
}.

(** Modelled from the spec: [proxy_conn_accept] and [proxy_conn_finish]
    belong to proxy_conn.c, which is not part of the translated sources.
    A slot that accepts a client becomes in use; at the end of the session
    it is marked as not in use. *)
Definition proxy_conn_accept (ret : Z) (k : nat) (w : world) : world :=
  let w := emit (EvCall "proxy_conn_accept" k) w in
  if ret <? 0 then w else set_slots (alter (set_in_use true) k (slots w)) w.

Definition proxy_conn_finish (k : nat) (w : world) : world :=
  let w := emit (EvCall "proxy_conn_finish" k) w in
  set_slots (alter (set_in_use false) k (slots w)) w.

(** The search for a slot, with [n] iterations left; returns [ret] and the
    final value of the loop counter. *)
Fixpoint slot_loop (rets : nat -> Z) (n k : nat) (ret : Z) (w : world)
  : Z * nat * world :=
  match n with
  | O => (ret, k, w)
  | S n' =>
      let ret := rets k in
      let w := proxy_conn_accept ret k w in
      if negb (ret =? - EBUSY) then (ret, k, w)
      else slot_loop rets n' (S k) ret w
  end.

(** The loop [do ret = proxy_conn_process(pc); while (ret >= 0)] over the
    return values [rets] of the successive calls: the number of calls made
    when one of them is negative, [None] when none is. *)
Fixpoint serve_loop (rets : list Z) : option nat :=
  match rets with
  | [] => None
  | r :: rest => if r <? 0 then Some 1%nat else S <$> serve_loop rest
  end.

(** The release of the client connection [cptr] by worker [i]. *)
Definition worker_release (i cptr : nat) (w : world) : world :=
  let w := emit (EvMutexLock (MxWorker i)) w in
  let w := set_heap (alter conn_free cptr (heap w)) w in
  let w := emit (EvCall "conn_free" cptr) w in
  let w := set_heap (delete cptr (heap w)) w in
  let w := emit (EvCall "free" cptr) w in
  let w := set_workers (alter (set_conn_client None) i (workers w)) w in
  emit (EvMutexUnlock (MxWorker i)) w.

Definition lost_connection (ret : Z) : bool :=
  (ret =? - ECONNRESET) || (ret =? - EINTR) || (ret =? - ENOTCONN)
  || (ret =? - EPIPE).

(** The label [proxy_worker_func_exit]. *)
Definition proxy_worker_func_exit (i cptr : nat) (w : world) : world :=
  let w := worker_release i cptr w in
  let w := proxy_update_registration w in
  proxy_log LOG_LEVEL_DEBUG "Client worker is returning cleanly." w.

(** The thread function of worker [i]; [None] when the session never
    ends. *)
Definition proxy_worker_func (e : worker_env) (i : nat) (w : world)
  : option world :=
  match workers w !! i with
  | None => Some w
  | Some pw =>
      let w := emit (EvMutexLockShared (MxWorker i)) w in
      match conn_client pw with
      | None =>
          let w := proxy_log LOG_LEVEL_ERROR
                     "New connection was signaled, but no connection was given" w in
          Some (emit (EvMutexUnlockShared (MxWorker i)) w)
      | Some cptr =>
          let w := emit (EvMutexUnlockShared (MxWorker i)) w in
          match heap w !! cptr with
          | None => Some w
          | Some c =>
              let w := proxy_log LOG_LEVEL_DEBUG
                         "New connection - beginning authorization procedure" w in
              let '(ret, pw, c, w) := proxy_worker_authorize (auth e) pw c w in
              let w := set_workers (<[i := pw]> (workers w)) w in
              let w := set_heap (<[cptr := c]> (heap w)) w in
              if ret <? 0 then
                let w :=
                  if lost_connection ret
                  then proxy_log LOG_LEVEL_WARN
                         "Connection to client was lost before authorization could complete" w
                  else proxy_log LOG_LEVEL_ERROR
                         "Authorization failed for client '%s' (%d): %s" w in
                Some (worker_release i cptr w)
              else
                let w := proxy_update_registration w in
                let w := emit (EvMutexLockShared MxUsableClients) w in
                let '(ret, k, w) :=
                  slot_loop (slot_accept_ret e)
                    (Z.to_nat (usable_clients (priv w))) 0 ret w in
                let w := emit (EvMutexUnlockShared MxUsableClients) w in
                if ret <? 0 then
                  let w :=
                    if ret =? - EBUSY
                    then proxy_log LOG_LEVEL_ERROR
                           "State error: no available slots." w
                    else w in
                  Some (proxy_worker_func_exit i cptr w)
                else
                  match serve_loop (process_rets e) with
                  | None => None
                  | Some n =>
                      let w := emits (replicate n (EvCall "proxy_conn_process" k)) w in
                      let w := proxy_log LOG_LEVEL_INFO
                                 "Disconnected from client '%s'." w in
                      let w := proxy_conn_finish k w in
                      Some (proxy_worker_func_exit i cptr w)
                  end
          end
      end
  end.

End Proxy.

(** ** proxy_load_conf *)

(** The outcome of [conf_parse_file] and of [conn_port_to_str]. *)
Record load_env := mk_load_env {
  parse_ret : Z;
  parsed_conf : proxy_conf;
  port_to_str : Z -> string;
}.

Definition proxy_load_conf (e : load_env) (w : world) : Z * world :=
  let w := set_conf (parsed_conf e) w in
  let ret := parse_ret e in
  if ret <? 0 then (ret, w) else
  let w := upd_priv (set_port_str (port_to_str e (port (conf w)))) w in
  match bind_addr_ext_add (conf w) with
  | Some _ =>
      if match bind_addr_ext (conf w) with
         | None => true
         | Some a => String.eqb a "0.0.0.0"
         end
      then
        (- EINVAL,
         proxy_log LOG_LEVEL_ERROR
           "ExternalBindAddresses must be specified if AdditionalExternalBindAddresses is used" w)
      else (0, w)
  | None => (0, w)
  end.

(** ** proxy_shutdown, proxy_drop, proxy_close, proxy_free *)

Definition proxy_shutdown (w : world) : world :=
  let w := proxy_log LOG_LEVEL_DEBUG "Proxy shutdown requested." w in
  let w := emit (EvMutexLock MxUsableClients) w in
  let w := upd_priv (set_usable_clients 0) w in
  let w := emit (EvMutexUnlock MxUsableClients) w in
  let w := proxy_update_registration w in
  emit (EvCall "conn_shutdown" 0) w.

(** The calls [fn(&array[i])] for [i] from 0 up to [n - 1]. *)
Definition calls_up (fn : string) (n : Z) : list event :=
  map (EvCall fn) (seq 0 (Z.to_nat n)).

(** The calls [fn(&array[i])] for [i] from [n - 1] down to 0. *)
Definition calls_down (fn : string) (n : nat) : list event :=
  map (EvCall fn) (rev (seq 0 n)).

Definition proxy_drop (w : world) : world :=
  let w := proxy_log LOG_LEVEL_DEBUG "Dropping all clients..." w in
  emits (calls_up "proxy_conn_drop" (num_clients (priv w))) w.

(** [reg_stop_ret] is the return value of [registration_service_stop]. *)
Definition proxy_close (reg_stop_ret : Z) (w : world) : world :=
  let w := emit (EvCall "registration_service_stop" 0) w in
  let w :=
    if reg_stop_ret <? 0
    then proxy_log LOG_LEVEL_ERROR
           "Failed to stop registration service (%d): %s" w
    else w in
  let w := proxy_shutdown w in
  let w := proxy_drop w in
  let w := proxy_log LOG_LEVEL_DEBUG "Closing client connections..." w in
  let w := emits (calls_up "proxy_worker_free" (num_clients (priv w))) w in
  let w := emits (calls_up "proxy_conn_free" (num_clients (priv w))) w in
  let w := upd_priv (set_client_workers None) w in
  let w := upd_priv (set_clients None) w in
  let w := upd_priv (set_num_clients 0) w in
  let w := proxy_log LOG_LEVEL_DEBUG "Closing listening connection..." w in
  let w := emit (EvCall "conn_close" 0) w in
  let w := proxy_log LOG_LEVEL_DEBUG "Proxy is down - closing log." w in
  emit (EvCall "log_close" 0) w.

Definition proxy_free (reg_stop_ret : Z) (w : world) : world :=
  if priv_alloc w then
    let w := proxy_close reg_stop_ret w in
    let w := emits [EvCall "mutex_free" 0;
                    EvCall "registration_service_free" 0;
                    EvCall "conn_free" 0; EvCall "conf_free" 0;
                    EvCall "log_free" 0] w in
    let w := match re_calls_allowed (priv w) with
             | Some _ => emit (EvCall "regex_free" 0) w
             | None => w
             end in
    let w := match re_calls_denied (priv w) with
             | Some _ => emit (EvCall "regex_free" 1) w
             | None => w
             end in
    let w := emit (EvCall "rand_free" 0) w in
    set_priv_alloc false w
  else w.

(** ** proxy_init *)

(** The outcome of the allocation and of the initialisation calls, the
    configuration written by [conf_init] and the level set by [log_init]. *)
Record init_env := mk_init_env {
  malloc_priv_ok : bool;
  rand_init_ret : Z;
  log_init_ret : Z;
  log_init_level : Z;
  conf_init_ret : Z;
  conf_init_conf : proxy_conf;
  listen_init_ret : Z;
  reg_init_ret : Z;
  usable_mutex_init_ret : Z;
  init_reg_stop_ret : Z;
}.

(** The label [proxy_init_exit]. *)
Definition proxy_init_exit (e : init_env) (ret : Z) (w : world) : Z * world :=
  (ret, proxy_free (init_reg_stop_ret e) w).

Definition proxy_init (e : init_env) (w : world) : Z * world :=
  let alloc :=
    if negb (priv_alloc w) then
      if malloc_priv_ok e
      then Some (set_priv_alloc true (set_priv priv_zero w))
      else None
    else Some w in
  match alloc with
  | None => (- ENOMEM, w)
  | Some w =>
      let ret := rand_init_ret e in
      if ret <? 0 then proxy_init_exit e ret w else
      let ret := log_init_ret e in
      if ret <? 0 then proxy_init_exit e ret w else
      let w := upd_priv (set_log_level (log_init_level e)) w in
      let ret := conf_init_ret e in
      if ret <? 0 then proxy_init_exit e ret w else
      let w := set_conf (conf_init_conf e) w in
      let ret := listen_init_ret e in
      if ret <? 0 then proxy_init_exit e ret w else
      let ret := reg_init_ret e in
      if ret <? 0 then proxy_init_exit e ret w else
      let ret := usable_mutex_init_ret e in
      if ret <? 0 then proxy_init_exit e ret w else
      (0, w)
  end.

(** ** proxy_open *)

(** The outcome of the allocations and collaborator calls of [proxy_open];
    [regex_engine] gives the matcher that [regex_compile] builds from a
    pattern. *)
Record open_env := mk_open_env {
  malloc_clients_ok : bool;
  malloc_workers_ok : bool;
  log_open_ret : Z;
  malloc_regex_ok : bool;
  regex_init_ret : Z;
  regex_compile_ret : string -> Z;
  regex_engine : string -> list Z -> regex_result;
  proxy_conn_init_ret : nat -> Z;
  worker_mutex_init_ret : nat -> Z;
  worker_init_ret : nat -> Z;
  conn_listen_ret : Z;
}.

Definition regex_zero : regex_handle := mk_regex (fun _ => RE_NOMATCH).

(** The labels [proxy_open_exit], [proxy_open_exit_late] and
    [proxy_open_exit_later]. *)
Definition proxy_open_exit (ret : Z) (w : world) : Z * world :=
  let w := match re_calls_allowed (priv w) with
           | Some _ =>
               upd_priv (set_re_calls_allowed None)
                 (emit (EvCall "regex_free" 0) w)
           | None => w
           end in
  let w := emit (EvCall "log_close" 0) w in
  let w := upd_priv (set_client_workers None) w in
  let w := upd_priv (set_clients None) w in
  let w := upd_priv (set_num_clients 0) w in
  (ret, w).

Definition proxy_open_exit_late (ret : Z) (w : world) : Z * world :=
  proxy_open_exit ret
    (emits (calls_up "proxy_conn_free" (num_clients (priv w))) w).

Definition proxy_open_exit_later (ret : Z) (w : world) : Z * world :=
  proxy_open_exit_late ret
    (emits (calls_up "proxy_worker_free" (num_clients (priv w))) w).

(** The set-up of one of the two expressions: [pattern] is the configured
    string, [get] and [set] access the matching member of [priv], [idx]
    tells the two handles apart in the trace (0 for the allowing, 1 for the
    denying one), [failmsg1] and [failmsg2] are the two log messages.
    [Some ret] is a failure that continues at [proxy_open_exit]. *)
Definition open_regex (e : open_env) (pattern : option string)
    (get : proxy_priv -> option regex_handle)
    (set : option regex_handle -> proxy_priv -> proxy_priv) (idx : nat)
    (failmsg1 failmsg2 : string) (w : world) : option Z * world :=
  match pattern with
  | Some pat =>
      let '(fail, w) :=
        match get (priv w) with
        | None =>
            if negb (malloc_regex_ok e) then (Some (- ENOMEM), w) else
            let w := upd_priv (set (Some regex_zero)) w in
            let ret := regex_init_ret e in
            if ret <? 0
            then (Some ret, proxy_log LOG_LEVEL_FATAL failmsg1 w)
            else (None, w)
        | Some _ => (None, w)
        end in
      match fail with
      | Some ret => (Some ret, w)
      | None =>
          let ret := regex_compile_ret e pat in
          if ret <? 0
          then (Some ret, proxy_log LOG_LEVEL_FATAL failmsg2 w)
          else (None,
                upd_priv (set (Some (mk_regex (regex_engine e pat)))) w)
      end
  | None =>
      (None,
       match get (priv w) with
       | Some _ => upd_priv (set None) (emit (EvCall "regex_free" idx) w)
       | None => w
       end)
  end.

(** The loop [for (i = 1; i < num_clients; i++)] that gives the additional
    slots their addresses, with [n] iterations left. *)
Fixpoint assign_add_addrs (c : proxy_conf) (i n : nat)
    (cs : list proxy_conn_handle) : list proxy_conn_handle :=
  match n with
  | O => cs
  | S n' =>
      assign_add_addrs c (S i) n'
        (alter (set_source_addr (bind_addr_ext_add_at c (i - 1))) i cs)
  end.

(** The loop that initialises the slots, with [n] iterations left. *)
Fixpoint conn_init_loop (e : open_env) (i n : nat) (w : world)
  : option Z * world :=
  match n with
  | O => (None, w)
  | S n' =>
      let w := set_slots (alter set_pc_ph i (slots w)) w in
      let ret := proxy_conn_init_ret e i in
      let w := emit (EvCall "proxy_conn_init" i) w in
      if ret <? 0 then
        let w := proxy_log LOG_LEVEL_FATAL
                   "Failed to initialize proxy connection #%d (%d): %s" w in
        (Some ret, emits (calls_down "proxy_conn_free" i) w)
      else conn_init_loop e (S i) n' w
  end.

(** [proxy_worker_init] for worker [i]. *)
Definition proxy_worker_init (e : open_env) (i : nat) (w : world)
  : Z * world :=
  let ret := worker_mutex_init_ret e i in
  let w := emit (EvCall "mutex_init" i) w in
  if ret <? 0 then (ret, w) else
  let ret := worker_init_ret e i in
  let w := emit (EvCall "worker_init" i) w in
  if ret <? 0 then (ret, emit (EvCall "mutex_free" i) w) else (0, w).

(** The loop that initialises the workers, with [n] iterations left. *)
Fixpoint worker_init_loop (e : open_env) (i n : nat) (w : world)
  : option Z * world :=
  match n with
  | O => (None, w)
  | S n' =>
      let w := set_workers (alter set_pw_ph i (workers w)) w in
      let '(ret, w) := proxy_worker_init e i w in
      if ret <? 0 then
        let w := proxy_log LOG_LEVEL_FATAL
                   "Failed to initialize proxy client worker #%d (%d): %s" w in
        (Some ret, emits (calls_down "proxy_worker_free" i) w)
      else worker_init_loop e (S i) n' w
  end.

Definition proxy_open (e : open_env) (w : world) : Z * world :=
  let w := upd_priv (set_num_clients (1 + bind_addr_ext_add_len (conf w))) w in
  let n := Z.to_nat (num_clients (priv w)) in
  if negb (malloc_clients_ok e)
  then (- ENOMEM, upd_priv (set_clients None) w) else
  let w := set_slots (replicate n pc_zero) w in
  if negb (malloc_workers_ok e) then proxy_open_exit (- ENOMEM) w else
  let w := set_workers (replicate n pw_zero) w in
  let ret := log_open_ret e in
  if ret <? 0 then proxy_open_exit ret w else
  let '(fail, w) :=
    open_regex e (calls_allowed (conf w)) re_calls_allowed
      set_re_calls_allowed 0
      "Failed to initialize allowed callsigns regex (%d): %s"
      "Failed to compile allowed callsigns regex (%d): %s" w in
  match fail with Some ret => proxy_open_exit ret w | None =>
  let '(fail, w) :=
    open_regex e (calls_denied (conf w)) re_calls_denied
      set_re_calls_denied 1
      "Failed to initialize denied callsigns regex (%d): %s"
      "Failed to compile denied callsigns regex (%d): %s" w in
  match fail with Some ret => proxy_open_exit ret w | None =>
  let w := set_slots
             (alter (set_source_addr (bind_addr_ext (conf w))) 0%nat (slots w))
             w in
  let w := set_slots (assign_add_addrs (conf w) 1 (n - 1) (slots w)) w in
  let '(fail, w) := conn_init_loop e 0 n w in
  match fail with Some ret => proxy_open_exit ret w | None =>
  let '(fail, w) := worker_init_loop e 0 n w in
  match fail with Some ret => proxy_open_exit_late ret w | None =>
  let ret := conn_listen_ret e in
  let w := emit (EvCall "conn_listen" 0) w in
  if ret <? 0 then
    proxy_open_exit_later ret
      (proxy_log LOG_LEVEL_FATAL "Failed to open listening port (%d): %s" w)
  else
    (0,
     match bind_addr (conf w) with
     | None => proxy_log LOG_LEVEL_INFO
                 "Listening for connections on port %s" w
     | Some _ => proxy_log LOG_LEVEL_INFO
                   "Listening for connections at %s:%s" w
     end)
  end end end end.

(** ** proxy_start *)

Record start_env := mk_start_env {
  proxy_conn_start_ret : nat -> Z;
  worker_start_ret : nat -> Z;
  reg_start_ret : Z;
}.

(** First index in [i .. i + n - 1] at which [rets] is negative, with the
    value found there. *)
Fixpoint first_failure (rets : nat -> Z) (i n : nat) : option (nat * Z) :=
  match n with
  | O => None
  | S n' =>
      if rets i <? 0 then Some (i, rets i) else first_failure rets (S i) n'
  end.

(** The labels [proxy_start_exit_early] and [proxy_start_exit], entered with
    loop counter [i]. *)
Definition proxy_start_exit_early (ret : Z) (i : nat) (w : world)
  : Z * world :=
  (ret, emits (calls_down "proxy_conn_stop" i) w).

Definition proxy_start_exit (ret : Z) (i : nat) (w : world) : Z * world :=
  let w := emits (calls_down "worker_join" i) w in
  proxy_start_exit_early ret (Z.to_nat (num_clients (priv w))) w.

Definition proxy_start (e : start_env) (w : world) : Z * world :=
  let n := Z.to_nat (num_clients (priv w)) in
  match first_failure (proxy_conn_start_ret e) 0 n with
  | Some (i, ret) =>
      let w := emits (map (EvCall "proxy_conn_start") (seq 0 (S i))) w in
      let w := proxy_log LOG_LEVEL_FATAL
                 "Failed to start proxy connection #%d (%d): %s" w in
      proxy_start_exit_early ret i w
  | None =>
      let w := emits (map (EvCall "proxy_conn_start") (seq 0 n)) w in
      match first_failure (worker_start_ret e) 0 n with
      | Some (i, ret) =>
          let w := emits (map (EvCall "worker_start") (seq 0 (S i))) w in
          let w := proxy_log LOG_LEVEL_FATAL
                     "Failed to start proxy worker #%d (%d): %s" w in
          proxy_start_exit ret i w
      | None =>
          let w := emits (map (EvCall "worker_start") (seq 0 n)) w in
          let w := emit (EvMutexLock MxUsableClients) w in
          let w := upd_priv (set_usable_clients (num_clients (priv w))) w in
          let w := emit (EvMutexUnlock MxUsableClients) w in
          let w := proxy_update_registration w in
          let ret := reg_start_ret e in
          let w := emit (EvCall "registration_service_start" 0) w in
          if ret <? 0 then
            let w := proxy_log LOG_LEVEL_FATAL
                       "Failed to start registration service (%d): %s" w in
            proxy_start_exit ret n w
          else (0, w)
      end
  end.

(** ** proxy_process *)

(** The outcome of the allocation, of [conn_init] and of [conn_accept];
    [accepted] describes the client that connected; [wake_ret i] is the
    return value of [worker_wake] on worker [i]. *)
Record process_env := mk_process_env {
  malloc_conn_ok : bool;
  conn_init_ret : Z;
  conn_accept_ret : Z;
  accepted : conn_handle;
  wake_ret : nat -> Z;
}.

(** The loop over the workers, with [n] iterations left; outside the array
    the C code has no defined behaviour and the model stops. *)
Fixpoint probe_loop (wake : nat -> Z) (conn : option nat) (n i : nat)
    (ret : Z) (ws : list proxy_worker) (tr : list event)
  : Z * list proxy_worker * list event :=
  match n with
  | O => (ret, ws, tr)
  | S n' =>
      match ws !! i with
      | None => (ret, ws, tr)
      | Some pw =>
          let '(ret, pw, tr) := proxy_worker_accept (wake i) i pw conn tr in
          let ws := <[i := pw]> ws in
          if negb (ret =? - EBUSY) then (ret, ws, tr)
          else probe_loop wake conn n' (S i) ret ws tr
      end
  end.

(** The label [conn_process_exit]. *)
Definition conn_process_exit (ret : Z) (conn : nat) (w : world) : Z * world :=
  let w := set_heap (alter conn_free conn (heap w)) w in
  let w := emit (EvCall "conn_free" conn) w in
  let w := set_heap (delete conn (heap w)) w in
  let w := emit (EvCall "free" conn) w in
  (ret, w).

Definition proxy_process (e : process_env) (w : world) : Z * world :=
  if negb (malloc_conn_ok e) then (- ENOMEM, w) else
  let conn := fresh (dom (heap w)) in
  let w := set_heap (<[conn := conn_zero]> (heap w)) w in
  let ret := conn_init_ret e in
  if ret <? 0 then
    (ret, emit (EvCall "free" conn) (set_heap (delete conn (heap w)) w))
  else
  let w := proxy_log LOG_LEVEL_DEBUG "Waiting for a client..." w in
  let ret := conn_accept_ret e in
  let w := emit (EvCall "conn_accept" conn) w in
  if ret <? 0 then conn_process_exit ret conn w else
  let w := set_heap (<[conn := accepted e]> (heap w)) w in
  let w := proxy_log LOG_LEVEL_DEBUG "Incoming connection from %s." w in
  let w := emit (EvMutexLockShared MxUsableClients) w in
  let '(ret, ws, tr) :=
    probe_loop (wake_ret e) (Some conn)
      (Z.to_nat (usable_clients (priv w))) 0 ret (workers w) (trace w) in
  let w :=
    match client_workers (priv w) with
    | Some _ => set_workers ws w
    | None => w
    end in
  let w := set_trace tr w in
  let w := emit (EvMutexUnlockShared MxUsableClients) w in
  if ret =? - EBUSY then
    let w := proxy_log LOG_LEVEL_INFO
               "Dropping client because there are no available slots." w in
    conn_process_exit 0 conn w
  else if ret <? 0 then conn_process_exit ret conn w
  else (0, w).

(** ** The specification's wording, for comparison *)

(** The callsign rule as the specification words it: an engine failure
    counts as "no match" for both patterns. *)
Definition spec_matches (re : regex_handle) (call : list Z) : bool :=
  match re_run re (cstr call) with
  | RE_MATCH => true
  | _ => false
  end.

Definition spec_allow (w : world) (call : list Z) : bool :=
  match re_calls_denied (priv w) with
  | None => true
  | Some re => negb (spec_matches re call)
  end
  &&
  match re_calls_allowed (priv w) with
  | None => true
  | Some re => spec_matches re call
  end.

(** ** Sample inputs *)

Definition conf_default : proxy_conf :=
  mk_conf (bytes_of_string "test") None 8100 None None None None.

Definition world_new : world :=
  mk_world conf_default false priv_zero ∅ [].

(** A proxy whose denial pattern cannot be evaluated (the engine reports
    ENOMEM) and that has no allowing pattern. *)
Definition world_deny_fails : world :=
  mk_world conf_default true
    (mk_priv None None None (Some (mk_regex (fun _ => RE_ERROR 12)))
       0 0 4 "8100")
    ∅ [].

(** ** Observations on a run of the authorization *)

(** The connection [c] after the sends [sent] (data and return value of
    each) and the completed reads of sizes [reads]. *)
Definition conn_after (c : conn_handle) (sent : list (list Z * Z))
    (reads : list nat) : conn_handle :=
  mk_conn (drop (foldr Nat.add 0%nat reads) (rx c)) (rx_errno c)
    (drop (length sent) (send_rets c)) (recvs c ++ reads) (tx c ++ sent)
    (is_open c).

(** The expected response computed by one run of the authorization. *)
Definition expected_response (md5 : list Z -> list Z) (e : auth_env)
    (w : world) : list Z :=
  snd (get_password_response md5 (heap_junk e) (rand_nonce e)
         (password (conf w))).

(** The return value of the authorization after a failure frame has been
    sent with return value [r]. *)
Definition refusal (r : Z) : Z := if r <? 0 then r else - EACCES.

(** A worker without a client, an authorization run whose random source
    delivers the nonce 0x12345678, and a proxy that has been opened with the
    default configuration (password "test", one slot, no patterns). *)
Definition auth_env_ok : auth_env :=
  mk_auth_env 0 0x12345678 (fun _ => 0) (fun _ => 0).

Definition world_open : world :=
  mk_world conf_default true
    (mk_priv (Some [mk_pc None true false]) (Some [mk_pw true None (replicate 12 0)])
       None None 1 0 4 "8100")
    ∅ [].

(** The reply of a client with callsign W1AW that knows the password: the
    callsign, a newline and the MD5 of "TEST12345678". *)
Definition reply_w1aw : list Z :=
  bytes_of_string "W1AW" ++ [10]
  ++ [0xf0; 0xad; 0xeb; 0xdf; 0xea; 0x33; 0x56; 0x71;
      0xb5; 0x86; 0x11; 0x8e; 0x6c; 0xac; 0x89; 0x6f].

Definition conn_of_reply (reply : list Z) : conn_handle :=
  mk_conn reply 104%positive [] [] [] true.

(** A reply whose first line contains a NUL byte, and a reply without any
    newline. *)
Definition reply_nul : list Z := [65; 0; 66; 10] ++ replicate 17 1.
Definition reply_no_newline : list Z := replicate 16 65.

(** [w'] differs from [w] only by events added to the trace. *)
Definition same_state (w w' : world) : Prop :=
  conf w' = conf w /\ priv_alloc w' = priv_alloc w /\ priv w' = priv w
  /\ heap w' = heap w /\ exists l, trace w' = trace w ++ l.

(** The state in which worker [i] starts the authorization. *)
Definition authorize_world (i : nat) (w : world) : world :=
  proxy_log LOG_LEVEL_DEBUG
    "New connection - beginning authorization procedure"
    (emit (EvMutexUnlockShared (MxWorker i))
       (emit (EvMutexLockShared (MxWorker i)) w)).

(** The opened proxy with a client connection, which delivers [reply], in
    the hands of worker 0; the run of that worker. *)
Definition world_client (reply : list Z) : world :=
  mk_world conf_default true
    (mk_priv (Some [mk_pc None true false])
       (Some [mk_pw true (Some 7%nat) (replicate 12 0)])
       None None 1 1 4 "8100")
    {[ 7%nat := conn_of_reply reply ]} [].

Definition worker_env_ok : worker_env :=
  mk_worker_env auth_env_ok (fun _ => 0) [0; -32].

(** A reply with callsign W1AW and a wrong response. *)
Definition reply_wrong : list Z :=
  bytes_of_string "W1AW" ++ [10] ++ replicate 16 0.

(** An acceptance cycle in which every collaborator call succeeds and the
    client of [reply_w1aw] connects. *)
Definition process_env_ok : process_env :=
  mk_process_env true 0 0 (conn_of_reply reply_w1aw) (fun _ => 0).

(** The lock and unlock events of the probes of workers [i .. i + m - 1]
    when each of them is busy. *)
Definition busy_probes (i m : nat) : list event :=
  flat_map (fun j => [EvMutexLock (MxWorker j); EvMutexUnlock (MxWorker j)])
    (seq i m).

(** [w'] has the configuration, the counters and the slot addresses of
    [w]. *)
Definition open_kept (w w' : world) : Prop :=
  conf w' = conf w
  /\ priv_alloc w' = priv_alloc w
  /\ usable_clients (priv w') = usable_clients (priv w)
  /\ num_clients (priv w') = num_clients (priv w)
  /\ map source_addr (slots w') = map source_addr (slots w).

(** The additional external addresses of a configuration. *)
Definition additional_addrs (c : proxy_conf) : list string :=
  default [] (bind_addr_ext_add c).

(** Runs in which every collaborator call succeeds. *)
Definition init_env_ok : init_env :=
  mk_init_env true 0 0 4 0 conf_default 0 0 0 0.

Definition open_env_ok : open_env :=
  mk_open_env true true 0 true 0 (fun _ => 0) (fun _ _ => RE_NOMATCH)
    (fun _ => 0) (fun _ => 0) (fun _ => 0) 0.

Definition start_env_ok : start_env :=
  mk_start_env (fun _ => 0) (fun _ => 0) 0.

(** A proxy with [n] idle slots and workers that has been opened and not
    started, and starts in which slot [k], or worker [k], fails with [r]. *)
Definition world_slots (n : nat) : world :=
  mk_world conf_default true
    (mk_priv (Some (replicate n (mk_pc None true false)))
       (Some (replicate n (mk_pw true None (replicate 12 0))))
       None None (Z.of_nat n) 0 4 "8100")
    ∅ [].

Definition start_env_slot_fails (k : nat) (r : Z) : start_env :=
  mk_start_env (fun t => if (t =? k)%nat then r else 0) (fun _ => 0) 0.

Definition start_env_worker_fails (k : nat) (r : Z) : start_env :=
  mk_start_env (fun _ => 0) (fun t => if (t =? k)%nat then r else 0) 0.

(** A started proxy with three slots whose first worker serves the
    connection 7. *)
Definition world_busy_first : world :=
  mk_world conf_default true
    (mk_priv (Some (replicate 3 (mk_pc None true false)))
       (Some [mk_pw true (Some 7%nat) (replicate 12 0);
              mk_pw true None (replicate 12 0);
              mk_pw true None (replicate 12 0)])
       None None 3 3 4 "8100")
    {[ 7%nat := conn_of_reply reply_w1aw ]} [].

(** The calls on collaborators in a trace, in order. *)
Definition is_call (ev : event) : bool :=
  match ev with EvCall _ _ => true | _ => false end.

Definition calls_of (tr : list event) : list event := List.filter is_call tr.

Definition load_env_of (c : proxy_conf) : load_env :=
  mk_load_env 0 c (fun _ => "8100"%string).

(** A configuration with an additional external address and no external
    address, and one whose additional address repeats the external one. *)
Definition conf_no_ext : proxy_conf :=
  mk_conf (bytes_of_string "test") None 8100 None (Some ["10.0.0.2"%string])
    None None.

Definition conf_same_ext : proxy_conf :=
  mk_conf (bytes_of_string "test") None 8100 (Some "10.0.0.1"%string)
    (Some ["10.0.0.1"%string]) None None.

Definition conf_two_ext : proxy_conf :=
  mk_conf (bytes_of_string "test") None 8100 (Some "10.0.0.1"%string)
    (Some ["10.0.0.2"%string]) None None.

(** The proxy after a successful [proxy_init]. *)
Definition world_init : world := snd (proxy_init init_env_ok world_new).

(** ** The life cycle of a proxy *)

(** The calls a host makes on a proxy handle, each with the outcome of the
    collaborator calls it leads to, and the run of a worker thread. *)
Inductive api_call :=
| CallInit (e : init_env)
| CallLoadConf (e : load_env)
| CallOpen (e : open_env)
| CallStart (e : start_env)
| CallProcess (e : process_env)
| CallWorker (e : worker_env) (i : nat)
| CallShutdown
| CallClose (reg_stop_ret : Z).

(** Where a handle is in the order init, open, start, shutdown, close. *)
Inductive phase :=
| PhNew | PhInit | PhOpen | PhStarted | PhStartFailed | PhShutdown.

(** One call in a given phase: the next phase and state, or [None] when the
    call is out of order (or, for a worker, when its session never ends). *)
Definition api_step (md5 : list Z -> list Z) (ph : phase) (w : world)
    (c : api_call) : option (phase * world) :=
  match c, ph with
  | CallInit e, PhNew =>
      let '(ret, w') := proxy_init e w in
      Some (if ret <? 0 then PhNew else PhInit, w')
  | CallLoadConf e, PhInit => Some (PhInit, snd (proxy_load_conf e w))
  | CallOpen e, PhInit =>
      let '(ret, w') := proxy_open e w in
      Some (if ret <? 0 then PhInit else PhOpen, w')
  | CallStart e, PhOpen =>
      let '(ret, w') := proxy_start e w in
      Some (if ret <? 0 then PhStartFailed else PhStarted, w')
  | CallProcess e, (PhOpen | PhStarted | PhShutdown) =>
      Some (ph, snd (proxy_process e w))
  | CallWorker e i, (PhStarted | PhShutdown) =>
      (fun w' => (ph, w')) <$> proxy_worker_func md5 e i w
  | CallShutdown, (PhOpen | PhStarted | PhStartFailed | PhShutdown) =>
      Some (PhShutdown, proxy_shutdown w)
  | CallClose r, (PhInit | PhOpen | PhStarted | PhStartFailed | PhShutdown) =>
      Some (PhInit, proxy_close r w)
  | _, _ => None
  end.

Fixpoint run (md5 : list Z -> list Z) (calls : list api_call) (ph : phase)
    (w : world) : option (phase * world) :=
  match calls with
  | [] => Some (ph, w)
  | c :: rest =>
      match api_step md5 ph w c with
      | Some (ph', w') => run md5 rest ph' w'
      | None => None
      end
  end.

(** The number of slots of a configuration: one for the external address
    and one for each additional external address. *)
Definition configured_slots (c : proxy_conf) : nat :=
  S (length (additional_addrs c)).

(** The proxy is open for its configuration: [num_clients] is the number
    of configured slots and both arrays have that many elements. *)
Definition opened (w : world) : Prop :=
  num_clients (priv w) = Z.of_nat (configured_slots (conf w))
  /\ length (slots w) = configured_slots (conf w)
  /\ length (workers w) = configured_slots (conf w).

(** What holds of the counters and the arrays in each phase. *)
Definition phase_inv (ph : phase) (w : world) : Prop :=
  match ph with
  | PhNew => priv_alloc w = false
  | PhInit =>
      priv_alloc w = true /\ usable_clients (priv w) = 0
      /\ 0 <= num_clients (priv w)
  | PhOpen | PhShutdown =>
      priv_alloc w = true /\ usable_clients (priv w) = 0 /\ opened w
  | PhStarted =>
      priv_alloc w = true
      /\ usable_clients (priv w) = num_clients (priv w)
      /\ opened w
  | PhStartFailed =>
      priv_alloc w = true
      /\ 0 <= usable_clients (priv w) <= num_clients (priv w)
      /\ opened w
  end.

(** [w'] has the configuration of [w] and arrays of the same lengths. *)
Definition arrays_kept (w w' : world) : Prop :=
  conf w' = conf w
  /\ length (slots w') = length (slots w)
  /\ length (workers w') = length (workers w).

(** [w'] has the counters of [w]. *)
Definition counters_kept (w w' : world) : Prop :=
  priv_alloc w' = priv_alloc w
  /\ usable_clients (priv w') = usable_clients (priv w)
  /\ num_clients (priv w') = num_clients (priv w).

(** The life of a proxy with two external addresses up to its start, and
    up to its shutdown. *)
Definition calls_two_slots : list api_call :=
  [CallInit init_env_ok; CallLoadConf (load_env_of conf_two_ext);
   CallOpen open_env_ok; CallStart start_env_ok; CallShutdown].

(** A complete life of a one-slot proxy. *)
Definition calls_life : list api_call :=
  [CallInit init_env_ok; CallLoadConf (load_env_of conf_default);
   CallOpen open_env_ok; CallStart start_env_ok; CallProcess process_env_ok;
   CallWorker worker_env_ok 0; CallShutdown; CallClose 0].

(** ** digest_to_str *)

(** [sprintf(result, "%02hhx", v)]: the characters written before the
    terminating NUL (the two lowercase hex digits of the low byte of [v]) and
    the return value. *)
Definition sprintf_02hhx (v : Z) : list Z * Z :=
  ([hex_digit (Z.land (Z.shiftr v 4) 15); hex_digit (Z.land v 15)], 2).

(** The loop of [digest_to_str], with [n] iterations left: [i] is the index
    into the digest and [off] the position of [result] in the output
    buffer. *)
Fixpoint digest_to_str_loop (md5 : list Z) (i n : nat) (result : list Z)
    (off : nat) : Z * list Z :=
  match n with
  | O => (0, result)
  | S n' =>
      let '(chars, ret) := sprintf_02hhx (nth i md5 0) in
      let result := write_bytes result off (chars ++ [0]) in
      if negb (ret =? 2) then (- EINVAL, result)
      else digest_to_str_loop md5 (S i) n' result (off + 2)
  end.

Definition digest_to_str (md5 : list Z) (result : list Z) : Z * list Z :=
  digest_to_str_loop md5 0 DIGEST_LEN result 0.

(** The value of a lowercase hex digit, and the bytes spelled by a string of
    hex digits. *)
Definition hex_value (ch : Z) : Z :=
  if ch <? 58 then ch - 48 else ch - 87.

Fixpoint hex_decode (s : list Z) : list Z :=
  match s with
  | hi :: lo :: rest => 16 * hex_value hi + hex_value lo :: hex_decode rest
  | _ => []
  end.

Definition is_hex_char (ch : Z) : Prop :=
  48 <= ch <= 57 \/ 97 <= ch <= 102.

(** ** proxy_log_level *)

Definition proxy_log_level (lvl : LOG_LEVEL) (w : world) : world :=
  upd_priv (set_log_level (level_code lvl)) w.
(** ** Buffer lemmas *)

Lemma length_write_bytes (data : list Z) : forall buf off,
  length (write_bytes buf off data) = length buf.
Proof.
  induction data as [|b data IH]; intros buf off; simpl; [done|].
  by rewrite IH, length_insert.
Qed.

Lemma write_bytes_exact (data : list Z) : forall pre old post : list Z,
  length old = length data ->
  write_bytes (pre ++ old ++ post) (length pre) data = pre ++ data ++ post.
Proof.
  induction data as [|b data IH]; intros pre old post Hlen.
  - destruct old; [done | discriminate].
  - destruct old as [|o old]; [discriminate|]. simpl in *.
    replace (<[length pre := b]> (pre ++ o :: old ++ post))
      with ((pre ++ [b]) ++ old ++ post).
    + replace (S (length pre)) with (length (pre ++ [b]))
        by (rewrite length_app; simpl; lia).
      rewrite IH by lia. by rewrite <- app_assoc.
    + rewrite insert_app_r_alt by lia.
      rewrite Nat.sub_diag. simpl. by rewrite <- app_assoc.
Qed.

Lemma upcase_loop_spec (password : list Z) : forall pre old : list Z,
  (length (cstr password) <= length old)%nat ->
  upcase_loop password (pre ++ old) (length pre)
  = (pre ++ map to_upper (cstr password) ++ drop (length (cstr password)) old,
     length pre + length (cstr password))%nat.
Proof.
  induction password as [|c rest IH]; intros pre old Hlen; simpl.
  - by rewrite drop_0, Nat.add_0_r.
  - destruct (c =? 0) eqn:Hc; simpl.
    + by rewrite drop_0, Nat.add_0_r.
    + simpl in Hlen. rewrite Hc in Hlen. simpl in Hlen.
      destruct old as [|o old]; [simpl in Hlen; lia|].
      simpl in Hlen.
      replace (<[length pre := _]> (pre ++ o :: old))
        with ((pre ++ [to_upper c]) ++ old).
      * replace (S (length pre)) with (length (pre ++ [to_upper c]))
          by (rewrite length_app; simpl; lia).
        rewrite IH by lia.
        rewrite length_app. simpl.
        f_equal; [by rewrite <- app_assoc | lia].
      * rewrite insert_app_r_alt by lia.
        rewrite Nat.sub_diag. simpl. by rewrite <- app_assoc.
Qed.

Lemma length_hex8 data : length (hex8 data) = 8%nat.
Proof. reflexivity. Qed.

Lemma length_malloc_bytes junk n : length (malloc_bytes junk n) = n.
Proof. unfold malloc_bytes. by rewrite length_map, length_seq. Qed.

(** C1: for every password and nonce whose transformed length fits the
    [unsigned int] length variable, [get_password_response] returns 0 and the
    response is the MD5 digest of the password with each byte in 0x61..0x7A
    mapped to upper case and every other byte unchanged, followed by the 8
    lowercase hex characters of the nonce. *)
Theorem get_password_response_spec (md5 : list Z -> list Z)
    (junk : nat -> Z) (nonce : Z) (password : list Z) :
  Z.of_nat (strlen password) + 8 < 2 ^ 32 ->
  get_password_response md5 junk nonce password
  = (0, md5 (map to_upper (cstr password) ++ hex8 nonce)).
Proof.
  intros Hfit. unfold get_password_response, strlen in *.
  rewrite Z.mod_small by lia.
  replace (Z.to_nat (Z.of_nat (length (cstr password)) + 8))
    with (length (cstr password) + 8)%nat by lia.
  set (n := length (cstr password)).
  pose proof (length_malloc_bytes junk (n + 8)) as Hm.
  pose proof (upcase_loop_spec password [] (malloc_bytes junk (n + 8))) as Hl.
  simpl in Hl. rewrite Hl by (fold n; lia). fold n.
  unfold digest_to_hex32, digest_get.
  pose proof (write_bytes_exact (hex8 nonce) (map to_upper (cstr password))
                (drop n (malloc_bytes junk (n + 8))) []) as Hw.
  rewrite length_map in Hw. fold n in Hw.
  rewrite app_nil_r in Hw. rewrite Hw.
  - rewrite app_nil_r. f_equal. f_equal.
    apply take_ge. rewrite length_app, length_map, length_hex8. fold n. lia.
  - rewrite length_drop, Hm, length_hex8. lia.
Qed.

(** The witness uses the test vector of the specification: password
    "test", nonce 0x12345678, with the MD5 of RFC 1321. *)
Lemma get_password_response_spec_witness :
  Z.of_nat (strlen (bytes_of_string "test")) + 8 < 2 ^ 32 /\
  get_password_response MD5.md5 (fun _ => 0) 0x12345678
    (bytes_of_string "test")
  = (0, MD5.md5 (bytes_of_string "TEST12345678")).
Proof.
  split; [reflexivity|].
  exact (get_password_response_spec MD5.md5 (fun _ => 0) 0x12345678
           (bytes_of_string "test") eq_refl).
Defined.

Example md5_test_vector :
  MD5.md5 (bytes_of_string "TEST12345678")
  = [0xf0; 0xad; 0xeb; 0xdf; 0xea; 0x33; 0x56; 0x71;
     0xb5; 0x86; 0x11; 0x8e; 0x6c; 0xac; 0x89; 0x6f].
Proof. vm_compute. reflexivity. Qed.

Lemma md5_length msg : length (MD5.md5 msg) = DIGEST_LEN.
Proof.
  unfold MD5.md5.
  destruct (fold_left _ _ _) as [[[a b] c] d].
  reflexivity.
Qed.

(** ** Callsign authorization *)

(** C3, as the code has it: [proxy_authorize_callsign] returns 1 exactly when
    the denial pattern is absent or answers "no match" and the allowing
    pattern is absent or answers "match"; it returns 0 in every other case.
    A failure of the engine therefore refuses the callsign for either
    pattern. *)
Theorem proxy_authorize_callsign_spec (w : world) (call : list Z) :
  (fst (proxy_authorize_callsign w call) = 1 <->
   match re_calls_denied (priv w) with
   | None => True
   | Some re => re_run re (cstr call) = RE_NOMATCH
   end /\
   match re_calls_allowed (priv w) with
   | None => True
   | Some re => re_run re (cstr call) = RE_MATCH
   end)
  /\ (fst (proxy_authorize_callsign w call) = 0
      \/ fst (proxy_authorize_callsign w call) = 1).
Proof.
  unfold proxy_authorize_callsign, regex_is_match.
  destruct (re_calls_denied (priv w)) as [rd|];
    destruct (re_calls_allowed (priv w)) as [ra|];
    repeat match goal with
           | |- context [re_run ?r ?c] => destruct (re_run r c)
           end; simpl; intuition congruence.
Qed.

(** C3 as stated fails: with a denial pattern whose evaluation fails and no
    allowing pattern, the stated rule gives 1 and the code returns 0. *)
Lemma spec_allow_counterexample :
  ~ (forall w call,
        fst (proxy_authorize_callsign w call) = 1 <-> spec_allow w call = true).
Proof.
  intros H.
  specialize (H world_deny_fails (bytes_of_string "W1AW")).
  destruct H as [_ H]. specialize (H eq_refl). discriminate H.
Qed.

(** ** The hand-over of a connection to a worker *)

Lemma proxy_worker_accept_busy wake i pw new tr c :
  conn_client pw = Some c ->
  proxy_worker_accept wake i pw new tr
  = (- EBUSY, pw,
     tr ++ [EvMutexLock (MxWorker i)] ++ [EvMutexUnlock (MxWorker i)]).
Proof.
  intros H. unfold proxy_worker_accept. rewrite H.
  by rewrite <- app_assoc.
Qed.

Lemma proxy_worker_accept_idle wake i pw new tr :
  conn_client pw = None ->
  proxy_worker_accept wake i pw new tr
  = (wake,
     if wake <? 0 then set_conn_client None (set_conn_client new pw)
     else set_conn_client new pw,
     tr ++ [EvMutexLock (MxWorker i)] ++ [EvWorkerWake i]
        ++ [EvMutexUnlock (MxWorker i)]).
Proof.
  intros H. unfold proxy_worker_accept. rewrite H.
  by rewrite <- !app_assoc.
Qed.

(** C10: [proxy_worker_accept] takes the worker's mutex first and releases
    it last, on every path, and nothing else locks or unlocks in between.
    With a connection already stored it returns [-EBUSY] and leaves the
    worker as it is.  Otherwise it stores the new connection and wakes the
    worker; the return value is that of the wake, and a failed wake puts
    NULL back.  So, for a new connection that is not the one stored at entry,
    [conn_client] is the new connection exactly when the call succeeds, and
    after a failure it is what it was at entry. *)
Theorem proxy_worker_accept_spec (wake : Z) (i : nat) (pw : proxy_worker)
    (new : option nat) (tr : list event) :
  conn_client pw <> new ->
  let '(ret, pw', tr') := proxy_worker_accept wake i pw new tr in
  (exists mid,
      tr' = tr ++ [EvMutexLock (MxWorker i)] ++ mid
               ++ [EvMutexUnlock (MxWorker i)]
      /\ (mid = [] \/ mid = [EvWorkerWake i]))
  /\ (conn_client pw <> None -> ret = - EBUSY /\ pw' = pw)
  /\ (conn_client pw = None ->
      ret = wake /\ In (EvWorkerWake i) tr'
      /\ conn_client pw' = (if wake <? 0 then None else new))
  /\ (conn_client pw' = new <-> 0 <= ret)
  /\ (ret < 0 -> conn_client pw' = conn_client pw)
  /\ callsign pw' = callsign pw.
Proof.
  intros Hne.
  destruct (conn_client pw) as [c|] eqn:Hc.
  - rewrite (proxy_worker_accept_busy _ _ _ _ _ _ Hc).
    split; [exists []; auto|].
    split; [done|].
    split; [done|].
    split; [|done].
    rewrite Hc. unfold EBUSY. split; [congruence | lia].
  - rewrite (proxy_worker_accept_idle _ _ _ _ _ Hc).
    split; [exists [EvWorkerWake i]; auto|].
    split; [done|].
    split.
    { intros _. split; [done|]. split.
      - rewrite !in_app_iff. right. right. left. by left.
      - by destruct (wake <? 0). }
    destruct (wake <? 0) eqn:Hw; simpl.
    + apply Z.ltb_lt in Hw. repeat split; try done; try lia.
    + apply Z.ltb_ge in Hw. repeat split; try done; lia.
Qed.

Lemma proxy_worker_accept_spec_witness :
  conn_client pw_zero <> Some 5%nat /\
  let '(ret, pw', tr') := proxy_worker_accept 0 0 pw_zero (Some 5%nat) [] in
  (exists mid,
      tr' = [] ++ [EvMutexLock (MxWorker 0)] ++ mid
               ++ [EvMutexUnlock (MxWorker 0)]
      /\ (mid = [] \/ mid = [EvWorkerWake 0]))
  /\ (conn_client pw_zero <> None -> ret = - EBUSY /\ pw' = pw_zero)
  /\ (conn_client pw_zero = None ->
      ret = 0 /\ In (EvWorkerWake 0) tr'
      /\ conn_client pw' = (if 0 <? 0 then None else Some 5%nat))
  /\ (conn_client pw' = Some 5%nat <-> 0 <= ret)
  /\ (ret < 0 -> conn_client pw' = conn_client pw_zero)
  /\ callsign pw' = callsign pw_zero.
Proof.
  assert (H : conn_client pw_zero <> Some 5%nat) by discriminate.
  split; [exact H|].
  exact (proxy_worker_accept_spec 0 0 pw_zero (Some 5%nat) [] H).
Defined.

(** ** The authorization exchange *)

Lemma find_newline_spec (buff : list Z) : forall n idx,
  (idx <= find_newline buff idx n <= idx + n)%nat
  /\ (forall i, (idx <= i < find_newline buff idx n)%nat ->
                nth i buff 0 <> 10)
  /\ ((find_newline buff idx n < idx + n)%nat ->
      nth (find_newline buff idx n) buff 0 = 10).
Proof.
  induction n as [|n IH]; intros idx; simpl.
  - repeat split; intros; lia.
  - destruct (nth idx buff 0 =? 10) eqn:E.
    + apply Z.eqb_eq in E. repeat split; intros; try lia; done.
    + apply Z.eqb_neq in E. destruct (IH (S idx)) as (Hr & Hno & Hyes).
      split; [lia|]. split.
      * intros i Hi. destruct (decide (i = idx)) as [->|]; [done|].
        apply Hno. lia.
      * intros Hlt. apply Hyes. lia.
Qed.

Lemma find_newline_ext (b1 b2 : list Z) : forall n idx,
  (forall i, (i < idx + n)%nat -> nth i b1 0 = nth i b2 0) ->
  find_newline b1 idx n = find_newline b2 idx n.
Proof.
  induction n as [|n IH]; intros idx H; simpl; [done|].
  rewrite (H idx) by lia.
  destruct (nth idx b2 0 =? 10); [done|].
  apply IH. intros i Hi. apply H. lia.
Qed.

(** The first newline is found at [k]. *)
Lemma find_newline_found (buff : list Z) (k : nat) :
  (k < 11)%nat -> nth k buff 0 = 10 ->
  (forall i, (i < k)%nat -> nth i buff 0 <> 10) ->
  find_newline buff 0 11 = k.
Proof.
  intros Hk Hnl Hno.
  destruct (find_newline_spec buff 11 0) as (Hr & Hbefore & Hat).
  set (r := find_newline buff 0 11) in *.
  destruct (lt_eq_lt_dec r k) as [[Hlt|Heq]|Hgt]; [|done|].
  - exfalso. apply (Hno r Hlt). apply Hat. lia.
  - exfalso. apply (Hbefore k); [lia | done].
Qed.

Lemma response_differs_spec (response buff : list Z) : forall n idx j,
  response_differs response buff idx j n = false <->
  forall t, (t < n)%nat -> nth (j + t) response 0 = nth (idx + t) buff 0.
Proof.
  induction n as [|n IH]; intros idx j; simpl.
  - split; [intros _ t Ht; lia | done].
  - destruct (nth j response 0 =? nth idx buff 0) eqn:E; simpl.
    + apply Z.eqb_eq in E. rewrite IH. split.
      * intros H t Ht. destruct t as [|t].
        { by rewrite !Nat.add_0_r. }
        specialize (H t ltac:(lia)).
        by replace (j + S t)%nat with (S j + t)%nat by lia;
           replace (idx + S t)%nat with (S idx + t)%nat by lia.
      * intros H t Ht. specialize (H (S t) ltac:(lia)).
        by replace (j + S t)%nat with (S j + t)%nat in H by lia;
           replace (idx + S t)%nat with (S idx + t)%nat in H by lia.
    + apply Z.eqb_neq in E. split; [done|].
      intros H. specialize (H 0%nat ltac:(lia)).
      rewrite !Nat.add_0_r in H. done.
Qed.

Lemma response_differs_true (response buff : list Z) : forall n idx j,
  response_differs response buff idx j n = true <->
  exists t, (t < n)%nat /\ nth (j + t) response 0 <> nth (idx + t) buff 0.
Proof.
  induction n as [|n IH]; intros idx j; simpl.
  - split; [done | intros (t & Ht & _); lia].
  - destruct (nth j response 0 =? nth idx buff 0) eqn:E; simpl.
    + apply Z.eqb_eq in E. rewrite IH. split.
      * intros (t & Ht & Hne). exists (S t). split; [lia|].
        by replace (j + S t)%nat with (S j + t)%nat by lia;
           replace (idx + S t)%nat with (S idx + t)%nat by lia.
      * intros (t & Ht & Hne). destruct t as [|t].
        { rewrite !Nat.add_0_r in Hne. done. }
        exists t. split; [lia|].
        by replace (j + S t)%nat with (S j + t)%nat in Hne by lia;
           replace (idx + S t)%nat with (S idx + t)%nat in Hne by lia.
    + apply Z.eqb_neq in E. split; [|done]. intros _.
      exists 0%nat. split; [lia|]. by rewrite !Nat.add_0_r.
Qed.

Lemma cstr_app_nul (s rest : list Z) : cstr (s ++ 0 :: rest) = cstr s.
Proof.
  induction s as [|c s IH]; simpl; [done|].
  destruct (c =? 0); [done|]. by rewrite IH.
Qed.

Lemma cstr_idemp (s : list Z) : cstr (cstr s) = cstr s.
Proof.
  induction s as [|c s IH]; simpl; [done|].
  destruct (c =? 0) eqn:E; [done|]. simpl. by rewrite E, IH.
Qed.

Lemma cstr_no_nul (s : list Z) : Forall (fun b => b <> 0) s -> cstr s = s.
Proof.
  induction 1 as [|c s Hc _ IH]; simpl; [done|].
  apply Z.eqb_neq in Hc. by rewrite Hc, IH.
Qed.

Lemma length_cstr (s : list Z) : (length (cstr s) <= length s)%nat.
Proof.
  induction s as [|c s IH]; simpl; [done|].
  destruct (c =? 0); simpl; lia.
Qed.

Lemma fst_get_password_response (md5 : list Z -> list Z) junk nonce pass :
  fst (get_password_response md5 junk nonce pass) = 0.
Proof.
  unfold get_password_response. by destruct (upcase_loop _ _ _).
Qed.

Lemma nonce_str_sent (junk : nat -> Z) (nonce : Z) :
  take 8 (digest_to_hex32 nonce (malloc_bytes junk 9) 0) = hex8 nonce.
Proof.
  unfold digest_to_hex32.
  pose proof (write_bytes_exact (hex8 nonce) []
                (take 8 (malloc_bytes junk 9))
                (drop 8 (malloc_bytes junk 9))) as H.
  change (length (@nil Z)) with 0%nat in H.
  rewrite app_nil_l, take_drop in H.
  rewrite H by (rewrite length_take, length_malloc_bytes; reflexivity).
  rewrite app_nil_l. rewrite take_app_length'; [done|reflexivity].
Qed.

Lemma lookup_write_bytes (data : list Z) : forall (buf : list Z) off i,
  (off + length data <= length buf)%nat ->
  write_bytes buf off data !! i
  = if decide (off <= i < off + length data)%nat
    then data !! (i - off)%nat else buf !! i.
Proof.
  induction data as [|b data IH]; intros buf off i Hlen; simpl in *.
  - case_decide; [lia | done].
  - rewrite IH by (rewrite length_insert; lia).
    destruct (decide (i = off)) as [->|Hne].
    + rewrite decide_False by lia. rewrite decide_True by lia.
      rewrite Nat.sub_diag. simpl.
      apply list_lookup_insert_eq. lia.
    + rewrite list_lookup_insert_ne by done.
      repeat case_decide; try lia; try done.
      replace (i - off)%nat with (S (i - S off)) by lia. done.
Qed.

Lemma nth_write_bytes (data buf : list Z) (off i : nat) :
  (off + length data <= length buf)%nat ->
  nth i (write_bytes buf off data) 0
  = if decide (off <= i < off + length data)%nat
    then nth (i - off) data 0 else nth i buf 0.
Proof.
  intros H. rewrite !nth_lookup, lookup_write_bytes by done.
  case_decide; by rewrite ?nth_lookup.
Qed.

Lemma conn_recv_ok (c : conn_handle) (buff : list Z) (off n : nat) :
  (n <= length (rx c))%nat ->
  conn_recv c buff off n
  = (0,
     mk_conn (drop n (rx c)) (rx_errno c) (send_rets c) (recvs c ++ [n])
       (tx c) (is_open c),
     write_bytes buff off (take n (rx c))).
Proof.
  intros H. unfold conn_recv.
  by rewrite (proj2 (Nat.leb_le _ _) H).
Qed.

Lemma conn_recv_short (c : conn_handle) (buff : list Z) (off n : nat) :
  (length (rx c) < n)%nat ->
  conn_recv c buff off n = (Z.neg (rx_errno c), c, buff).
Proof.
  intros H. unfold conn_recv.
  by rewrite (proj2 (Nat.leb_gt _ _) H).
Qed.

Lemma nth_take_lt (l : list Z) (n i : nat) :
  (i < n)%nat -> nth i (take n l) 0 = nth i l 0.
Proof. intros H. rewrite !nth_lookup. by rewrite lookup_take_lt. Qed.

Lemma nth_insert_ne (l : list Z) (i j : nat) (v : Z) :
  i <> j -> nth j (<[i := v]> l) 0 = nth j l 0.
Proof. intros H. rewrite !nth_lookup. by rewrite list_lookup_insert_ne. Qed.

(** The receive buffer after the first read. *)
Lemma first_read_nth (junk : nat -> Z) (stream : list Z) (i : nat) :
  (16 <= length stream)%nat -> (i < 16)%nat ->
  nth i (write_bytes (malloc_bytes junk 28) 0 (take 16 stream)) 0
  = nth i stream 0.
Proof.
  intros Hlen Hi.
  rewrite nth_write_bytes
    by (rewrite length_take, length_malloc_bytes; lia).
  rewrite length_take. rewrite decide_True by lia.
  rewrite Nat.sub_0_r. by apply nth_take_lt.
Qed.

(** The callsign string in the receive buffer once the newline at [k] has
    been replaced by NUL. *)
Lemma cstr_terminated (buff : list Z) (k : nat) :
  (k < length buff)%nat ->
  cstr (<[k := 0]> buff) = cstr (take k buff).
Proof.
  intros Hk.
  rewrite <- (take_drop k buff) at 1.
  rewrite insert_app_r_alt by (rewrite length_take; lia).
  rewrite length_take. replace (k - k `min` length buff)%nat with 0%nat by lia.
  destruct (drop k buff) as [|x rest] eqn:E.
  - apply (f_equal length) in E. rewrite length_drop in E. simpl in E. lia.
  - simpl. apply cstr_app_nul.
Qed.

(** The bytes compared with the response are those of the stream. *)
Lemma second_read_nth (junk : nat -> Z) (stream : list Z) (k t : nat) :
  (k < 11)%nat -> (k + 17 <= length stream)%nat -> (t < 16)%nat ->
  nth (k + 1 + t)
    (write_bytes
       (<[k := 0]> (write_bytes (malloc_bytes junk 28) 0 (take 16 stream)))
       16 (take (k + 1) (drop 16 stream))) 0
  = nth (k + 1 + t) stream 0.
Proof.
  intros Hk Hlen Ht.
  assert (Hl1 : length (write_bytes (malloc_bytes junk 28) 0
                          (take 16 stream)) = 28%nat)
    by (by rewrite length_write_bytes, length_malloc_bytes).
  rewrite nth_write_bytes
    by (rewrite length_insert, Hl1, length_take, length_drop; lia).
  rewrite length_take, length_drop.
  case_decide as Hin.
  - rewrite nth_take_lt by lia.
    rewrite !nth_lookup, lookup_drop. f_equal. f_equal. lia.
  - rewrite nth_insert_ne by lia.
    apply first_read_nth; lia.
Qed.

Lemma response_differs_ext (response b1 b2 : list Z) : forall n idx j,
  (forall t, (t < n)%nat -> nth (idx + t) b1 0 = nth (idx + t) b2 0) ->
  response_differs response b1 idx j n = response_differs response b2 idx j n.
Proof.
  induction n as [|n IH]; intros idx j H; simpl; [done|].
  pose proof (H 0%nat ltac:(lia)) as H0. rewrite Nat.add_0_r in H0.
  rewrite H0. destruct (negb _); [done|].
  apply IH. intros t Ht. specialize (H (S t) ltac:(lia)).
  by replace (idx + S t)%nat with (S idx + t)%nat in H by lia.
Qed.

Lemma first_read_eq (junk : nat -> Z) (stream : list Z) :
  (16 <= length stream)%nat ->
  write_bytes (malloc_bytes junk 28) 0 (take 16 stream)
  = take 16 stream ++ drop 16 (malloc_bytes junk 28).
Proof.
  intros H.
  pose proof (write_bytes_exact (take 16 stream) []
                (take 16 (malloc_bytes junk 28))
                (drop 16 (malloc_bytes junk 28))) as E.
  change (length (@nil Z)) with 0%nat in E.
  rewrite !app_nil_l, take_drop in E. apply E.
  rewrite !length_take, length_malloc_bytes. lia.
Qed.

Lemma send_rets_second (l : list Z) : hd 0 (tail l) = nth 1 l 0.
Proof. by destruct l as [|a [|b l]]. Qed.

Lemma tail_tail_drop (l : list Z) : tail (tail l) = drop 2 l.
Proof. by destruct l as [|a [|b l]]. Qed.

Ltac conn_simpl :=
  cbn [rx rx_errno send_rets recvs tx is_open callsign conn_client pw_ph
       fst snd].

Section Authorize.

Variable md5 : list Z -> list Z.
Variables (e : auth_env) (pw : proxy_worker) (c : conn_handle) (w : world).

Hypothesis Hrand : 0 <= rand_ret e.
Hypothesis Hsend : 0 <= hd 0 (send_rets c).
Hypothesis Hrx : (16 <= length (rx c))%nat.

Lemma find_newline_first_read :
  find_newline
    (write_bytes (malloc_bytes (stack_junk e) 28) 0 (take 16 (rx c))) 0 11
  = find_newline (rx c) 0 11.
Proof.
  apply find_newline_ext. intros i Hi.
  apply first_read_nth; [done | lia].
Qed.

Lemma authorize_no_newline :
  (11 <= find_newline (rx c) 0 11)%nat ->
  proxy_worker_authorize md5 e pw c w
  = (- EINVAL, pw, conn_after c [(hex8 (rand_nonce e), hd 0 (send_rets c))] [16%nat], w).
Proof.
  intros Hk. unfold proxy_worker_authorize.
  cbv beta iota zeta delta [get_nonce].
  rewrite (proj2 (Z.ltb_ge _ _) Hrand).
  destruct (get_password_response _ _ _ _) as [r resp] eqn:Eresp.
  pose proof (fst_get_password_response md5 (heap_junk e) (rand_nonce e)
                (password (conf w))) as Hr.
  rewrite Eresp in Hr. simpl in Hr. subst r.
  change (0 <? 0) with false. cbv iota.
  unfold conn_send. cbv beta iota zeta.
  rewrite (proj2 (Z.ltb_ge _ _) Hsend).
  rewrite conn_recv_ok by done.
  cbv beta iota zeta. change (0 <? 0) with false. cbv iota.
  conn_simpl.
  rewrite find_newline_first_read.
  rewrite (proj2 (Nat.leb_le _ _) Hk).
  rewrite nonce_str_sent. reflexivity.
Qed.

Lemma authorize_short_reply (k : nat) :
  find_newline (rx c) 0 11 = k -> (k < 11)%nat ->
  (length (rx c) < k + 17)%nat ->
  proxy_worker_authorize md5 e pw c w
  = (Z.neg (rx_errno c),
     set_callsign (strcpy (callsign pw) (take k (rx c))) pw,
     conn_after c [(hex8 (rand_nonce e), hd 0 (send_rets c))] [16%nat], w).
Proof.
  intros Hfind Hk Hlen. unfold proxy_worker_authorize.
  cbv beta iota zeta delta [get_nonce].
  rewrite (proj2 (Z.ltb_ge _ _) Hrand).
  destruct (get_password_response _ _ _ _) as [r resp] eqn:Eresp.
  pose proof (fst_get_password_response md5 (heap_junk e) (rand_nonce e)
                (password (conf w))) as Hr.
  rewrite Eresp in Hr. simpl in Hr. subst r.
  change (0 <? 0) with false. cbv iota.
  unfold conn_send. cbv beta iota zeta.
  rewrite (proj2 (Z.ltb_ge _ _) Hsend).
  rewrite conn_recv_ok by done.
  cbv beta iota zeta. change (0 <? 0) with false. cbv iota.
  conn_simpl.
  rewrite find_newline_first_read, Hfind.
  rewrite (proj2 (Nat.leb_gt _ _) Hk).
  rewrite conn_recv_short by (conn_simpl; rewrite length_drop; lia).
  cbv beta iota zeta. change (Z.neg _ <? 0) with true. cbv iota.
  rewrite nonce_str_sent.
  unfold strcpy.
  rewrite cstr_terminated
    by (rewrite length_write_bytes, length_malloc_bytes; lia).
  rewrite first_read_eq by done.
  rewrite take_app_le by (rewrite length_take; lia).
  rewrite take_take. replace (k `min` 16)%nat with k by lia.
  reflexivity.
Qed.

Lemma authorize_full_reply (k : nat) :
  find_newline (rx c) 0 11 = k -> (k < 11)%nat ->
  (k + 17 <= length (rx c))%nat ->
  proxy_worker_authorize md5 e pw c w
  = let pw' := set_callsign (strcpy (callsign pw) (take k (rx c))) pw in
    let r1 := nth 1 (send_rets c) 0 in
    if response_differs (expected_response md5 e w) (rx c) (k + 1) 0
         PROXY_PASS_RES_LEN
    then
      (refusal r1, pw',
       conn_after c [(hex8 (rand_nonce e), hd 0 (send_rets c)); (msg_bad_pw, r1)] [16; k + 1]%nat,
       proxy_log LOG_LEVEL_INFO
         "Client '%s' supplied an incorrect password. Dropping..." w)
    else
      let '(ret, w1) := proxy_authorize_callsign w (callsign pw') in
      if negb (ret =? 1) then
        (refusal r1, pw',
         conn_after c [(hex8 (rand_nonce e), hd 0 (send_rets c)); (msg_bad_auth, r1)] [16; k + 1]%nat,
         proxy_log LOG_LEVEL_INFO
           "Client '%s' is not authorized to use this proxy. Dropping..."
           w1)
      else (0, pw', conn_after c [(hex8 (rand_nonce e), hd 0 (send_rets c))] [16; k + 1]%nat, w1).
Proof.
  intros Hfind Hk Hlen. unfold proxy_worker_authorize, expected_response.
  cbv beta iota zeta delta [get_nonce].
  rewrite (proj2 (Z.ltb_ge _ _) Hrand).
  destruct (get_password_response _ _ _ _) as [r resp] eqn:Eresp.
  pose proof (fst_get_password_response md5 (heap_junk e) (rand_nonce e)
                (password (conf w))) as Hr.
  rewrite Eresp in Hr. simpl in Hr. subst r.
  change (0 <? 0) with false. cbv iota.
  unfold conn_send. cbv beta iota zeta.
  rewrite (proj2 (Z.ltb_ge _ _) Hsend).
  rewrite conn_recv_ok by done.
  cbv beta iota zeta. change (0 <? 0) with false. cbv iota.
  conn_simpl.
  rewrite find_newline_first_read, Hfind.
  rewrite (proj2 (Nat.leb_gt _ _) Hk).
  rewrite conn_recv_ok by (conn_simpl; rewrite length_drop; lia).
  cbv beta iota zeta. change (0 <? 0) with false. cbv iota.
  conn_simpl.
  rewrite nonce_str_sent.
  assert (Hcs : strcpy (callsign pw)
                  (<[k := 0]> (write_bytes (malloc_bytes (stack_junk e) 28)
                                 0 (take 16 (rx c))))
                = strcpy (callsign pw) (take k (rx c))).
  { unfold strcpy.
    rewrite cstr_terminated
      by (rewrite length_write_bytes, length_malloc_bytes; lia).
    rewrite first_read_eq by done.
    rewrite take_app_le by (rewrite length_take; lia).
    rewrite take_take. by replace (k `min` 16)%nat with k by lia. }
  rewrite Hcs.
  rewrite (response_differs_ext resp _ (rx c))
    by (intros t Ht; apply second_read_nth; done).
  rewrite send_rets_second, tail_tail_drop, drop_drop.
  unfold conn_after. cbn [foldr length].
  replace (16 + (k + 1 + 0))%nat with (16 + (k + 1))%nat by lia.
  change (drop 1 (send_rets c)) with (tail (send_rets c)).
  rewrite <- !app_assoc. cbn [app]. unfold refusal.
  destruct (response_differs _ _ _ _ _); [reflexivity|].
  destruct (proxy_authorize_callsign _ _) as [ret w1].
  destruct (negb (ret =? 1)); reflexivity.
Qed.

End Authorize.

(** C2: once the nonce has been sent, for a reply whose first newline is at
    index [k <= 10], the worker reads 16 bytes and then [k + 1] more, which
    consumes [k + 1 + 16] bytes of the client's stream; the bytes at offsets
    [k + 1 .. k + 16] of that stream are compared one by one with the
    expected response, and the password is refused exactly when one of them
    differs. *)
Theorem authorize_reads (md5 : list Z -> list Z) (e : auth_env)
    (pw : proxy_worker) (c : conn_handle) (w : world) (k : nat) :
  0 <= rand_ret e ->
  0 <= hd 0 (send_rets c) ->
  (k <= 10)%nat ->
  nth k (rx c) 0 = 10 ->
  (forall i, (i < k)%nat -> nth i (rx c) 0 <> 10) ->
  (k + 1 + 16 <= length (rx c))%nat ->
  let '(ret, pw', c', w') := proxy_worker_authorize md5 e pw c w in
  let nonce_sent := (hex8 (rand_nonce e), hd 0 (send_rets c)) in
  let bad_pw := (msg_bad_pw, nth 1 (send_rets c) 0) in
  length (hex8 (rand_nonce e)) = 8%nat
  /\ (exists more, tx c' = tx c ++ nonce_sent :: more)
  /\ recvs c' = recvs c ++ [16; k + 1]%nat
  /\ rx c' = drop (k + 1 + 16) (rx c)
  /\ ((exists j, (j < 16)%nat /\
         nth j (expected_response md5 e w) 0 <> nth (k + 1 + j) (rx c) 0)
      <-> tx c' = tx c ++ [nonce_sent; bad_pw]).
Proof.
  intros Hrand Hsend Hk Hnl Hfirst Hlen.
  assert (Hfind : find_newline (rx c) 0 11 = k)
    by (apply find_newline_found; [lia | done | done]).
  rewrite (authorize_full_reply md5 e pw c w Hrand Hsend ltac:(lia) k Hfind)
    by lia.
  cbv zeta.
  destruct (response_differs _ _ _ _ _) eqn:Ediff.
  - split; [reflexivity|].
    split; [eexists; reflexivity|].
    split; [reflexivity|].
    split; [simpl; f_equal; lia|].
    split; [reflexivity|]. intros _.
    apply response_differs_true in Ediff as (t & Ht & Hne).
    exists t. split; [exact Ht | exact Hne].
  - pose proof (proj1 (response_differs_spec _ _ _ _ _) Ediff) as Hall.
    destruct (proxy_authorize_callsign _ _) as [ret w1].
    assert (Hno : ~ exists j, (j < 16)%nat /\
                    nth j (expected_response md5 e w) 0
                    <> nth (k + 1 + j) (rx c) 0).
    { intros (j & Hj & Hne). apply Hne. apply (Hall j Hj). }
    destruct (negb (ret =? 1)).
    + split; [reflexivity|].
      split; [eexists; reflexivity|].
      split; [reflexivity|].
      split; [simpl; f_equal; lia|].
      split; [done|]. simpl. intros Heq.
      apply app_inv_head in Heq. discriminate Heq.
    + split; [reflexivity|].
      split; [eexists; reflexivity|].
      split; [reflexivity|].
      split; [simpl; f_equal; lia|].
      split; [done|]. simpl. intros Heq.
      apply app_inv_head in Heq. discriminate Heq.
Qed.

Lemma authorize_reads_witness :
  0 <= rand_ret auth_env_ok
  /\ 0 <= hd 0 (send_rets (conn_of_reply reply_w1aw))
  /\ (4 <= 10)%nat
  /\ nth 4 (rx (conn_of_reply reply_w1aw)) 0 = 10
  /\ (forall i, (i < 4)%nat -> nth i (rx (conn_of_reply reply_w1aw)) 0 <> 10)
  /\ (4 + 1 + 16 <= length (rx (conn_of_reply reply_w1aw)))%nat
  /\ let '(ret, pw', c', w') :=
       proxy_worker_authorize MD5.md5 auth_env_ok pw_zero
         (conn_of_reply reply_w1aw) world_open in
     recvs c' = [16; 5]%nat /\ rx c' = [].
Proof.
  assert (H1 : 0 <= rand_ret auth_env_ok) by (simpl; lia).
  assert (H2 : 0 <= hd 0 (send_rets (conn_of_reply reply_w1aw)))
    by (simpl; lia).
  assert (H3 : (4 <= 10)%nat) by lia.
  assert (H4 : nth 4 (rx (conn_of_reply reply_w1aw)) 0 = 10) by reflexivity.
  assert (H5 : forall i, (i < 4)%nat ->
                 nth i (rx (conn_of_reply reply_w1aw)) 0 <> 10).
  { intros i Hi.
    destruct i as [|[|[|[|i]]]]; simpl; try discriminate. lia. }
  assert (H6 : (4 + 1 + 16 <= length (rx (conn_of_reply reply_w1aw)))%nat)
    by (simpl; lia).
  do 6 (split; [assumption|]).
  pose proof (authorize_reads MD5.md5 auth_env_ok pw_zero
                (conn_of_reply reply_w1aw) world_open 4 H1 H2 H3 H4 H5 H6)
    as H.
  destruct (proxy_worker_authorize _ _ _ _ _) as [[[ret pw'] c'] w'].
  destruct H as (_ & _ & Hrecv & Hrx & _).
  split; [exact Hrecv | exact Hrx].
Defined.

(** C5, as the code has it.  When the first 16 bytes of the reply have been
    received and none of the first 11 is a newline, the authorization fails
    with [-EINVAL]; only the nonce has been sent, no SYSTEM frame, and the
    worker's callsign is untouched.  When the first newline is at index
    [k <= 10], the callsign recorded is the C string held by the [k] bytes
    before it: those bytes up to their first NUL byte, followed by a NUL;
    when none of them is NUL these are the [k] bytes themselves. *)
Theorem authorize_callsign_recorded (md5 : list Z -> list Z) (e : auth_env)
    (pw : proxy_worker) (c : conn_handle) (w : world) :
  0 <= rand_ret e ->
  0 <= hd 0 (send_rets c) ->
  (16 <= length (rx c))%nat ->
  let '(ret, pw', c', w') := proxy_worker_authorize md5 e pw c w in
  ((forall i, (i < 11)%nat -> nth i (rx c) 0 <> 10) ->
   ret = - EINVAL
   /\ tx c' = tx c ++ [(hex8 (rand_nonce e), hd 0 (send_rets c))]
   /\ pw' = pw /\ w' = w)
  /\ (forall k, (k <= 10)%nat -> nth k (rx c) 0 = 10 ->
      (forall i, (i < k)%nat -> nth i (rx c) 0 <> 10) ->
      let name := cstr (take k (rx c)) in
      take (length name + 1) (callsign pw') = name ++ [0]
      /\ cstr (callsign pw') = name
      /\ (length name <= 10)%nat
      /\ (Forall (fun b => b <> 0) (take k (rx c)) -> name = take k (rx c))).
Proof.
  intros Hrand Hsend Hrx.
  destruct (find_newline_spec (rx c) 11 0) as (Hr & Hbefore & Hat).
  destruct (decide (11 <= find_newline (rx c) 0 11)%nat) as [Hnone|Hsome].
  - rewrite (authorize_no_newline md5 e pw c w Hrand Hsend Hrx Hnone).
    split; [done|].
    intros k Hk Hnl _. exfalso. apply (Hbefore k); [lia | done].
  - set (k0 := find_newline (rx c) 0 11) in *.
    assert (Hcall : forall pw' k, (k <= 10)%nat -> nth k (rx c) 0 = 10 ->
              (forall i, (i < k)%nat -> nth i (rx c) 0 <> 10) ->
              callsign pw' = strcpy (callsign pw) (take k0 (rx c)) ->
              let name := cstr (take k (rx c)) in
              take (length name + 1) (callsign pw') = name ++ [0]
              /\ cstr (callsign pw') = name
              /\ (length name <= 10)%nat
              /\ (Forall (fun b => b <> 0) (take k (rx c)) ->
                  name = take k (rx c))).
    { intros pw' k Hk Hnl Hfirst Hcs name.
      assert (k0 = k) as -> by (apply find_newline_found; [lia|done|done]).
      rewrite Hcs. unfold strcpy. fold name.
      split; [|split; [|split]].
      - rewrite take_app_length'; [done|].
        rewrite length_app. simpl. lia.
      - rewrite <- app_assoc. simpl. rewrite cstr_app_nul.
        apply cstr_idemp.
      - pose proof (length_cstr (take k (rx c))) as Hl.
        rewrite length_take in Hl. fold name in Hl. lia.
      - apply cstr_no_nul. }
    assert (Hnosome : ~ (forall i, (i < 11)%nat -> nth i (rx c) 0 <> 10)).
    { intros Hall. apply (Hall k0); [lia|]. apply Hat. lia. }
    destruct (decide (k0 + 17 <= length (rx c))%nat) as [Hfull|Hshort].
    + rewrite (authorize_full_reply md5 e pw c w Hrand Hsend Hrx k0 eq_refl)
        by lia.
      cbv zeta.
      destruct (response_differs _ _ _ _ _).
      * split; [done|]. intros k Hk Hnl Hfirst.
        by apply (Hcall _ k).
      * destruct (proxy_authorize_callsign _ _) as [ret w1].
        destruct (negb (ret =? 1)); (split; [done|]);
          intros k Hk Hnl Hfirst; by apply (Hcall _ k).
    + rewrite (authorize_short_reply md5 e pw c w Hrand Hsend Hrx k0 eq_refl)
        by lia.
      split; [done|]. intros k Hk Hnl Hfirst.
      by apply (Hcall _ k).
Qed.

(** C5 as stated fails for a reply whose first line holds a NUL byte: of
    the three bytes 41 00 42 before the newline only the first one is
    recorded. *)
Lemma authorize_callsign_recorded_counterexample :
  let c := conn_of_reply reply_nul in
  let '(ret, pw', c', w') :=
    proxy_worker_authorize MD5.md5 auth_env_ok pw_zero c world_open in
  nth 3 (rx c) 0 = 10
  /\ take 3 (rx c) = [65; 0; 66]
  /\ take 4 (callsign pw') = [65; 0; 0; 0]
  /\ take 4 (callsign pw') <> take 3 (rx c) ++ [0]
  /\ cstr (callsign pw') = [65].
Proof.
  vm_compute. repeat split. discriminate.
Qed.

Lemma authorize_callsign_recorded_witness :
  0 <= rand_ret auth_env_ok
  /\ 0 <= hd 0 (send_rets (conn_of_reply reply_w1aw))
  /\ (16 <= length (rx (conn_of_reply reply_w1aw)))%nat
  /\ let '(ret, pw', c', w') :=
       proxy_worker_authorize MD5.md5 auth_env_ok pw_zero
         (conn_of_reply reply_w1aw) world_open in
     cstr (callsign pw') = bytes_of_string "W1AW".
Proof.
  assert (H1 : 0 <= rand_ret auth_env_ok) by (simpl; lia).
  assert (H2 : 0 <= hd 0 (send_rets (conn_of_reply reply_w1aw)))
    by (simpl; lia).
  assert (H3 : (16 <= length (rx (conn_of_reply reply_w1aw)))%nat)
    by (simpl; lia).
  do 3 (split; [assumption|]).
  pose proof (authorize_callsign_recorded MD5.md5 auth_env_ok pw_zero
                (conn_of_reply reply_w1aw) world_open H1 H2 H3) as H.
  destruct (proxy_worker_authorize _ _ _ _ _) as [[[ret pw'] c'] w'].
  destruct H as [_ H].
  assert (H5 : forall i, (i < 4)%nat ->
                 nth i (rx (conn_of_reply reply_w1aw)) 0 <> 10).
  { intros i Hi.
    destruct i as [|[|[|[|i]]]]; simpl; try discriminate. lia. }
  destruct (H 4%nat ltac:(lia) eq_refl H5) as (_ & Hname & _).
  exact Hname.
Defined.

Example authorize_no_newline_example :
  let '(ret, pw', c', w') :=
    proxy_worker_authorize MD5.md5 auth_env_ok pw_zero
      (conn_of_reply reply_no_newline) world_open in
  ret = - EINVAL /\ map fst (tx c') = [bytes_of_string "12345678"].
Proof. vm_compute. done. Qed.

Example authorize_w1aw_example :
  let '(ret, pw', c', w') :=
    proxy_worker_authorize MD5.md5 auth_env_ok pw_zero
      (conn_of_reply reply_w1aw) world_open in
  ret = 0 /\ map fst (tx c') = [bytes_of_string "12345678"]
  /\ recvs c' = [16; 5]%nat.
Proof. vm_compute. done. Qed.

(** ** State left untouched by logging and by the authorization *)

Lemma same_state_refl w : same_state w w.
Proof. repeat split. exists []. by rewrite app_nil_r. Qed.

Lemma same_state_trans w1 w2 w3 :
  same_state w1 w2 -> same_state w2 w3 -> same_state w1 w3.
Proof.
  intros (A1 & A2 & A3 & A4 & l1 & A5) (B1 & B2 & B3 & B4 & l2 & B5).
  repeat split; try congruence.
  exists (l1 ++ l2). by rewrite B5, A5, app_assoc.
Qed.

Lemma emit_same ev w : same_state w (emit ev w).
Proof. repeat split. by exists [ev]. Qed.

Lemma emits_same evs w : same_state w (emits evs w).
Proof. repeat split. by exists evs. Qed.

Lemma proxy_log_same lvl fmt w : same_state w (proxy_log lvl fmt w).
Proof.
  unfold proxy_log. destruct (_ || _); [apply same_state_refl|apply emit_same].
Qed.

Lemma proxy_authorize_callsign_same w call :
  same_state w (snd (proxy_authorize_callsign w call)).
Proof.
  unfold proxy_authorize_callsign.
  assert (Hallowed :
            same_state w
              (snd match re_calls_allowed (priv w) with
                   | Some re =>
                       let ret := regex_is_match re call in
                       if negb (ret =? 1) then
                         (0, if ret <? 0
                             then proxy_log LOG_LEVEL_WARN
                                    "Failed to match callsign '%s' against allowing pattern (%d): %s" w
                             else w)
                       else (1, w)
                   | None => (1, w)
                   end)).
  { destruct (re_calls_allowed (priv w)) as [ra|]; cbv zeta;
      [|apply same_state_refl].
    destruct (negb _); [|apply same_state_refl].
    destruct (_ <? 0); [apply proxy_log_same | apply same_state_refl]. }
  destruct (re_calls_denied (priv w)) as [rd|]; cbv zeta; [|exact Hallowed].
  destruct (negb _); [|exact Hallowed].
  destruct (_ <? 0); [apply proxy_log_same | apply same_state_refl].
Qed.

Lemma authorize_same md5 e pw c w :
  same_state w (snd (proxy_worker_authorize md5 e pw c w)).
Proof.
  unfold proxy_worker_authorize.
  pose proof (proxy_authorize_callsign_same w) as Hcs.
  repeat case_match; simpl;
    try apply same_state_refl; try apply proxy_log_same;
    match goal with
    | H : proxy_authorize_callsign w ?call = (_, ?w1) |- _ =>
        specialize (Hcs call); rewrite H in Hcs; simpl in Hcs
    end;
    first [exact Hcs
          | eapply same_state_trans; [exact Hcs | apply proxy_log_same]].
Qed.

(** Projections of an updated state. *)

Lemma priv_emit ev w : priv (emit ev w) = priv w.
Proof. reflexivity. Qed.
Lemma heap_emit ev w : heap (emit ev w) = heap w.
Proof. reflexivity. Qed.
Lemma conf_emit ev w : conf (emit ev w) = conf w.
Proof. reflexivity. Qed.
Lemma trace_emit ev w : trace (emit ev w) = trace w ++ [ev].
Proof. reflexivity. Qed.
Lemma priv_emits evs w : priv (emits evs w) = priv w.
Proof. reflexivity. Qed.
Lemma heap_emits evs w : heap (emits evs w) = heap w.
Proof. reflexivity. Qed.
Lemma conf_emits evs w : conf (emits evs w) = conf w.
Proof. reflexivity. Qed.
Lemma trace_emits evs w : trace (emits evs w) = trace w ++ evs.
Proof. reflexivity. Qed.
Lemma priv_set_heap h w : priv (set_heap h w) = priv w.
Proof. reflexivity. Qed.
Lemma heap_set_heap h w : heap (set_heap h w) = h.
Proof. reflexivity. Qed.
Lemma conf_set_heap h w : conf (set_heap h w) = conf w.
Proof. reflexivity. Qed.
Lemma trace_set_heap h w : trace (set_heap h w) = trace w.
Proof. reflexivity. Qed.
Lemma priv_upd_priv f w : priv (upd_priv f w) = f (priv w).
Proof. reflexivity. Qed.
Lemma heap_upd_priv f w : heap (upd_priv f w) = heap w.
Proof. reflexivity. Qed.
Lemma conf_upd_priv f w : conf (upd_priv f w) = conf w.
Proof. reflexivity. Qed.
Lemma trace_upd_priv f w : trace (upd_priv f w) = trace w.
Proof. reflexivity. Qed.
Lemma priv_set_workers ws w :
  priv (set_workers ws w) = set_client_workers (Some ws) (priv w).
Proof. reflexivity. Qed.
Lemma heap_set_workers ws w : heap (set_workers ws w) = heap w.
Proof. reflexivity. Qed.
Lemma conf_set_workers ws w : conf (set_workers ws w) = conf w.
Proof. reflexivity. Qed.
Lemma trace_set_workers ws w : trace (set_workers ws w) = trace w.
Proof. reflexivity. Qed.
Lemma priv_set_slots cs w :
  priv (set_slots cs w) = set_clients (Some cs) (priv w).
Proof. reflexivity. Qed.
Lemma heap_set_slots cs w : heap (set_slots cs w) = heap w.
Proof. reflexivity. Qed.
Lemma conf_set_slots cs w : conf (set_slots cs w) = conf w.
Proof. reflexivity. Qed.
Lemma trace_set_slots cs w : trace (set_slots cs w) = trace w.
Proof. reflexivity. Qed.
Lemma workers_set_workers ws w : workers (set_workers ws w) = ws.
Proof. reflexivity. Qed.
Lemma workers_emit ev w : workers (emit ev w) = workers w.
Proof. reflexivity. Qed.
Lemma workers_emits evs w : workers (emits evs w) = workers w.
Proof. reflexivity. Qed.
Lemma workers_set_heap h w : workers (set_heap h w) = workers w.
Proof. reflexivity. Qed.
Lemma workers_set_slots cs w : workers (set_slots cs w) = workers w.
Proof. reflexivity. Qed.
Lemma slots_set_slots cs w : slots (set_slots cs w) = cs.
Proof. reflexivity. Qed.
Lemma slots_emit ev w : slots (emit ev w) = slots w.
Proof. reflexivity. Qed.
Lemma slots_emits evs w : slots (emits evs w) = slots w.
Proof. reflexivity. Qed.
Lemma slots_set_heap h w : slots (set_heap h w) = slots w.
Proof. reflexivity. Qed.
Lemma slots_set_workers ws w : slots (set_workers ws w) = slots w.
Proof. reflexivity. Qed.
Lemma usable_set_client_workers v p :
  usable_clients (set_client_workers v p) = usable_clients p.
Proof. reflexivity. Qed.
Lemma usable_set_clients v p :
  usable_clients (set_clients v p) = usable_clients p.
Proof. reflexivity. Qed.
Lemma num_set_client_workers v p :
  num_clients (set_client_workers v p) = num_clients p.
Proof. reflexivity. Qed.
Lemma num_set_clients v p : num_clients (set_clients v p) = num_clients p.
Proof. reflexivity. Qed.

Lemma conf_set_conf v w : conf (set_conf v w) = v.
Proof. reflexivity. Qed.
Lemma priv_set_conf v w : priv (set_conf v w) = priv w.
Proof. reflexivity. Qed.
Lemma heap_set_conf v w : heap (set_conf v w) = heap w.
Proof. reflexivity. Qed.
Lemma alloc_set_conf v w : priv_alloc (set_conf v w) = priv_alloc w.
Proof. reflexivity. Qed.
Lemma priv_set_trace v w : priv (set_trace v w) = priv w.
Proof. reflexivity. Qed.
Lemma heap_set_trace v w : heap (set_trace v w) = heap w.
Proof. reflexivity. Qed.
Lemma conf_set_trace v w : conf (set_trace v w) = conf w.
Proof. reflexivity. Qed.
Lemma trace_set_trace v w : trace (set_trace v w) = v.
Proof. reflexivity. Qed.
Lemma workers_set_trace v w : workers (set_trace v w) = workers w.
Proof. reflexivity. Qed.
Lemma alloc_emit ev w : priv_alloc (emit ev w) = priv_alloc w.
Proof. reflexivity. Qed.
Lemma alloc_emits evs w : priv_alloc (emits evs w) = priv_alloc w.
Proof. reflexivity. Qed.
Lemma alloc_set_heap h w : priv_alloc (set_heap h w) = priv_alloc w.
Proof. reflexivity. Qed.
Lemma alloc_upd_priv f w : priv_alloc (upd_priv f w) = priv_alloc w.
Proof. reflexivity. Qed.
Lemma alloc_set_workers ws w : priv_alloc (set_workers ws w) = priv_alloc w.
Proof. reflexivity. Qed.
Lemma alloc_set_slots cs w : priv_alloc (set_slots cs w) = priv_alloc w.
Proof. reflexivity. Qed.
Lemma alloc_set_trace v w : priv_alloc (set_trace v w) = priv_alloc w.
Proof. reflexivity. Qed.
Lemma log_level_set_client_workers v p :
  log_level (set_client_workers v p) = log_level p.
Proof. reflexivity. Qed.
Lemma log_level_set_clients v p : log_level (set_clients v p) = log_level p.
Proof. reflexivity. Qed.
Lemma alloc_proxy_log lvl fmt w :
  priv_alloc (proxy_log lvl fmt w) = priv_alloc w.
Proof. apply proxy_log_same. Qed.

Lemma usable_set_re_calls_allowed v p : usable_clients (set_re_calls_allowed v p) = usable_clients p.
Proof. reflexivity. Qed.
Lemma num_set_re_calls_allowed v p : num_clients (set_re_calls_allowed v p) = num_clients p.
Proof. reflexivity. Qed.
Lemma usable_set_re_calls_denied v p : usable_clients (set_re_calls_denied v p) = usable_clients p.
Proof. reflexivity. Qed.
Lemma num_set_re_calls_denied v p : num_clients (set_re_calls_denied v p) = num_clients p.
Proof. reflexivity. Qed.
Lemma usable_set_log_level v p : usable_clients (set_log_level v p) = usable_clients p.
Proof. reflexivity. Qed.
Lemma num_set_log_level v p : num_clients (set_log_level v p) = num_clients p.
Proof. reflexivity. Qed.
Lemma usable_set_port_str v p : usable_clients (set_port_str v p) = usable_clients p.
Proof. reflexivity. Qed.
Lemma num_set_port_str v p : num_clients (set_port_str v p) = num_clients p.
Proof. reflexivity. Qed.
Lemma usable_set_usable_clients v p :
  usable_clients (set_usable_clients v p) = v.
Proof. reflexivity. Qed.
Lemma num_set_usable_clients v p :
  num_clients (set_usable_clients v p) = num_clients p.
Proof. reflexivity. Qed.
Lemma usable_set_num_clients v p :
  usable_clients (set_num_clients v p) = usable_clients p.
Proof. reflexivity. Qed.
Lemma num_set_num_clients v p : num_clients (set_num_clients v p) = v.
Proof. reflexivity. Qed.
Lemma alloc_set_priv_alloc v w : priv_alloc (set_priv_alloc v w) = v.
Proof. reflexivity. Qed.
Lemma priv_set_priv_alloc v w : priv (set_priv_alloc v w) = priv w.
Proof. reflexivity. Qed.
Lemma priv_set_priv v w : priv (set_priv v w) = v.
Proof. reflexivity. Qed.
Lemma alloc_set_priv v w : priv_alloc (set_priv v w) = priv_alloc w.
Proof. reflexivity. Qed.

Lemma priv_update_registration w :
  priv (proxy_update_registration w) = priv w.
Proof. reflexivity. Qed.
Lemma alloc_update_registration w :
  priv_alloc (proxy_update_registration w) = priv_alloc w.
Proof. reflexivity. Qed.
Lemma heap_update_registration w :
  heap (proxy_update_registration w) = heap w.
Proof. reflexivity. Qed.
Lemma conf_update_registration w :
  conf (proxy_update_registration w) = conf w.
Proof. reflexivity. Qed.

Lemma priv_proxy_log lvl fmt w : priv (proxy_log lvl fmt w) = priv w.
Proof. apply proxy_log_same. Qed.

Lemma heap_proxy_log lvl fmt w : heap (proxy_log lvl fmt w) = heap w.
Proof. apply proxy_log_same. Qed.

Lemma conf_proxy_log lvl fmt w : conf (proxy_log lvl fmt w) = conf w.
Proof. apply proxy_log_same. Qed.

Lemma workers_proxy_log lvl fmt w : workers (proxy_log lvl fmt w) = workers w.
Proof. unfold workers. by rewrite priv_proxy_log. Qed.

Lemma slots_proxy_log lvl fmt w : slots (proxy_log lvl fmt w) = slots w.
Proof. unfold slots. by rewrite priv_proxy_log. Qed.

Create Rewrite HintDb world.

#[local] Hint Rewrite priv_emit heap_emit conf_emit trace_emit priv_emits
  heap_emits conf_emits trace_emits priv_set_heap heap_set_heap conf_set_heap
  trace_set_heap priv_upd_priv heap_upd_priv conf_upd_priv trace_upd_priv
  priv_set_workers heap_set_workers conf_set_workers trace_set_workers
  priv_set_slots heap_set_slots conf_set_slots trace_set_slots
  workers_set_workers workers_emit workers_emits workers_set_heap
  workers_set_slots slots_set_slots slots_emit slots_emits slots_set_heap
  slots_set_workers usable_set_client_workers usable_set_clients
  num_set_client_workers num_set_clients priv_proxy_log heap_proxy_log
  conf_proxy_log workers_proxy_log slots_proxy_log priv_set_trace
  heap_set_trace conf_set_trace trace_set_trace workers_set_trace alloc_emit
  alloc_emits alloc_set_heap alloc_upd_priv alloc_set_workers alloc_set_slots
  alloc_set_trace log_level_set_client_workers log_level_set_clients
  alloc_proxy_log conf_set_conf priv_set_conf heap_set_conf alloc_set_conf
  usable_set_re_calls_allowed num_set_re_calls_allowed usable_set_re_calls_denied num_set_re_calls_denied usable_set_log_level num_set_log_level
  usable_set_port_str num_set_port_str usable_set_usable_clients num_set_usable_clients usable_set_num_clients num_set_num_clients
  alloc_set_priv_alloc priv_set_priv_alloc priv_set_priv alloc_set_priv
  priv_update_registration alloc_update_registration heap_update_registration
  conf_update_registration : world.

Lemma proxy_log_enabled lvl fmt w :
  priv_alloc w = true -> level_code lvl <= log_level (priv w) ->
  proxy_log lvl fmt w = emit (EvLog lvl fmt) w.
Proof.
  intros Ha Hl. unfold proxy_log.
  by rewrite Ha, (proj2 (Z.ltb_ge _ _) Hl).
Qed.

Lemma trace_proxy_log ev lvl fmt w :
  In ev (trace w) -> In ev (trace (proxy_log lvl fmt w)).
Proof.
  intros H. destruct (proxy_log_same lvl fmt w) as (_ & _ & _ & _ & l & ->).
  apply in_or_app. by left.
Qed.

Lemma workers_same w w' : same_state w w' -> workers w' = workers w.
Proof. intros (_ & _ & H & _). unfold workers. by rewrite H. Qed.

(** ** Refused clients *)

(** A failed authorization makes the worker close and free the client
    connection and go back to waiting. *)
Lemma worker_func_refused md5 e i w pw cptr c :
  workers w !! i = Some pw ->
  conn_client pw = Some cptr ->
  heap w !! cptr = Some c ->
  let '(ret, pw', c', w1) :=
    proxy_worker_authorize md5 (auth e) pw c (authorize_world i w) in
  ret < 0 ->
  exists w',
    proxy_worker_func md5 e i w = Some w'
    /\ workers w' !! i = Some (set_conn_client None pw')
    /\ heap w' !! cptr = None
    /\ In (EvCall "conn_free" cptr) (trace w')
    /\ usable_clients (priv w') = usable_clients (priv w)
    /\ num_clients (priv w') = num_clients (priv w).
Proof.
  intros Hw Hc Hh.
  pose proof (authorize_same md5 (auth e) pw c (authorize_world i w)) as Hs.
  destruct (proxy_worker_authorize _ _ _ _ _) as [[[ret pw'] c'] w1] eqn:E.
  intros Hret. simpl in Hs.
  unfold proxy_worker_func. rewrite Hw, Hc.
  change (heap (emit _ (emit _ w)) !! cptr) with (heap w !! cptr).
  rewrite Hh.
  change (proxy_log LOG_LEVEL_DEBUG
            "New connection - beginning authorization procedure"
            (emit (EvMutexUnlockShared (MxWorker i))
               (emit (EvMutexLockShared (MxWorker i)) w)))
    with (authorize_world i w).
  rewrite E. rewrite (proj2 (Z.ltb_lt _ _) Hret).
  eexists. split; [reflexivity|].
  assert (Hw1 : workers w1 = workers w).
  { rewrite (workers_same _ _ Hs). unfold authorize_world.
    by rewrite workers_proxy_log. }
  assert (Hp1 : priv w1 = priv w).
  { destruct Hs as (_ & _ & -> & _). unfold authorize_world.
    by rewrite priv_proxy_log. }
  assert (Hi : (i < length (workers w))%nat) by (by apply lookup_lt_Some in Hw).
  unfold worker_release.
  destruct (lost_connection ret); autorewrite with world;
    rewrite Hw1, Hp1, list_lookup_alter_eq, list_lookup_insert_eq by done;
    (split; [done|]); (split; [apply lookup_delete_eq|]);
    (split; [|done]); rewrite !in_app_iff; simpl; tauto.
Qed.

(** C4: for a reply whose first newline is at index [k <= 10] and which has
    been read in full, a response that differs from the expected one makes
    the authorizer send the frame 07 00 00 00 00 01 00 00 00 01, and a
    matching response with a callsign that is not authorized makes it send
    07 00 00 00 00 01 00 00 00 02; the authorization then fails, with
    [-EACCES] when the send succeeded and with the error of the send
    otherwise.  After the failure the worker closes and frees the client
    connection and its [conn_client] is NULL again. *)
Theorem authorization_refused (md5 : list Z -> list Z) (e : worker_env)
    (i : nat) (w : world) (pw : proxy_worker) (cptr : nat) (c : conn_handle)
    (k : nat) :
  workers w !! i = Some pw ->
  conn_client pw = Some cptr ->
  heap w !! cptr = Some c ->
  0 <= rand_ret (auth e) ->
  0 <= hd 0 (send_rets c) ->
  (k <= 10)%nat ->
  nth k (rx c) 0 = 10 ->
  (forall j, (j < k)%nat -> nth j (rx c) 0 <> 10) ->
  (k + 1 + 16 <= length (rx c))%nat ->
  let w0 := authorize_world i w in
  let '(ret, pw', c', w1) := proxy_worker_authorize md5 (auth e) pw c w0 in
  let nonce_sent := (hex8 (rand_nonce (auth e)), hd 0 (send_rets c)) in
  let r := nth 1 (send_rets c) 0 in
  let differs :=
    exists j, (j < 16)%nat /\
      nth j (expected_response md5 (auth e) w0) 0
      <> nth (k + 1 + j) (rx c) 0 in
  (differs ->
   tx c' = tx c ++ [nonce_sent; ([7; 0; 0; 0; 0; 1; 0; 0; 0; 1], r)]
   /\ ret = refusal r)
  /\ (~ differs ->
      fst (proxy_authorize_callsign w0 (callsign pw')) <> 1 ->
      tx c' = tx c ++ [nonce_sent; ([7; 0; 0; 0; 0; 1; 0; 0; 0; 2], r)]
      /\ ret = refusal r)
  /\ refusal r < 0
  /\ (0 <= r -> refusal r = - EACCES)
  /\ (r < 0 -> refusal r = r)
  /\ (ret < 0 ->
      exists w',
        proxy_worker_func md5 e i w = Some w'
        /\ (exists pwi, workers w' !! i = Some pwi /\ conn_client pwi = None)
        /\ heap w' !! cptr = None
        /\ In (EvCall "conn_free" cptr) (trace w')).
Proof.
  intros Hw Hc Hh Hrand Hsend Hk Hnl Hfirst Hlen w0.
  pose proof (worker_func_refused md5 e i w pw cptr c Hw Hc Hh) as HB.
  fold w0 in HB.
  assert (Hfind : find_newline (rx c) 0 11 = k)
    by (apply find_newline_found; [lia | done | done]).
  pose proof (authorize_full_reply md5 (auth e) pw c w0 Hrand Hsend
                ltac:(lia) k Hfind ltac:(lia) ltac:(lia)) as Heq.
  cbv zeta in Heq.
  destruct (proxy_worker_authorize _ _ _ _ _) as [[[ret pw'] c'] w1].
  cbv zeta.
  assert (Hrefusal : forall r, refusal r < 0
                               /\ (0 <= r -> refusal r = - EACCES)
                               /\ (r < 0 -> refusal r = r)).
  { intros r. unfold refusal, EACCES.
    destruct (r <? 0) eqn:Er; [apply Z.ltb_lt in Er|apply Z.ltb_ge in Er];
      repeat split; try lia. }
  assert (Hlast : ret < 0 ->
            exists w',
              proxy_worker_func md5 e i w = Some w'
              /\ (exists pwi, workers w' !! i = Some pwi
                              /\ conn_client pwi = None)
              /\ heap w' !! cptr = None
              /\ In (EvCall "conn_free" cptr) (trace w')).
  { intros Hret. destruct (HB Hret) as (w' & H1 & H2 & H3 & H4 & _).
    exists w'. repeat split; try done. by eexists. }
  destruct (response_differs _ _ _ _ _) eqn:Ediff.
  - injection Heq as -> -> -> ->.
    split; [done|].
    split.
    { intros Hno _. exfalso. apply Hno.
      apply response_differs_true in Ediff as (t & Ht & Hne). by exists t. }
    destruct (Hrefusal (nth 1 (send_rets c) 0)) as (R1 & R2 & R3).
    repeat split; done.
  - assert (Hno : ~ exists j, (j < 16)%nat /\
                    nth j (expected_response md5 (auth e) w0) 0
                    <> nth (k + 1 + j) (rx c) 0).
    { intros (j & Hj & Hne). apply Hne.
      apply (proj1 (response_differs_spec _ _ _ _ _) Ediff j Hj). }
    match type of Heq with
    | context [proxy_authorize_callsign ?a ?b] =>
        destruct (proxy_authorize_callsign a b) as [ra wa] eqn:Eauth
    end.
    destruct (ra =? 1) eqn:Era; simpl in Heq;
      injection Heq as -> -> -> ->;
      destruct (Hrefusal (nth 1 (send_rets c) 0)) as (R1 & R2 & R3).
    + apply Z.eqb_eq in Era.
      split; [done|]. split; [|repeat split; done].
      intros _ Hna. exfalso. apply Hna. by rewrite Eauth.
    + split; [done|]. split; [|repeat split; done].
      intros _ _. done.
Qed.

Lemma authorization_refused_witness :
  workers (world_client reply_wrong) !! 0%nat
  = Some (mk_pw true (Some 7%nat) (replicate 12 0))
  /\ heap (world_client reply_wrong) !! 7%nat
     = Some (conn_of_reply reply_wrong)
  /\ 0 <= rand_ret (auth worker_env_ok)
  /\ 0 <= hd 0 (send_rets (conn_of_reply reply_wrong))
  /\ nth 4 (rx (conn_of_reply reply_wrong)) 0 = 10
  /\ (forall j, (j < 4)%nat -> nth j (rx (conn_of_reply reply_wrong)) 0 <> 10)
  /\ (4 + 1 + 16 <= length (rx (conn_of_reply reply_wrong)))%nat
  /\ exists w',
       proxy_worker_func MD5.md5 worker_env_ok 0 (world_client reply_wrong)
       = Some w'
       /\ heap w' !! 7%nat = None.
Proof.
  assert (H1 : workers (world_client reply_wrong) !! 0%nat
               = Some (mk_pw true (Some 7%nat) (replicate 12 0)))
    by reflexivity.
  assert (H2 : heap (world_client reply_wrong) !! 7%nat
               = Some (conn_of_reply reply_wrong)) by reflexivity.
  assert (H3 : 0 <= rand_ret (auth worker_env_ok)) by (simpl; lia).
  assert (H4 : 0 <= hd 0 (send_rets (conn_of_reply reply_wrong)))
    by (simpl; lia).
  assert (H5 : nth 4 (rx (conn_of_reply reply_wrong)) 0 = 10) by reflexivity.
  assert (H6 : forall j, (j < 4)%nat ->
                 nth j (rx (conn_of_reply reply_wrong)) 0 <> 10).
  { intros j Hj.
    destruct j as [|[|[|[|j]]]]; simpl; try discriminate. lia. }
  assert (H7 : (4 + 1 + 16 <= length (rx (conn_of_reply reply_wrong)))%nat)
    by (simpl; lia).
  do 7 (split; [assumption|]).
  pose proof (authorization_refused MD5.md5 worker_env_ok 0
                (world_client reply_wrong) _ 7 _ 4 H1 eq_refl H2 H3 H4
                ltac:(lia) H5 H6 H7) as H.
  cbv zeta in H.
  destruct (proxy_worker_authorize _ _ _ _ _) as [[[ret pw'] c'] w1] eqn:E.
  destruct H as (_ & _ & _ & _ & _ & H).
  assert (Hret : ret < 0).
  { vm_compute in E. injection E as <- _ _ _. reflexivity. }
  destruct (H Hret) as (w' & Hrun & _ & Hheap & _).
  exists w'. split; [exact Hrun | exact Hheap].
Defined.

(** ** The acceptor *)

(** C6 at the input on which the code departs from it: the proxy has been
    opened but not started, so [usable_clients] is 0 and no worker is probed.
    A client that connects is accepted, and [proxy_process] returns 0 without
    logging at INFO and without closing or freeing the connection, which
    stays open in memory. *)
Theorem proxy_process_no_usable_clients :
  let '(ret, w') := proxy_process process_env_ok world_open in
  usable_clients (priv world_open) = 0
  /\ ret = 0
  /\ heap world_open = ∅
  /\ heap w' = {[ fresh (dom (heap world_open)) := conn_of_reply reply_w1aw ]}
  /\ is_open (conn_of_reply reply_w1aw) = true
  /\ workers w' = workers world_open
  /\ trace w'
     = [EvLog LOG_LEVEL_DEBUG "Waiting for a client...";
        EvCall "conn_accept" (fresh (dom (heap world_open)));
        EvLog LOG_LEVEL_DEBUG "Incoming connection from %s.";
        EvMutexLockShared MxUsableClients;
        EvMutexUnlockShared MxUsableClients].
Proof.
  unfold proxy_process, process_env_ok, world_open.
  cbn -[fresh dom]. repeat split.
Qed.

Lemma probe_loop_busy wake conn : forall m i ret ws tr n,
  (forall j, (i <= j < i + m)%nat ->
     exists pw cl, ws !! j = Some pw /\ conn_client pw = Some cl) ->
  probe_loop wake conn (m + n) i ret ws tr
  = probe_loop wake conn n (i + m)
      (match m with O => ret | S _ => - EBUSY end) ws
      (tr ++ busy_probes i m).
Proof.
  induction m as [|m IH]; intros i ret ws tr n Hbusy.
  - simpl. by rewrite Nat.add_0_r, app_nil_r.
  - destruct (Hbusy i ltac:(lia)) as (pw & cl & Hpw & Hcl).
    cbn [Nat.add probe_loop]. rewrite Hpw.
    rewrite (proxy_worker_accept_busy _ _ _ _ _ _ Hcl).
    rewrite list_insert_id by done.
    change (negb (- EBUSY =? - EBUSY)) with false. cbv iota.
    rewrite IH by (intros j Hj; apply Hbusy; lia).
    replace (i + S m)%nat with (S i + m)%nat by lia.
    unfold busy_probes. cbn [seq flat_map].
    rewrite <- !app_assoc. cbn [app]. by destruct m.
Qed.

Lemma probe_loop_all_busy wake conn m i ret ws tr :
  (forall j, (i <= j < i + m)%nat ->
     exists pw cl, ws !! j = Some pw /\ conn_client pw = Some cl) ->
  probe_loop wake conn m i ret ws tr
  = (match m with O => ret | S _ => - EBUSY end, ws, tr ++ busy_probes i m).
Proof.
  intros H. rewrite <- (Nat.add_0_r m) at 1.
  by rewrite probe_loop_busy.
Qed.

(** With at least one usable worker and every usable worker busy, the
    acceptor probes the workers in order, logs at INFO (when that level is
    enabled), closes and frees the new connection and returns 0. *)
Lemma proxy_process_all_busy (e : process_env) (w : world) (n : nat) :
  malloc_conn_ok e = true ->
  0 <= conn_init_ret e ->
  0 <= conn_accept_ret e ->
  usable_clients (priv w) = Z.of_nat (S n) ->
  (forall j, (j < S n)%nat ->
     exists pw cl, workers w !! j = Some pw /\ conn_client pw = Some cl) ->
  priv_alloc w = true ->
  3 <= log_level (priv w) ->
  let conn := fresh (dom (heap w)) in
  let '(ret, w') := proxy_process e w in
  ret = 0
  /\ heap w' !! conn = None
  /\ workers w' = workers w
  /\ (exists before after,
        trace w'
        = before ++ busy_probes 0 (S n) ++ [EvMutexUnlockShared MxUsableClients]
            ++ [EvLog LOG_LEVEL_INFO
                  "Dropping client because there are no available slots."]
            ++ [EvCall "conn_free" conn] ++ after).
Proof.
  intros Hm Hi Ha Hu Hbusy Halloc Hlvl conn.
  unfold proxy_process. rewrite Hm. cbv iota beta zeta. simpl negb. cbv iota.
  rewrite (proj2 (Z.ltb_ge _ _) Hi), (proj2 (Z.ltb_ge _ _) Ha).
  autorewrite with world. rewrite Hu, Nat2Z.id.
  fold conn.
  rewrite probe_loop_all_busy by (intros j Hj; apply Hbusy; lia).
  destruct (client_workers (priv w)) as [ws|] eqn:Ews.
  2:{ destruct (Hbusy 0%nat ltac:(lia)) as (pw & cl & Hpw & _).
      unfold workers in Hpw. rewrite Ews in Hpw. discriminate. }
  change (- EBUSY =? - EBUSY) with true. cbv iota.
  unfold conn_process_exit.
  assert (Hws : workers w = ws) by (unfold workers; by rewrite Ews).
  split; [done|].
  split; [autorewrite with world; apply lookup_delete_eq|].
  split; [by autorewrite with world|].
  rewrite (proxy_log_enabled LOG_LEVEL_INFO)
    by (autorewrite with world; done).
  autorewrite with world.
  match goal with
  | |- exists before after,
         (((((?T ++ ?a) ++ _) ++ _) ++ _) ++ _) ++ ?f = _ =>
      exists (T ++ a), f
  end.
  by rewrite <- !app_assoc.
Qed.

(** ** Validation of the configuration *)

(** C7, as the code has it: once the file has been parsed, a configuration
    with a non-empty list of additional external addresses and an external
    address that is unset or "0.0.0.0" makes [proxy_load_conf] fail with
    [-EINVAL]; the configuration stays in the handle. *)
Theorem proxy_load_conf_rejects (e : load_env) (w : world)
    (adds : list string) :
  0 <= parse_ret e ->
  bind_addr_ext_add (parsed_conf e) = Some adds ->
  adds <> [] ->
  bind_addr_ext (parsed_conf e) = None
  \/ bind_addr_ext (parsed_conf e) = Some "0.0.0.0"%string ->
  fst (proxy_load_conf e w) = - EINVAL
  /\ conf (snd (proxy_load_conf e w)) = parsed_conf e.
Proof.
  intros Hparse Hadd _ Hext. unfold proxy_load_conf.
  rewrite (proj2 (Z.ltb_ge _ _) Hparse).
  autorewrite with world. cbn [conf set_conf].
  rewrite Hadd.
  destruct Hext as [-> | ->]; rewrite ?String.eqb_refl; cbn [fst snd];
    split; try reflexivity; by autorewrite with world.
Qed.

Lemma proxy_load_conf_rejects_witness :
  0 <= parse_ret (load_env_of conf_no_ext)
  /\ bind_addr_ext_add (parsed_conf (load_env_of conf_no_ext))
     = Some ["10.0.0.2"%string]
  /\ ["10.0.0.2"%string] <> []
  /\ (bind_addr_ext (parsed_conf (load_env_of conf_no_ext)) = None
      \/ bind_addr_ext (parsed_conf (load_env_of conf_no_ext))
         = Some "0.0.0.0"%string)
  /\ fst (proxy_load_conf (load_env_of conf_no_ext) world_init) = - EINVAL
  /\ conf (snd (proxy_load_conf (load_env_of conf_no_ext) world_init))
     = conf_no_ext.
Proof.
  assert (H1 : 0 <= parse_ret (load_env_of conf_no_ext)) by (simpl; lia).
  assert (H3 : ["10.0.0.2"%string] <> []) by discriminate.
  split; [exact H1|]. split; [reflexivity|]. split; [exact H3|].
  split; [by left|].
  exact (proxy_load_conf_rejects (load_env_of conf_no_ext) world_init
           ["10.0.0.2"%string] H1 eq_refl H3 (or_introl eq_refl)).
Defined.

(** C7 as stated fails for [proxy_open]: the configuration that
    [proxy_load_conf] has just rejected is still in the handle, and
    [proxy_open] opens the proxy with it. *)
Lemma proxy_open_counterexample :
  let '(r1, w1) := proxy_load_conf (load_env_of conf_no_ext) world_init in
  let '(r2, w2) := proxy_open open_env_ok w1 in
  bind_addr_ext (conf w1) = None
  /\ bind_addr_ext_add (conf w1) = Some ["10.0.0.2"%string]
  /\ r1 = - EINVAL
  /\ r2 = 0
  /\ map source_addr (slots w2) = [None; Some "10.0.0.2"%string].
Proof. vm_compute. repeat split. Qed.

(** ** The slots created by proxy_open *)

Lemma open_kept_refl w : open_kept w w.
Proof. by repeat split. Qed.

Lemma open_kept_trans w1 w2 w3 :
  open_kept w1 w2 -> open_kept w2 w3 -> open_kept w1 w3.
Proof.
  intros (A1 & A2 & A3 & A4 & A5) (B1 & B2 & B3 & B4 & B5).
  repeat split; congruence.
Qed.

Lemma same_state_open_kept w w' : same_state w w' -> open_kept w w'.
Proof.
  intros (A1 & A2 & A3 & A4 & _). unfold open_kept, slots.
  by rewrite A1, A2, A3.
Qed.

Lemma proxy_log_kept lvl fmt w : open_kept w (proxy_log lvl fmt w).
Proof. apply same_state_open_kept, proxy_log_same. Qed.

Lemma emit_kept ev w : open_kept w (emit ev w).
Proof. apply same_state_open_kept, emit_same. Qed.

Lemma emits_kept evs w : open_kept w (emits evs w).
Proof. apply same_state_open_kept, emits_same. Qed.

Lemma map_source_addr_alter_ph (cs : list proxy_conn_handle) (i : nat) :
  map source_addr (alter set_pc_ph i cs) = map source_addr cs.
Proof.
  apply list_eq. intros j. rewrite !list_lookup_fmap.
  destruct (decide (i = j)) as [->|Hne].
  - rewrite list_lookup_alter_eq. by destruct (cs !! j).
  - by rewrite list_lookup_alter_ne.
Qed.

Lemma open_regex_allowed_kept e pat idx f1 f2 w :
  open_kept w
    (snd (open_regex e pat re_calls_allowed set_re_calls_allowed idx f1 f2 w)).
Proof.
  unfold open_regex.
  repeat case_match; simplify_eq; cbn [snd];
    repeat first
      [ apply open_kept_refl
      | apply proxy_log_kept
      | by repeat split
      | eapply open_kept_trans; [|apply proxy_log_kept] ].
Qed.

Lemma open_regex_denied_kept e pat idx f1 f2 w :
  open_kept w
    (snd (open_regex e pat re_calls_denied set_re_calls_denied idx f1 f2 w)).
Proof.
  unfold open_regex.
  repeat case_match; simplify_eq; cbn [snd];
    repeat first
      [ apply open_kept_refl
      | apply proxy_log_kept
      | by repeat split
      | eapply open_kept_trans; [|apply proxy_log_kept] ].
Qed.

Lemma open_regex_slots e pat get set idx f1 f2 w :
  (forall v p, clients (set v p) = clients p) ->
  slots (snd (open_regex e pat get set idx f1 f2 w)) = slots w.
Proof.
  intros Hset. unfold open_regex, slots.
  repeat case_match; simplify_eq; cbn [snd];
    autorewrite with world; by rewrite ?Hset.
Qed.

Lemma conn_init_loop_kept e : forall n i w,
  clients (priv w) <> None ->
  open_kept w (snd (conn_init_loop e i n w)).
Proof.
  induction n as [|n IH]; intros i w Hc; cbn [conn_init_loop].
  - apply open_kept_refl.
  - assert (Hstep : open_kept w
              (emit (EvCall "proxy_conn_init" i)
                 (set_slots (alter set_pc_ph i (slots w)) w))).
    { repeat split. autorewrite with world. apply map_source_addr_alter_ph. }
    destruct (proxy_conn_init_ret e i <? 0).
    + cbn [snd]. eapply open_kept_trans; [exact Hstep|].
      eapply open_kept_trans; [apply proxy_log_kept | apply emits_kept].
    + eapply open_kept_trans; [exact Hstep|]. by apply IH.
Qed.

Lemma worker_init_loop_kept e : forall n i w,
  open_kept w (snd (worker_init_loop e i n w)).
Proof.
  induction n as [|n IH]; intros i w; cbn [worker_init_loop].
  - apply open_kept_refl.
  - assert (Hstep : open_kept w
              (snd (proxy_worker_init e i
                      (set_workers (alter set_pw_ph i (workers w)) w)))).
    { unfold proxy_worker_init.
      repeat case_match; simplify_eq; by repeat split. }
    destruct (proxy_worker_init _ _ _) as [ret w1]. cbn [snd] in Hstep.
    destruct (ret <? 0).
    + cbn [snd]. eapply open_kept_trans; [exact Hstep|].
      eapply open_kept_trans; [apply proxy_log_kept | apply emits_kept].
    + eapply open_kept_trans; [exact Hstep|]. apply IH.
Qed.

Lemma assign_add_addrs_lookup (c : proxy_conf) : forall n i cs j,
  assign_add_addrs c i n cs !! j
  = if decide (i <= j < i + n)%nat
    then set_source_addr (bind_addr_ext_add_at c (j - 1)) <$> cs !! j
    else cs !! j.
Proof.
  induction n as [|n IH]; intros i cs j; cbn [assign_add_addrs].
  - case_decide; [lia | done].
  - rewrite IH. destruct (decide (j = i)) as [->|Hne].
    + rewrite decide_False by lia. rewrite decide_True by lia.
      apply list_lookup_alter_eq.
    + rewrite list_lookup_alter_ne by done.
      repeat case_decide; try lia; done.
Qed.

Lemma length_assign_add_addrs (c : proxy_conf) : forall n i cs,
  length (assign_add_addrs c i n cs) = length cs.
Proof.
  induction n as [|n IH]; intros i cs; cbn [assign_add_addrs]; [done|].
  by rewrite IH, length_alter.
Qed.

(** The addresses given to the slots by [proxy_open]. *)
Lemma assigned_addrs (c : proxy_conf) :
  map source_addr
    (assign_add_addrs c 1 (length (additional_addrs c))
       (alter (set_source_addr (bind_addr_ext c)) 0%nat
          (replicate (S (length (additional_addrs c))) pc_zero)))
  = bind_addr_ext c :: map Some (additional_addrs c).
Proof.
  apply list_eq. intros j. rewrite list_lookup_fmap, assign_add_addrs_lookup.
  destruct j as [|j].
  - by rewrite decide_False by lia.
  - change ((bind_addr_ext c :: map Some (additional_addrs c)) !! S j)
      with ((Some <$> additional_addrs c) !! j).
    rewrite list_lookup_fmap, list_lookup_alter_ne by lia.
    destruct (decide (j < length (additional_addrs c))%nat) as [Hlt|Hge].
    + rewrite decide_True by lia.
      rewrite lookup_replicate_2 by lia. cbn [fmap option_fmap option_map].
      destruct (lookup_lt_is_Some_2 _ _ Hlt) as [a Ha].
      rewrite Ha. cbn. f_equal.
      unfold bind_addr_ext_add_at, additional_addrs in *.
      rewrite Nat.sub_0_r.
      destruct (bind_addr_ext_add c); [done | discriminate].
    + rewrite decide_False by lia.
      rewrite (lookup_ge_None_2 (replicate _ _))
        by (rewrite length_replicate; lia).
      by rewrite lookup_ge_None_2 by lia.
Qed.

Lemma proxy_open_exit_result ret w :
  let '(r, w') := proxy_open_exit ret w in
  r = ret /\ conf w' = conf w /\ priv_alloc w' = priv_alloc w
  /\ usable_clients (priv w') = usable_clients (priv w)
  /\ num_clients (priv w') = 0.
Proof.
  unfold proxy_open_exit.
  destruct (re_calls_allowed (priv w)); by repeat split.
Qed.

Lemma proxy_open_exit_late_result ret w :
  let '(r, w') := proxy_open_exit_late ret w in
  r = ret /\ conf w' = conf w /\ priv_alloc w' = priv_alloc w
  /\ usable_clients (priv w') = usable_clients (priv w)
  /\ num_clients (priv w') = 0.
Proof.
  unfold proxy_open_exit_late.
  pose proof (proxy_open_exit_result ret
                (emits (calls_up "proxy_conn_free" (num_clients (priv w))) w))
    as H.
  destruct (proxy_open_exit _ _) as [r w']. exact H.
Qed.

Lemma proxy_open_exit_later_result ret w :
  let '(r, w') := proxy_open_exit_later ret w in
  r = ret /\ conf w' = conf w /\ priv_alloc w' = priv_alloc w
  /\ usable_clients (priv w') = usable_clients (priv w)
  /\ num_clients (priv w') = 0.
Proof.
  unfold proxy_open_exit_later.
  pose proof (proxy_open_exit_late_result ret
                (emits (calls_up "proxy_worker_free" (num_clients (priv w))) w))
    as H.
  destruct (proxy_open_exit_late _ _) as [r w']. exact H.
Qed.

Lemma open_regex_fail e pat get set idx f1 f2 w ret w' :
  open_regex e pat get set idx f1 f2 w = (Some ret, w') -> ret < 0.
Proof.
  unfold open_regex, ENOMEM. intros H.
  repeat case_match; simplify_eq; try lia;
    match goal with H : (_ <? 0) = true |- _ => by apply Z.ltb_lt in H end.
Qed.

Lemma conn_init_loop_fail e : forall n i w ret w',
  conn_init_loop e i n w = (Some ret, w') -> ret < 0.
Proof.
  induction n as [|n IH]; intros i w ret w'; cbn [conn_init_loop];
    [discriminate|].
  destruct (proxy_conn_init_ret e i <? 0) eqn:E.
  - intros [= <- _]. by apply Z.ltb_lt in E.
  - apply IH.
Qed.

Lemma worker_init_loop_fail e : forall n i w ret w',
  worker_init_loop e i n w = (Some ret, w') -> ret < 0.
Proof.
  induction n as [|n IH]; intros i w ret w'; cbn [worker_init_loop];
    [discriminate|].
  destruct (proxy_worker_init _ _ _) as [r w1].
  destruct (r <? 0) eqn:E.
  - intros [= <- _]. by apply Z.ltb_lt in E.
  - apply IH.
Qed.

(** What [proxy_open] leaves behind: on success (return value 0) one slot
    per external address, in the order of the configuration; on failure a
    negative return value.  The configuration and [usable_clients] are not
    touched. *)
Lemma proxy_open_result (e : open_env) (w : world) :
  let K := length (additional_addrs (conf w)) in
  let '(ret, w') := proxy_open e w in
  conf w' = conf w /\ priv_alloc w' = priv_alloc w
  /\ usable_clients (priv w') = usable_clients (priv w)
  /\ ((ret = 0
       /\ num_clients (priv w') = Z.of_nat (S K)
       /\ map source_addr (slots w')
          = bind_addr_ext (conf w) :: map Some (additional_addrs (conf w)))
      \/ (ret < 0
          /\ (num_clients (priv w') = 0
              \/ num_clients (priv w') = Z.of_nat (S K)))).
Proof.
  intros K. unfold proxy_open.
  set (w1 := upd_priv (set_num_clients (1 + bind_addr_ext_add_len (conf w))) w).
  assert (Hn : num_clients (priv w1) = Z.of_nat (S K)).
  { subst w1 K. autorewrite with world. cbn [num_clients set_num_clients].
    unfold bind_addr_ext_add_len, additional_addrs.
    destruct (bind_addr_ext_add (conf w)); simpl; lia. }
  rewrite Hn, Nat2Z.id.
  destruct (malloc_clients_ok e); cbn [negb].
  2:{ unfold ENOMEM. repeat split; try done. right. split; [lia|]. by right. }
  set (w2 := set_slots (replicate (S K) pc_zero) w1).
  destruct (malloc_workers_ok e); cbn [negb].
  2:{ pose proof (proxy_open_exit_result (- ENOMEM) w2) as H.
      destruct (proxy_open_exit _ _) as [r w'].
      destruct H as (-> & H1 & H2 & H3 & H4). unfold ENOMEM.
      repeat split; try done. right. split; [lia|]. by left. }
  set (w3 := set_workers (replicate (S K) pw_zero) w2).
  destruct (log_open_ret e <? 0) eqn:Elog.
  { apply Z.ltb_lt in Elog.
    pose proof (proxy_open_exit_result (log_open_ret e) w3) as H.
    destruct (proxy_open_exit _ _) as [r w'].
    destruct H as (-> & H1 & H2 & H3 & H4).
    repeat split; try done. right. split; [lia|]. by left. }
  pose proof (open_regex_allowed_kept e (calls_allowed (conf w3)) 0
                "Failed to initialize allowed callsigns regex (%d): %s"
                "Failed to compile allowed callsigns regex (%d): %s" w3)
    as Hk4.
  destruct (open_regex e (calls_allowed (conf w3)) re_calls_allowed _ _ _ _ w3)
    as [fail4 w4] eqn:E4.
  cbn [snd] in Hk4. destruct Hk4 as (C4 & A4 & U4 & N4 & S4).
  destruct fail4 as [ret4|].
  { apply open_regex_fail in E4.
    pose proof (proxy_open_exit_result ret4 w4) as H.
    destruct (proxy_open_exit _ _) as [r w'].
    destruct H as (-> & H1 & H2 & H3 & H4).
    rewrite H1, H2, H3, C4, A4, U4.
    repeat split; try done. right. split; [lia|]. by left. }
  pose proof (open_regex_denied_kept e (calls_denied (conf w4)) 1
                "Failed to initialize denied callsigns regex (%d): %s"
                "Failed to compile denied callsigns regex (%d): %s" w4)
    as Hk5.
  destruct (open_regex e (calls_denied (conf w4)) re_calls_denied _ _ _ _ w4)
    as [fail5 w5] eqn:E5.
  cbn [snd] in Hk5. destruct Hk5 as (C5 & A5 & U5 & N5 & S5).
  destruct fail5 as [ret5|].
  { apply open_regex_fail in E5.
    pose proof (proxy_open_exit_result ret5 w5) as H.
    destruct (proxy_open_exit _ _) as [r w'].
    destruct H as (-> & H1 & H2 & H3 & H4).
    rewrite H1, H2, H3, C5, A5, U5, C4, A4, U4.
    repeat split; try done. right. split; [lia|]. by left. }
  set (w6 := set_slots (assign_add_addrs _ _ _ _) _).
  assert (C6 : conf w6 = conf w)
    by (subst w6; autorewrite with world; by rewrite C5, C4).
  assert (A6 : priv_alloc w6 = priv_alloc w)
    by (subst w6; autorewrite with world; by rewrite A5, A4).
  assert (U6 : usable_clients (priv w6) = usable_clients (priv w)).
  { subst w6. autorewrite with world. by rewrite U5, U4. }
  assert (N6 : num_clients (priv w6) = Z.of_nat (S K)).
  { subst w6. autorewrite with world. by rewrite N5, N4. }
  assert (S6 : map source_addr (slots w6)
               = bind_addr_ext (conf w) :: map Some (additional_addrs (conf w))).
  { subst w6. autorewrite with world.
    assert (Hs5 : slots w5 = replicate (S K) pc_zero).
    { pose proof (open_regex_slots e (calls_denied (conf w4)) re_calls_denied
                    set_re_calls_denied 1
                    "Failed to initialize denied callsigns regex (%d): %s"
                    "Failed to compile denied callsigns regex (%d): %s" w4
                    ltac:(done)) as H5.
      pose proof (open_regex_slots e (calls_allowed (conf w3))
                    re_calls_allowed set_re_calls_allowed 0
                    "Failed to initialize allowed callsigns regex (%d): %s"
                    "Failed to compile allowed callsigns regex (%d): %s" w3
                    ltac:(done)) as H4.
      rewrite E5 in H5. rewrite E4 in H4. cbn [snd] in H4, H5.
      by rewrite H5, H4. }
    rewrite Hs5, C5, C4.
    replace (S K - 1)%nat with K by lia.
    apply (assigned_addrs (conf w)). }
  pose proof (conn_init_loop_kept e (S K) 0 w6 ltac:(done)) as Hk7.
  destruct (conn_init_loop e 0 (S K) w6) as [fail7 w7] eqn:E7.
  cbn [snd] in Hk7. destruct Hk7 as (C7 & A7 & U7 & N7 & S7).
  destruct fail7 as [ret7|].
  { apply conn_init_loop_fail in E7.
    pose proof (proxy_open_exit_result ret7 w7) as H.
    destruct (proxy_open_exit _ _) as [r w'].
    destruct H as (-> & H1 & H2 & H3 & H4).
    rewrite H1, H2, H3, C7, A7, U7.
    repeat split; try done. right. split; [lia|]. by left. }
  pose proof (worker_init_loop_kept e (S K) 0 w7) as Hk8.
  destruct (worker_init_loop e 0 (S K) w7) as [fail8 w8] eqn:E8.
  cbn [snd] in Hk8. destruct Hk8 as (C8 & A8 & U8 & N8 & S8).
  destruct fail8 as [ret8|].
  { apply worker_init_loop_fail in E8.
    pose proof (proxy_open_exit_late_result ret8 w8) as H.
    destruct (proxy_open_exit_late _ _) as [r w'].
    destruct H as (-> & H1 & H2 & H3 & H4).
    rewrite H1, H2, H3, C8, A8, U8, C7, A7, U7.
    repeat split; try done. right. split; [lia|]. by left. }
  destruct (conn_listen_ret e <? 0) eqn:El.
  { apply Z.ltb_lt in El.
    pose proof (proxy_open_exit_later_result (conn_listen_ret e)
                  (proxy_log LOG_LEVEL_FATAL
                     "Failed to open listening port (%d): %s"
                     (emit (EvCall "conn_listen" 0) w8))) as H.
    destruct (proxy_open_exit_later _ _) as [r w'].
    destruct H as (-> & H1 & H2 & H3 & H4).
    rewrite H1, H2, H3. autorewrite with world.
    rewrite C8, A8, U8, C7, A7, U7.
    repeat split; try done. right. split; [lia|]. by left. }
  assert (Hfinal : forall wf, open_kept (emit (EvCall "conn_listen" 0) w8) wf ->
            conf wf = conf w /\ priv_alloc wf = priv_alloc w
            /\ usable_clients (priv wf) = usable_clients (priv w)
            /\ (0 = 0 /\ num_clients (priv wf) = Z.of_nat (S K)
                /\ map source_addr (slots wf)
                   = bind_addr_ext (conf w)
                     :: map Some (additional_addrs (conf w)))).
  { intros wf (Cf & Af & Uf & Nf & Sf).
    rewrite Cf, Af, Uf, Nf, Sf. autorewrite with world.
    rewrite C8, A8, U8, N8, S8, C7, A7, U7, N7, S7.
    repeat split; done. }
  destruct (bind_addr (conf (emit (EvCall "conn_listen" 0) w8)));
    match goal with
    | |- context [proxy_log ?l ?f ?x] =>
        destruct (Hfinal _ (proxy_log_kept l f x)) as (F1 & F2 & F3 & F4)
    end;
    repeat split; try done; by left.
Qed.


(** C8, as the code has it: after a successful [proxy_open] of a
    configuration with K additional external addresses there are K+1 slots;
    slot 0 has the external address, slot i (1 <= i <= K) the (i-1)-th
    additional address; the addresses of the slots are distinct exactly when
    the configured ones are. *)
Theorem proxy_open_slots (e : open_env) (w w' : world) :
  proxy_open e w = (0, w') ->
  let adds := additional_addrs (conf w) in
  length (slots w') = S (length adds)
  /\ num_clients (priv w') = Z.of_nat (S (length adds))
  /\ source_addr <$> slots w' !! 0%nat = Some (bind_addr_ext (conf w))
  /\ (forall i, (1 <= i <= length adds)%nat ->
        source_addr <$> slots w' !! i = Some <$> adds !! (i - 1)%nat)
  /\ (NoDup (map source_addr (slots w'))
      <-> NoDup (bind_addr_ext (conf w) :: map Some adds)).
Proof.
  intros Hopen adds.
  pose proof (proxy_open_result e w) as H. cbv zeta in H.
  rewrite Hopen in H.
  destruct H as (_ & _ & _ & [(_ & Hnum & Haddrs) | (Hneg & _)]); [|lia].
  fold adds in Hnum, Haddrs.
  split.
  { apply (f_equal length) in Haddrs.
    rewrite length_map in Haddrs. rewrite Haddrs. simpl.
    by rewrite length_map. }
  split; [exact Hnum|].
  split.
  { rewrite <- list_lookup_fmap.
    change (source_addr <$> slots w') with (map source_addr (slots w')).
    by rewrite Haddrs. }
  split.
  { intros i Hi. rewrite <- list_lookup_fmap.
    change (source_addr <$> slots w') with (map source_addr (slots w')).
    rewrite Haddrs. destruct i as [|i]; [lia|].
    change ((bind_addr_ext (conf w) :: map Some adds) !! S i)
      with ((Some <$> adds) !! i).
    rewrite list_lookup_fmap.
    by replace (S i - 1)%nat with i by lia. }
  by rewrite Haddrs.
Qed.

Lemma proxy_open_slots_witness :
  proxy_open open_env_ok
    (snd (proxy_load_conf (load_env_of conf_two_ext) world_init))
  = (0, snd (proxy_open open_env_ok
               (snd (proxy_load_conf (load_env_of conf_two_ext) world_init))))
  /\ map source_addr
       (slots (snd (proxy_open open_env_ok
                      (snd (proxy_load_conf (load_env_of conf_two_ext)
                              world_init)))))
     = [Some "10.0.0.1"%string; Some "10.0.0.2"%string]
  /\ NoDup
       (map source_addr
          (slots (snd (proxy_open open_env_ok
                         (snd (proxy_load_conf (load_env_of conf_two_ext)
                                 world_init)))))).
Proof.
  assert (H : proxy_open open_env_ok
                (snd (proxy_load_conf (load_env_of conf_two_ext) world_init))
              = (0, snd (proxy_open open_env_ok
                           (snd (proxy_load_conf (load_env_of conf_two_ext)
                                   world_init))))).
  { vm_compute. reflexivity. }
  split; [exact H|].
  split; [vm_compute; reflexivity|].
  apply (proj2 (proj2 (proj2 (proj2
           (proxy_open_slots open_env_ok _ _ H))))).
  vm_compute. apply NoDup_cons. split.
  - intros Hin. apply list_elem_of_In in Hin. simpl in Hin.
    destruct Hin as [Hin|[]]. discriminate Hin.
  - apply NoDup_cons. split; [apply not_elem_of_nil | apply NoDup_nil_2].
Defined.

(** C8 as stated fails: a configuration whose additional address repeats
    the external one passes [proxy_load_conf], the proxy opens, and its two
    slots have the same address. *)
Lemma proxy_open_slots_counterexample :
  let '(r1, w1) := proxy_load_conf (load_env_of conf_same_ext) world_init in
  let '(r2, w2) := proxy_open open_env_ok w1 in
  r1 = 0 /\ r2 = 0
  /\ map source_addr (slots w2)
     = [Some "10.0.0.1"%string; Some "10.0.0.1"%string]
  /\ ~ NoDup (map source_addr (slots w2)).
Proof.
  vm_compute. repeat split.
  intros H. apply NoDup_cons in H as [H _]. apply H. by left.
Qed.

(** ** The counter of usable slots *)

Lemma counters_kept_refl w : counters_kept w w.
Proof. by repeat split. Qed.

Lemma counters_kept_trans w1 w2 w3 :
  counters_kept w1 w2 -> counters_kept w2 w3 -> counters_kept w1 w3.
Proof.
  intros (A1 & A2 & A3) (B1 & B2 & B3). repeat split; congruence.
Qed.

Lemma same_state_counters w w' : same_state w w' -> counters_kept w w'.
Proof.
  intros (_ & A2 & A3 & _). unfold counters_kept. by rewrite A2, A3.
Qed.

Lemma proxy_update_registration_same w :
  same_state w (proxy_update_registration w).
Proof.
  unfold proxy_update_registration. repeat split.
  eexists. cbn [trace emit]. rewrite <- !app_assoc. reflexivity.
Qed.

Lemma proxy_shutdown_result w :
  priv_alloc (proxy_shutdown w) = priv_alloc w
  /\ usable_clients (priv (proxy_shutdown w)) = 0
  /\ num_clients (priv (proxy_shutdown w)) = num_clients (priv w).
Proof. unfold proxy_shutdown. by autorewrite with world. Qed.

Lemma proxy_close_result r w :
  priv_alloc (proxy_close r w) = priv_alloc w
  /\ usable_clients (priv (proxy_close r w)) = 0
  /\ num_clients (priv (proxy_close r w)) = 0.
Proof.
  unfold proxy_close, proxy_drop, proxy_shutdown.
  destruct (r <? 0); by autorewrite with world.
Qed.

Lemma proxy_free_alloc r w : priv_alloc (proxy_free r w) = false.
Proof.
  unfold proxy_free. destruct (priv_alloc w) eqn:E; [|done].
  repeat case_match; by autorewrite with world.
Qed.

(** [proxy_init] on a handle without private data: either it fails and
    leaves the handle without private data, or it returns 0 and both
    counters are 0. *)
Lemma proxy_init_result e w :
  priv_alloc w = false ->
  let '(ret, w') := proxy_init e w in
  (ret < 0 /\ priv_alloc w' = false)
  \/ (ret = 0 /\ priv_alloc w' = true /\ usable_clients (priv w') = 0
      /\ num_clients (priv w') = 0).
Proof.
  intros Hnew. unfold proxy_init, proxy_init_exit. rewrite Hnew. cbn [negb].
  destruct (malloc_priv_ok e).
  2:{ left. unfold ENOMEM. split; [lia | done]. }
  repeat match goal with
         | |- context [?r <? 0] =>
             lazymatch r with
             | context [proxy_init] => fail
             | _ => destruct (r <? 0) eqn:?
             end
         end;
    try (left; split; [by apply Z.ltb_lt | apply proxy_free_alloc]).
  right. by repeat split.
Qed.

Lemma proxy_load_conf_counters e w :
  counters_kept w (snd (proxy_load_conf e w)).
Proof.
  unfold proxy_load_conf, counters_kept.
  repeat case_match; cbn [snd]; by autorewrite with world.
Qed.

Lemma first_failure_neg rets : forall n i k r,
  first_failure rets i n = Some (k, r) -> r < 0.
Proof.
  induction n as [|n IH]; intros i k r; cbn [first_failure]; [done|].
  destruct (rets i <? 0) eqn:E.
  - intros [= _ <-]. by apply Z.ltb_lt.
  - apply IH.
Qed.

(** [proxy_start]: the number of slots is kept; after a successful start
    every slot is usable; after a failed one either nothing has changed or
    the counter already has the number of slots. *)
Lemma proxy_start_result e w :
  let '(ret, w') := proxy_start e w in
  priv_alloc w' = priv_alloc w
  /\ num_clients (priv w') = num_clients (priv w)
  /\ ((ret = 0 /\ usable_clients (priv w') = num_clients (priv w))
      \/ (ret < 0
          /\ (usable_clients (priv w') = usable_clients (priv w)
              \/ usable_clients (priv w') = num_clients (priv w)))).
Proof.
  unfold proxy_start, proxy_start_exit, proxy_start_exit_early.
  destruct (first_failure (proxy_conn_start_ret e) _ _) as [[i ret]|] eqn:E1.
  { apply first_failure_neg in E1. autorewrite with world.
    repeat split; try done. right. split; [done | by left]. }
  destruct (first_failure (worker_start_ret e) _ _) as [[i ret]|] eqn:E2.
  { apply first_failure_neg in E2. autorewrite with world.
    repeat split; try done. right. split; [done | by left]. }
  destruct (reg_start_ret e <? 0) eqn:E3.
  - apply Z.ltb_lt in E3. autorewrite with world.
    repeat split; try done. right. split; [done | by right].
  - autorewrite with world. repeat split; try done. by left.
Qed.

Lemma proxy_process_counters e w : counters_kept w (snd (proxy_process e w)).
Proof.
  unfold proxy_process, conn_process_exit, counters_kept.
  destruct (probe_loop _ _ _ _ _ _ _) as [[ret ws] tr].
  repeat case_match; cbn [snd]; by autorewrite with world.
Qed.

Lemma proxy_conn_accept_counters ret k w :
  counters_kept w (proxy_conn_accept ret k w).
Proof.
  unfold proxy_conn_accept, counters_kept.
  case_match; by autorewrite with world.
Qed.

Lemma slot_loop_counters rets : forall n k ret w,
  counters_kept w (snd (slot_loop rets n k ret w)).
Proof.
  induction n as [|n IH]; intros k ret w; cbn [slot_loop].
  - apply counters_kept_refl.
  - destruct (negb _).
    + apply proxy_conn_accept_counters.
    + eapply counters_kept_trans; [apply proxy_conn_accept_counters|].
      apply IH.
Qed.

Lemma worker_release_counters i cptr w :
  counters_kept w (worker_release i cptr w).
Proof. unfold worker_release, counters_kept. by autorewrite with world. Qed.

Lemma proxy_worker_func_exit_counters i cptr w :
  counters_kept w (proxy_worker_func_exit i cptr w).
Proof.
  unfold proxy_worker_func_exit.
  destruct (worker_release_counters i cptr w) as (A & U & N).
  unfold counters_kept. autorewrite with world. by rewrite A, U, N.
Qed.

(** A worker never changes the counters. *)
Lemma proxy_worker_func_counters md5 e i w w' :
  proxy_worker_func md5 e i w = Some w' -> counters_kept w w'.
Proof.
  unfold proxy_worker_func.
  destruct (workers w !! i) as [pw|]; [|intros [= <-]; apply counters_kept_refl].
  destruct (conn_client pw) as [cptr|].
  2:{ intros [= <-]. unfold counters_kept. by autorewrite with world. }
  autorewrite with world.
  destruct (heap w !! cptr) as [c|].
  2:{ intros [= <-]. unfold counters_kept. by autorewrite with world. }
  match goal with
  | |- context [proxy_worker_authorize md5 ?a ?b ?c ?d] =>
      pose proof (authorize_same md5 a b c d) as Hs;
      destruct (proxy_worker_authorize md5 a b c d) as [[[ret pw'] c'] w1]
  end.
  cbn [snd] in Hs. apply same_state_counters in Hs.
  assert (H0 : counters_kept w w1).
  { destruct Hs as (A & U & N). unfold counters_kept.
    rewrite A, U, N. by autorewrite with world. }
  clear Hs.
  set (w2 := set_heap _ (set_workers _ w1)).
  assert (H2 : counters_kept w w2).
  { destruct H0 as (A & U & N). subst w2. unfold counters_kept.
    autorewrite with world. by rewrite A, U, N. }
  destruct (ret <? 0).
  { intros [= <-]. eapply counters_kept_trans; [exact H2|].
    eapply counters_kept_trans; [|apply worker_release_counters].
    apply same_state_counters.
    destruct (lost_connection ret); apply proxy_log_same. }
  match goal with
  | |- context [slot_loop ?r ?n ?k ?x ?y] =>
      pose proof (slot_loop_counters r n k x y) as H3;
      destruct (slot_loop r n k x y) as [[ret3 k3] w3]
  end.
  cbn [snd] in H3.
  assert (H3' : counters_kept w w3).
  { eapply counters_kept_trans; [exact H2|].
    eapply counters_kept_trans; [|exact H3].
    unfold counters_kept. by autorewrite with world. }
  clear H3.
  assert (H4 : counters_kept w (emit (EvMutexUnlockShared MxUsableClients) w3)).
  { eapply counters_kept_trans; [exact H3'|].
    apply same_state_counters, emit_same. }
  destruct (ret3 <? 0).
  { intros [= <-]. eapply counters_kept_trans; [exact H4|].
    eapply counters_kept_trans; [|apply proxy_worker_func_exit_counters].
    destruct (ret3 =? - EBUSY);
      [apply same_state_counters, proxy_log_same | apply counters_kept_refl]. }
  destruct (serve_loop (process_rets e)) as [n|]; [|discriminate].
  intros [= <-]. eapply counters_kept_trans; [exact H4|].
  eapply counters_kept_trans; [|apply proxy_worker_func_exit_counters].
  unfold proxy_conn_finish, counters_kept. by autorewrite with world.
Qed.

(** * Further properties of the code *)

(** ** digest_to_str *)

Lemma hex_digit_char n : 0 <= n < 16 -> is_hex_char (hex_digit n).
Proof.
  intros H. unfold is_hex_char, hex_digit.
  destruct (n <? 10) eqn:E; [apply Z.ltb_lt in E|apply Z.ltb_ge in E]; lia.
Qed.

Lemma hex_value_digit n : 0 <= n < 16 -> hex_value (hex_digit n) = n.
Proof.
  intros H. unfold hex_value, hex_digit.
  destruct (n <? 10) eqn:E; [apply Z.ltb_lt in E|apply Z.ltb_ge in E].
  - rewrite (proj2 (Z.ltb_lt _ _)) by lia. lia.
  - rewrite (proj2 (Z.ltb_ge _ _)) by lia. lia.
Qed.

Lemma nibble_range v k : 0 <= Z.land (Z.shiftr v k) 15 < 16.
Proof.
  change 15 with (Z.ones 4). rewrite Z.land_ones by lia.
  apply Z.mod_pos_bound. lia.
Qed.

Lemma byte_nibbles v :
  0 <= v < 256 -> 16 * Z.land (Z.shiftr v 4) 15 + Z.land v 15 = v.
Proof.
  intros H. change 15 with (Z.ones 4). rewrite !Z.land_ones by lia.
  rewrite Z.shiftr_div_pow2 by lia. change (2 ^ 4) with 16.
  rewrite (Z.mod_small (v / 16)) by (split; [apply Z.div_pos; lia|
    apply Z.div_lt_upper_bound; lia]).
  pose proof (Z.div_mod v 16 ltac:(lia)). lia.
Qed.

Lemma digest_to_str_loop_spec (md5 : list Z) : forall n i pre old,
  (2 * n + 1 <= length old)%nat ->
  digest_to_str_loop md5 i n (pre ++ old) (length pre)
  = (0,
     pre
     ++ match n with
        | O => old
        | S _ =>
            flat_map (fun v => fst (sprintf_02hhx v))
              (map (fun j => nth j md5 0) (seq i n))
            ++ 0 :: drop (2 * n + 1) old
        end).
Proof.
  induction n as [|n IH]; intros i pre old Hlen; [done|].
  cbn [digest_to_str_loop sprintf_02hhx]. change (negb (2 =? 2)) with false.
  cbv iota.
  destruct old as [|o1 [|o2 [|o3 old]]]; try (simpl in Hlen; lia).
  set (h := hex_digit (Z.land (Z.shiftr (nth i md5 0) 4) 15)).
  set (l := hex_digit (Z.land (nth i md5 0) 15)).
  pose proof (write_bytes_exact ([h; l] ++ [0]) pre [o1; o2; o3] old eq_refl)
    as Hw.
  change ((pre ++ [o1; o2; o3] ++ old)) with (pre ++ o1 :: o2 :: o3 :: old) in Hw.
  rewrite Hw. clear Hw.
  replace (length pre + 2)%nat with (length (pre ++ [h; l]))
    by (rewrite length_app; simpl; lia).
  replace (pre ++ ([h; l] ++ [0]) ++ old) with ((pre ++ [h; l]) ++ 0 :: old)
    by (by rewrite <- !app_assoc).
  rewrite IH by (simpl in *; lia).
  f_equal. rewrite <- app_assoc. f_equal.
  cbn [seq map flat_map sprintf_02hhx fst]. fold h l.
  destruct n as [|n].
  - simpl. by rewrite drop_0.
  - rewrite <- app_assoc.
    replace (2 * S (S n) + 1)%nat with (S (S (S (2 * n + 2)))) by lia.
    replace (2 * S n + 1)%nat with (S (2 * n + 2)) by lia.
    reflexivity.
Qed.

Lemma hex_string_length (l : list Z) :
  length (flat_map (fun v => fst (sprintf_02hhx v)) l) = (2 * length l)%nat.
Proof. induction l as [|v l IH]; simpl in *; lia. Qed.

Lemma hex_string_chars (l : list Z) :
  Forall is_hex_char (flat_map (fun v => fst (sprintf_02hhx v)) l).
Proof.
  induction l as [|v l IH]; simpl; [constructor|].
  constructor; [apply hex_digit_char, nibble_range|].
  constructor; [|exact IH].
  apply hex_digit_char. pose proof (nibble_range v 0) as H.
  by rewrite Z.shiftr_0_r in H.
Qed.

Lemma hex_string_decode (l : list Z) :
  Forall (fun b => 0 <= b < 256) l ->
  hex_decode (flat_map (fun v => fst (sprintf_02hhx v)) l) = l.
Proof.
  induction 1 as [|v l Hv _ IH]; [done|].
  change (hex_decode (flat_map (fun v => fst (sprintf_02hhx v)) (v :: l)))
    with (16 * hex_value (hex_digit (Z.land (Z.shiftr v 4) 15))
          + hex_value (hex_digit (Z.land v 15))
          :: hex_decode (flat_map (fun v => fst (sprintf_02hhx v)) l)).
  rewrite IH. f_equal.
  rewrite !hex_value_digit.
  - by apply byte_nibbles.
  - pose proof (nibble_range v 0) as H. by rewrite Z.shiftr_0_r in H.
  - apply nibble_range.
Qed.

Lemma hex_char_not_nul (l : list Z) :
  Forall is_hex_char l -> Forall (fun b => b <> 0) l.
Proof.
  intros H. eapply Forall_impl; [exact H|].
  unfold is_hex_char. intros; lia.
Qed.

Lemma map_nth_seq (l : list Z) :
  map (fun j => nth j l 0) (seq 0 (length l)) = l.
Proof.
  apply list_eq. intros i.
  change (map (fun j => nth j l 0) (seq 0 (length l)))
    with ((fun j => nth j l 0) <$> seq 0 (length l)).
  rewrite list_lookup_fmap.
  destruct (decide (i < length l)%nat) as [Hlt|Hge].
  - rewrite lookup_seq_lt by done. simpl.
    destruct (lookup_lt_is_Some_2 _ _ Hlt) as [x Hx].
    rewrite Hx. f_equal. by rewrite nth_lookup, Hx.
  - rewrite lookup_seq_ge by lia. simpl. by rewrite lookup_ge_None_2 by lia.
Qed.

(** X1: for a digest of 16 bytes and an output buffer of 33 bytes,
    [digest_to_str] returns 0 (never [-EINVAL]) and leaves in the buffer 32
    lowercase hex characters followed by a NUL, two characters per byte, most
    significant nibble first: decoding them gives the digest back. *)
Theorem digest_to_str_roundtrip (md5 result : list Z) :
  length md5 = DIGEST_LEN ->
  Forall (fun b => 0 <= b < 256) md5 ->
  length result = (2 * DIGEST_LEN + 1)%nat ->
  let '(ret, out) := digest_to_str md5 result in
  ret = 0
  /\ length out = (2 * DIGEST_LEN + 1)%nat
  /\ cstr out = take (2 * DIGEST_LEN) out
  /\ Forall is_hex_char (cstr out)
  /\ hex_decode (cstr out) = md5.
Proof.
  intros Hlen Hbytes Hres. unfold digest_to_str.
  pose proof (digest_to_str_loop_spec md5 DIGEST_LEN 0 [] result) as H.
  rewrite app_nil_l in H. change (length (@nil Z)) with 0%nat in H.
  rewrite H by (rewrite Hres; unfold DIGEST_LEN; lia). clear H.
  unfold DIGEST_LEN in *.
  assert (Hmap : map (fun j => nth j md5 0) (seq 0 16) = md5)
    by (rewrite <- Hlen; apply map_nth_seq).
  rewrite Hmap, app_nil_l.
  set (hs := flat_map (fun v => fst (sprintf_02hhx v)) md5).
  assert (Hhl : length hs = 32%nat)
    by (subst hs; rewrite hex_string_length, Hlen; reflexivity).
  assert (Hcs : cstr (hs ++ 0 :: drop (2 * 16 + 1) result) = hs).
  { rewrite cstr_app_nul. apply cstr_no_nul, hex_char_not_nul.
    apply hex_string_chars. }
  split; [done|]. split.
  { rewrite length_app. cbn [length]. rewrite length_drop, Hhl, Hres. lia. }
  rewrite Hcs. split.
  { change (2 * 16)%nat with 32%nat. rewrite <- Hhl.
    by rewrite take_app_length. }
  split; [apply hex_string_chars | by apply hex_string_decode].
Qed.

Lemma digest_to_str_roundtrip_witness :
  length (MD5.md5 (bytes_of_string "TEST12345678")) = DIGEST_LEN
  /\ Forall (fun b => 0 <= b < 256) (MD5.md5 (bytes_of_string "TEST12345678"))
  /\ length (replicate 33 7) = (2 * DIGEST_LEN + 1)%nat
  /\ let '(ret, out) :=
       digest_to_str (MD5.md5 (bytes_of_string "TEST12345678"))
         (replicate 33 7) in
     ret = 0
     /\ cstr out = bytes_of_string "f0adebdfea335671b586118e6cac896f".
Proof.
  assert (H1 : length (MD5.md5 (bytes_of_string "TEST12345678")) = DIGEST_LEN)
    by reflexivity.
  assert (H2 : Forall (fun b => 0 <= b < 256)
                 (MD5.md5 (bytes_of_string "TEST12345678"))).
  { vm_compute.
    repeat (constructor; [split; [discriminate | reflexivity]|]).
    constructor. }
  assert (H3 : length (replicate 33 7) = (2 * DIGEST_LEN + 1)%nat)
    by reflexivity.
  do 3 (split; [assumption|]).
  pose proof (digest_to_str_roundtrip _ _ H1 H2 H3) as H.
  destruct (digest_to_str _ _) as [ret out] eqn:E.
  destruct H as (Hret & _ & _ & _ & _).
  split; [exact Hret|].
  vm_compute in E. injection E as _ <-. reflexivity.
Defined.

(** ** The expected response *)

Lemma password_response_value (md5 : list Z -> list Z) (junk : nat -> Z)
    (nonce : Z) (password : list Z) :
  Z.of_nat (strlen password) + 8 < 2 ^ 32 ->
  snd (get_password_response md5 junk nonce password)
  = md5 (map to_upper (cstr password) ++ hex8 nonce).
Proof.
  intros Hfit. unfold get_password_response, strlen in *.
  rewrite Z.mod_small by lia.
  replace (Z.to_nat (Z.of_nat (length (cstr password)) + 8))
    with (length (cstr password) + 8)%nat by lia.
  set (n := length (cstr password)).
  pose proof (upcase_loop_spec password [] (malloc_bytes junk (n + 8))) as Hl.
  simpl in Hl. rewrite Hl by (fold n; rewrite length_malloc_bytes; lia).
  fold n. unfold digest_to_hex32, digest_get. cbn [snd].
  pose proof (write_bytes_exact (hex8 nonce) (map to_upper (cstr password))
                (drop n (malloc_bytes junk (n + 8))) []) as Hw.
  rewrite length_map in Hw. fold n in Hw. rewrite app_nil_r in Hw.
  rewrite Hw by (rewrite length_drop, length_malloc_bytes, length_hex8; lia).
  rewrite app_nil_r. f_equal.
  apply take_ge. rewrite length_app, length_map, length_hex8. fold n. lia.
Qed.

Lemma to_upper_idemp b : to_upper (to_upper b) = to_upper b.
Proof.
  unfold to_upper.
  destruct ((97 <=? b) && (b <=? 122)) eqn:E; [|by rewrite E].
  apply andb_true_iff in E as [E1 E2].
  apply Z.leb_le in E1, E2.
  rewrite (proj2 (Z.leb_gt _ _)) by lia. done.
Qed.

Lemma to_upper_not_nul b : b <> 0 -> to_upper b <> 0.
Proof.
  unfold to_upper. intros H.
  destruct ((97 <=? b) && (b <=? 122)) eqn:E; [|done].
  apply andb_true_iff in E as [E1 E2]. apply Z.leb_le in E1, E2. lia.
Qed.

Lemma cstr_map_to_upper (s : list Z) :
  cstr (map to_upper s) = map to_upper (cstr s).
Proof.
  induction s as [|b s IH]; [done|]. cbn [map cstr].
  destruct (b =? 0) eqn:E.
  - apply Z.eqb_eq in E. subst b. done.
  - apply Z.eqb_neq in E. apply to_upper_not_nul in E as E'.
    apply Z.eqb_neq in E'. rewrite E'. cbn [map]. by rewrite IH.
Qed.

(** X2: the expected response does not distinguish the case of ASCII
    letters in the password and does not depend on the contents of the
    freshly allocated buffer: two passwords with the same upper-case form
    give the same response for the same nonce.  In particular a password and
    its upper-case form are interchangeable. *)
Theorem password_response_case_insensitive (md5 : list Z -> list Z)
    (junk1 junk2 : nat -> Z) (nonce : Z) (p1 p2 : list Z) :
  Z.of_nat (strlen p1) + 8 < 2 ^ 32 ->
  map to_upper (cstr p1) = map to_upper (cstr p2) ->
  get_password_response md5 junk1 nonce p1
  = get_password_response md5 junk2 nonce p2
  /\ get_password_response md5 junk1 nonce (map to_upper p1)
     = get_password_response md5 junk2 nonce p1.
Proof.
  intros Hfit Heq.
  assert (Hlen : strlen p2 = strlen p1).
  { unfold strlen. apply (f_equal length) in Heq.
    by rewrite !length_map in Heq. }
  assert (Hup : strlen (map to_upper p1) = strlen p1).
  { unfold strlen. by rewrite cstr_map_to_upper, length_map. }
  assert (Hpair : forall j p,
            get_password_response md5 j nonce p
            = (0, snd (get_password_response md5 j nonce p))).
  { intros j p. pose proof (fst_get_password_response md5 j nonce p) as H.
    destruct (get_password_response md5 j nonce p) as [r x].
    simpl in *. by subst r. }
  split.
  - rewrite (Hpair junk1 p1), (Hpair junk2 p2).
    rewrite !password_response_value by (rewrite ?Hlen; done).
    by rewrite Heq.
  - rewrite (Hpair junk1 (map to_upper p1)), (Hpair junk2 p1).
    rewrite !password_response_value by (rewrite ?Hup; done).
    rewrite cstr_map_to_upper, map_map.
    do 3 f_equal. apply map_ext. intros b. apply to_upper_idemp.
Qed.

Lemma password_response_case_insensitive_witness :
  Z.of_nat (strlen (bytes_of_string "test")) + 8 < 2 ^ 32
  /\ map to_upper (cstr (bytes_of_string "test"))
     = map to_upper (cstr (bytes_of_string "TeSt"))
  /\ get_password_response MD5.md5 (fun _ => 0) 0x12345678
       (bytes_of_string "test")
     = get_password_response MD5.md5 (fun _ => 255) 0x12345678
         (bytes_of_string "TeSt").
Proof.
  assert (H1 : Z.of_nat (strlen (bytes_of_string "test")) + 8 < 2 ^ 32)
    by reflexivity.
  assert (H2 : map to_upper (cstr (bytes_of_string "test"))
               = map to_upper (cstr (bytes_of_string "TeSt")))
    by reflexivity.
  do 2 (split; [assumption|]).
  exact (proj1 (password_response_case_insensitive MD5.md5 (fun _ => 0)
                  (fun _ => 255) 0x12345678 _ _ H1 H2)).
Defined.

(** ** Failures of the authorization exchange *)

Lemma authorize_prefix md5 e pw c w :
  0 <= rand_ret e ->
  proxy_worker_authorize md5 e pw c w
  = let response := expected_response md5 e w in
    let r0 := hd 0 (send_rets c) in
    let c0 := conn_after c [(hex8 (rand_nonce e), r0)] [] in
    if r0 <? 0 then (r0, pw, c0, w)
    else if (length (rx c) <? 16)%nat
         then (Z.neg (rx_errno c), pw, c0, w)
         else proxy_worker_authorize md5 e pw c w.
Proof.
  intros Hrand. cbv zeta.
  destruct (hd 0 (send_rets c) <? 0) eqn:Es;
    [|destruct (length (rx c) <? 16)%nat eqn:Er; [|done]].
  - unfold proxy_worker_authorize.
    cbv beta iota zeta delta [get_nonce].
    rewrite (proj2 (Z.ltb_ge _ _) Hrand).
    destruct (get_password_response _ _ _ _) as [r resp] eqn:Eresp.
    pose proof (fst_get_password_response md5 (heap_junk e) (rand_nonce e)
                  (password (conf w))) as Hr.
    rewrite Eresp in Hr. simpl in Hr. subst r.
    change (0 <? 0) with false. cbv iota.
    unfold conn_send. cbv beta iota zeta. rewrite Es.
    rewrite nonce_str_sent. unfold conn_after.
    cbn [foldr length]. by rewrite drop_0, app_nil_r.
  - unfold proxy_worker_authorize.
    cbv beta iota zeta delta [get_nonce].
    rewrite (proj2 (Z.ltb_ge _ _) Hrand).
    destruct (get_password_response _ _ _ _) as [r resp] eqn:Eresp.
    pose proof (fst_get_password_response md5 (heap_junk e) (rand_nonce e)
                  (password (conf w))) as Hr.
    rewrite Eresp in Hr. simpl in Hr. subst r.
    change (0 <? 0) with false. cbv iota.
    unfold conn_send. cbv beta iota zeta. rewrite Es.
    apply Nat.ltb_lt in Er.
    rewrite conn_recv_short by (conn_simpl; lia).
    cbv beta iota zeta. change (Z.neg _ <? 0) with true. cbv iota.
    conn_simpl. rewrite nonce_str_sent. unfold conn_after.
    cbn [foldr length]. by rewrite drop_0, app_nil_r.
Qed.

(** X3: the transport failures before a reply has been parsed.  When the
    random source fails, the authorization returns its error and nothing is
    sent, read or changed.  When the nonce cannot be sent, or when the read
    of the first 16 bytes of the reply fails, it returns the error of the
    send or of the read; the nonce is the only thing it tried to send, no
    read has been completed, no SYSTEM frame is sent, the socket is not
    closed, and the worker (its callsign included) and the proxy state are
    untouched. *)
Theorem authorize_transport_failure (md5 : list Z -> list Z) (e : auth_env)
    (pw : proxy_worker) (c : conn_handle) (w : world) :
  let '(ret, pw', c', w') := proxy_worker_authorize md5 e pw c w in
  let r0 := hd 0 (send_rets c) in
  (rand_ret e < 0 -> ret = rand_ret e /\ pw' = pw /\ c' = c /\ w' = w)
  /\ (0 <= rand_ret e -> r0 < 0 \/ (length (rx c) < 16)%nat ->
      ret = (if r0 <? 0 then r0 else Z.neg (rx_errno c))
      /\ ret < 0 /\ pw' = pw /\ w' = w
      /\ tx c' = tx c ++ [(hex8 (rand_nonce e), r0)]
      /\ recvs c' = recvs c /\ is_open c' = is_open c).
Proof.
  destruct (decide (rand_ret e < 0)) as [Hneg|Hpos].
  - unfold proxy_worker_authorize. cbv beta iota zeta delta [get_nonce].
    rewrite (proj2 (Z.ltb_lt _ _) Hneg). cbv zeta.
    split; [done | lia].
  - rewrite (authorize_prefix md5 e pw c w) by lia. cbv zeta.
    destruct (hd 0 (send_rets c) <? 0) eqn:Es.
    { apply Z.ltb_lt in Es. split; [lia|]. intros _ _.
      unfold conn_after. cbn [rx tx recvs is_open foldr].
      by rewrite app_nil_r. }
    destruct (length (rx c) <? 16)%nat eqn:Er.
    { split; [lia|]. intros _ _.
      unfold conn_after. cbn [rx tx recvs is_open foldr].
      by rewrite app_nil_r. }
    apply Z.ltb_ge in Es. apply Nat.ltb_ge in Er.
    destruct (proxy_worker_authorize md5 e pw c w) as [[[ret pw'] c'] w'].
    split; [lia|]. intros _ [H|H]; lia.
Qed.

Example authorize_transport_failure_rand :
  proxy_worker_authorize MD5.md5 (mk_auth_env (-5) 0 (fun _ => 0) (fun _ => 0))
    pw_zero (conn_of_reply reply_w1aw) world_open
  = (-5, pw_zero, conn_of_reply reply_w1aw, world_open).
Proof. reflexivity. Qed.

Example authorize_transport_failure_short :
  let '(ret, pw', c', w') :=
    proxy_worker_authorize MD5.md5 auth_env_ok pw_zero
      (conn_of_reply (bytes_of_string "W1AW")) world_open in
  ret = - ECONNRESET /\ pw' = pw_zero
  /\ map fst (tx c') = [bytes_of_string "12345678"].
Proof. vm_compute. done. Qed.

(** X4: a reply that stops after its first line.  When the first newline is
    at index [k <= 10] and fewer than [k + 1 + 16] bytes arrive, the second
    read fails and its error is returned; no SYSTEM frame is sent, but the
    callsign of the worker has already been overwritten with the name in
    the reply. *)
Theorem authorize_truncated_reply (md5 : list Z -> list Z) (e : auth_env)
    (pw : proxy_worker) (c : conn_handle) (w : world) (k : nat) :
  0 <= rand_ret e ->
  0 <= hd 0 (send_rets c) ->
  (16 <= length (rx c))%nat ->
  (k <= 10)%nat ->
  nth k (rx c) 0 = 10 ->
  (forall i, (i < k)%nat -> nth i (rx c) 0 <> 10) ->
  (length (rx c) < k + 1 + 16)%nat ->
  let '(ret, pw', c', w') := proxy_worker_authorize md5 e pw c w in
  ret = Z.neg (rx_errno c)
  /\ cstr (callsign pw') = cstr (take k (rx c))
  /\ tx c' = tx c ++ [(hex8 (rand_nonce e), hd 0 (send_rets c))]
  /\ recvs c' = recvs c ++ [16%nat]
  /\ w' = w.
Proof.
  intros Hrand Hsend Hrx Hk Hnl Hfirst Hlen.
  assert (Hfind : find_newline (rx c) 0 11 = k)
    by (apply find_newline_found; [lia | done | done]).
  rewrite (authorize_short_reply md5 e pw c w Hrand Hsend Hrx k Hfind)
    by lia.
  repeat split.
  cbn [callsign set_callsign]. unfold strcpy.
  rewrite <- app_assoc. cbn [app]. rewrite cstr_app_nul. apply cstr_idemp.
Qed.

Lemma authorize_truncated_reply_witness :
  0 <= rand_ret auth_env_ok
  /\ 0 <= hd 0 (send_rets (conn_of_reply (take 18 reply_w1aw)))
  /\ (16 <= length (rx (conn_of_reply (take 18 reply_w1aw))))%nat
  /\ nth 4 (rx (conn_of_reply (take 18 reply_w1aw))) 0 = 10
  /\ (length (rx (conn_of_reply (take 18 reply_w1aw))) < 4 + 1 + 16)%nat
  /\ let '(ret, pw', c', w') :=
       proxy_worker_authorize MD5.md5 auth_env_ok pw_zero
         (conn_of_reply (take 18 reply_w1aw)) world_open in
     ret = - ECONNRESET /\ cstr (callsign pw') = bytes_of_string "W1AW".
Proof.
  assert (H1 : 0 <= rand_ret auth_env_ok) by (simpl; lia).
  assert (H2 : 0 <= hd 0 (send_rets (conn_of_reply (take 18 reply_w1aw))))
    by (simpl; lia).
  assert (H3 : (16 <= length (rx (conn_of_reply (take 18 reply_w1aw))))%nat)
    by (simpl; lia).
  assert (H4 : nth 4 (rx (conn_of_reply (take 18 reply_w1aw))) 0 = 10)
    by reflexivity.
  assert (H5 : forall i, (i < 4)%nat ->
                 nth i (rx (conn_of_reply (take 18 reply_w1aw))) 0 <> 10).
  { intros i Hi.
    destruct i as [|[|[|[|i]]]]; simpl; try discriminate. lia. }
  assert (H6 : (length (rx (conn_of_reply (take 18 reply_w1aw)))
                < 4 + 1 + 16)%nat) by (simpl; lia).
  split; [exact H1|]. split; [exact H2|]. split; [exact H3|].
  split; [exact H4|]. split; [exact H6|].
  pose proof (authorize_truncated_reply MD5.md5 auth_env_ok pw_zero
                (conn_of_reply (take 18 reply_w1aw)) world_open 4
                H1 H2 H3 ltac:(lia) H4 H5 H6) as H.
  destruct (proxy_worker_authorize _ _ _ _ _) as [[[ret pw'] c'] w'].
  destruct H as (Hret & Hcs & _).
  split; [exact Hret | exact Hcs].
Defined.

(** ** Successful authorization *)

(** X5: for a reply read in full (first newline at index [k <= 10]), the
    authorization returns 0 exactly when the 16 bytes after the newline
    equal the expected response and the recorded callsign is authorized;
    every other outcome is a negative value.  On success nothing but the
    nonce has been sent to the client. *)
Theorem authorize_accepts (md5 : list Z -> list Z) (e : auth_env)
    (pw : proxy_worker) (c : conn_handle) (w : world) (k : nat) :
  0 <= rand_ret e ->
  0 <= hd 0 (send_rets c) ->
  (k <= 10)%nat ->
  nth k (rx c) 0 = 10 ->
  (forall i, (i < k)%nat -> nth i (rx c) 0 <> 10) ->
  (k + 1 + 16 <= length (rx c))%nat ->
  let '(ret, pw', c', w') := proxy_worker_authorize md5 e pw c w in
  (ret = 0 <->
   (forall j, (j < 16)%nat ->
      nth j (expected_response md5 e w) 0 = nth (k + 1 + j) (rx c) 0)
   /\ fst (proxy_authorize_callsign w (callsign pw')) = 1)
  /\ (ret = 0 \/ ret < 0)
  /\ (ret = 0 ->
      tx c' = tx c ++ [(hex8 (rand_nonce e), hd 0 (send_rets c))])
  /\ callsign pw' = strcpy (callsign pw) (take k (rx c)).
Proof.
  intros Hrand Hsend Hk Hnl Hfirst Hlen.
  assert (Hfind : find_newline (rx c) 0 11 = k)
    by (apply find_newline_found; [lia | done | done]).
  rewrite (authorize_full_reply md5 e pw c w Hrand Hsend ltac:(lia) k Hfind)
    by lia.
  cbv zeta.
  assert (Hrefusal : forall r, refusal r < 0).
  { intros r. unfold refusal, EACCES.
    destruct (r <? 0) eqn:Er; [apply Z.ltb_lt in Er | ]; lia. }
  destruct (response_differs _ _ _ _ _) eqn:Ediff.
  - pose proof (Hrefusal (nth 1 (send_rets c) 0)) as Hr.
    split; [|split; [by right | split; [lia | done]]].
    split; [lia|]. intros [Hall _]. exfalso.
    apply response_differs_true in Ediff as (t & Ht & Hne).
    apply Hne. apply (Hall t Ht).
  - pose proof (proj1 (response_differs_spec _ _ _ _ _) Ediff) as Hall.
    destruct (proxy_authorize_callsign w _) as [ra wa] eqn:Eauth.
    destruct (ra =? 1) eqn:Era; cbn [negb].
    + apply Z.eqb_eq in Era. subst ra.
      rewrite Eauth.
      split; [|split; [by left | done]].
      split; [|done]. intros _. split; [exact Hall | done].
    + apply Z.eqb_neq in Era.
      pose proof (Hrefusal (nth 1 (send_rets c) 0)) as Hr.
      rewrite Eauth.
      split; [|split; [by right | split; [lia | done]]].
      split; [lia|]. by intros [_ H].
Qed.

Lemma authorize_accepts_witness :
  0 <= rand_ret auth_env_ok
  /\ 0 <= hd 0 (send_rets (conn_of_reply reply_w1aw))
  /\ nth 4 (rx (conn_of_reply reply_w1aw)) 0 = 10
  /\ (4 + 1 + 16 <= length (rx (conn_of_reply reply_w1aw)))%nat
  /\ let '(ret, pw', c', w') :=
       proxy_worker_authorize MD5.md5 auth_env_ok pw_zero
         (conn_of_reply reply_w1aw) world_open in
     (ret = 0 \/ ret < 0)
     /\ callsign pw'
        = strcpy (callsign pw_zero) (take 4 (rx (conn_of_reply reply_w1aw))).
Proof.
  assert (H1 : 0 <= rand_ret auth_env_ok) by (simpl; lia).
  assert (H2 : 0 <= hd 0 (send_rets (conn_of_reply reply_w1aw)))
    by (simpl; lia).
  assert (H4 : nth 4 (rx (conn_of_reply reply_w1aw)) 0 = 10) by reflexivity.
  assert (H5 : forall i, (i < 4)%nat ->
                 nth i (rx (conn_of_reply reply_w1aw)) 0 <> 10).
  { intros i Hi.
    destruct i as [|[|[|[|i]]]]; simpl; try discriminate. lia. }
  assert (H6 : (4 + 1 + 16 <= length (rx (conn_of_reply reply_w1aw)))%nat)
    by (simpl; lia).
  split; [exact H1|]. split; [exact H2|]. split; [exact H4|].
  split; [exact H6|].
  pose proof (authorize_accepts MD5.md5 auth_env_ok pw_zero
                (conn_of_reply reply_w1aw) world_open 4
                H1 H2 ltac:(lia) H4 H5 H6) as H.
  destruct (proxy_worker_authorize _ _ _ _ _) as [[[ret pw'] c'] w'].
  destruct H as (_ & Hret & _ & Hcs).
  split; [exact Hret | exact Hcs].
Defined.

(** ** What the authorization leaves alone *)

Lemma length_strcpy (dst src : list Z) :
  (length (cstr src) < length dst)%nat ->
  length (strcpy dst src) = length dst.
Proof.
  intros H. unfold strcpy. cbv zeta.
  rewrite !length_app, length_drop, ?length_app. simpl. lia.
Qed.

Lemma conn_recv_frame (c : conn_handle) (buff : list Z) (off n : nat) :
  let '(ret, c', buff') := conn_recv c buff off n in
  length buff' = length buff /\ is_open c' = is_open c /\ tx c' = tx c
  /\ send_rets c' = send_rets c.
Proof.
  unfold conn_recv. destruct (n <=? length (rx c))%nat; [|done].
  by rewrite length_write_bytes.
Qed.

(** X6: whatever the client sends and whatever fails, the authorization
    keeps the worker's 12-byte callsign array at 12 bytes (the name copied
    into it has at most 10 characters and a NUL), does not close the client
    socket, does not touch the worker's connection pointer, and changes
    nothing of the proxy state except for the messages it logs. *)
Theorem authorize_frame (md5 : list Z -> list Z) (e : auth_env)
    (pw : proxy_worker) (c : conn_handle) (w : world) :
  length (callsign pw) = 12%nat ->
  let '(ret, pw', c', w') := proxy_worker_authorize md5 e pw c w in
  length (callsign pw') = 12%nat
  /\ conn_client pw' = conn_client pw
  /\ pw_ph pw' = pw_ph pw
  /\ is_open c' = is_open c
  /\ same_state w w'.
Proof.
  intros Hcs.
  pose proof (authorize_same md5 e pw c w) as Hsame.
  unfold proxy_worker_authorize in *.
  cbv beta iota zeta delta [get_nonce] in *.
  destruct (rand_ret e <? 0); [by do 4 (split; [done|])|].
  destruct (get_password_response _ _ _ _) as [r resp].
  destruct (r <? 0); [by do 4 (split; [done|])|].
  unfold conn_send in *. cbv beta iota zeta in *.
  destruct (hd 0 (send_rets c) <? 0); [by do 4 (split; [done|])|].
  match goal with
  | |- context [conn_recv ?a ?b ?o ?n] =>
      pose proof (conn_recv_frame a b o n) as Hr1;
      destruct (conn_recv a b o n) as [[r1 c1] b1]
  end.
  destruct Hr1 as (L1 & O1 & _). cbn [is_open] in O1.
  rewrite length_malloc_bytes in L1.
  destruct (r1 <? 0); [by do 4 (split; [done|])|].
  destruct (11 <=? find_newline b1 0 11)%nat eqn:Eidx;
    [by do 4 (split; [done|])|].
  apply Nat.leb_gt in Eidx.
  set (idx := find_newline b1 0 11) in *.
  assert (Hlen : length (strcpy (callsign pw) (<[idx := 0]> b1)) = 12%nat).
  { rewrite length_strcpy; [done|].
    rewrite cstr_terminated by lia.
    pose proof (length_cstr (take idx b1)) as Hl.
    rewrite length_take in Hl. lia. }
  match goal with
  | |- context [conn_recv ?a ?b ?o ?n] =>
      pose proof (conn_recv_frame a b o n) as Hr2;
      destruct (conn_recv a b o n) as [[r2 c2] b2]
  end.
  destruct Hr2 as (_ & O2 & _).
  destruct (r2 <? 0);
    [by do 4 (split; [first [done | congruence]|])|].
  destruct (response_differs _ _ _ _ _).
  { by do 4 (split; [first [done | conn_simpl; congruence]|]). }
  destruct (proxy_authorize_callsign _ _) as [ra wa].
  destruct (negb (ra =? 1));
    by do 4 (split; [first [done | conn_simpl; congruence]|]).
Qed.

Lemma authorize_frame_witness :
  length (callsign pw_zero) = 12%nat
  /\ let '(ret, pw', c', w') :=
       proxy_worker_authorize MD5.md5 auth_env_ok pw_zero
         (conn_of_reply reply_wrong) world_open in
     length (callsign pw') = 12%nat /\ is_open c' = true.
Proof.
  assert (H1 : length (callsign pw_zero) = 12%nat) by reflexivity.
  split; [exact H1|].
  pose proof (authorize_frame MD5.md5 auth_env_ok pw_zero
                (conn_of_reply reply_wrong) world_open H1) as H.
  destruct (proxy_worker_authorize _ _ _ _ _) as [[[ret pw'] c'] w'].
  destruct H as (Hl & _ & _ & Ho & _).
  split; [exact Hl | exact Ho].
Defined.

(** ** The worker thread *)

Lemma proxy_conn_accept_keeps ret k w :
  workers (proxy_conn_accept ret k w) = workers w
  /\ heap (proxy_conn_accept ret k w) = heap w.
Proof.
  unfold proxy_conn_accept. destruct (ret <? 0); by autorewrite with world.
Qed.

Lemma slot_loop_keeps rets : forall n k ret w,
  workers (snd (slot_loop rets n k ret w)) = workers w
  /\ heap (snd (slot_loop rets n k ret w)) = heap w.
Proof.
  induction n as [|n IH]; intros k ret w; cbn [slot_loop]; [done|].
  destruct (proxy_conn_accept_keeps (rets k) k w) as (W & H).
  destruct (negb _); [done|].
  destruct (IH (S k) (rets k) (proxy_conn_accept (rets k) k w)) as (W' & H').
  by rewrite W', H', W, H.
Qed.

Lemma worker_release_result i cptr w pw :
  workers w !! i = Some pw ->
  workers (worker_release i cptr w) !! i = Some (set_conn_client None pw)
  /\ heap (worker_release i cptr w) !! cptr = None
  /\ (forall j, j <> i ->
        workers (worker_release i cptr w) !! j = workers w !! j)
  /\ (forall p, p <> cptr -> heap (worker_release i cptr w) !! p = heap w !! p)
  /\ In (EvCall "conn_free" cptr) (trace (worker_release i cptr w))
  /\ In (EvCall "free" cptr) (trace (worker_release i cptr w))
  /\ length (workers (worker_release i cptr w)) = length (workers w).
Proof.
  intros Hw. unfold worker_release. autorewrite with world.
  split; [by rewrite list_lookup_alter_eq, Hw|].
  split; [apply lookup_delete_eq|].
  split; [intros j Hj; by rewrite list_lookup_alter_ne|].
  split.
  { intros p Hp. by rewrite lookup_delete_ne, lookup_alter_ne. }
  split; [rewrite !in_app_iff; simpl; tauto|].
  split; [rewrite !in_app_iff; simpl; tauto|].
  apply length_alter.
Qed.

Lemma in_trace_same ev w w' :
  same_state w w' -> In ev (trace w) -> In ev (trace w').
Proof.
  intros (_ & _ & _ & _ & l & ->) H. apply in_or_app. by left.
Qed.

Lemma proxy_worker_func_exit_result i cptr w pw :
  workers w !! i = Some pw ->
  workers (proxy_worker_func_exit i cptr w) !! i
  = Some (set_conn_client None pw)
  /\ heap (proxy_worker_func_exit i cptr w) !! cptr = None
  /\ (forall j, j <> i ->
        workers (proxy_worker_func_exit i cptr w) !! j = workers w !! j)
  /\ (forall p, p <> cptr ->
        heap (proxy_worker_func_exit i cptr w) !! p = heap w !! p)
  /\ In (EvCall "conn_free" cptr) (trace (proxy_worker_func_exit i cptr w))
  /\ In (EvCall "free" cptr) (trace (proxy_worker_func_exit i cptr w))
  /\ length (workers (proxy_worker_func_exit i cptr w)) = length (workers w).
Proof.
  intros Hw. unfold proxy_worker_func_exit.
  destruct (worker_release_result i cptr w pw Hw)
    as (R1 & R2 & R3 & R4 & R5 & R6 & R7).
  assert (Hs : same_state (worker_release i cptr w)
                 (proxy_log LOG_LEVEL_DEBUG
                    "Client worker is returning cleanly."
                    (proxy_update_registration (worker_release i cptr w)))).
  { eapply same_state_trans;
      [apply proxy_update_registration_same | apply proxy_log_same]. }
  autorewrite with world.
  change (workers (proxy_update_registration (worker_release i cptr w)))
    with (workers (worker_release i cptr w)).
  repeat split; try done; by eapply in_trace_same.
Qed.

(** X7: a worker always gives its connection back.  Whenever the thread
    function of worker [i] returns while the worker holds a connection
    (failed authorization, no slot, or end of the session), that connection
    has been closed and freed, the worker's [conn_client] is NULL again, and
    neither the other workers nor the other connections have been
    touched. *)
Theorem worker_func_releases (md5 : list Z -> list Z) (e : worker_env)
    (i : nat) (w w' : world) (pw : proxy_worker) (cptr : nat)
    (c : conn_handle) :
  workers w !! i = Some pw ->
  conn_client pw = Some cptr ->
  heap w !! cptr = Some c ->
  proxy_worker_func md5 e i w = Some w' ->
  (exists pw', workers w' !! i = Some pw' /\ conn_client pw' = None)
  /\ heap w' !! cptr = None
  /\ (forall j, j <> i -> workers w' !! j = workers w !! j)
  /\ (forall p, p <> cptr -> heap w' !! p = heap w !! p)
  /\ In (EvCall "conn_free" cptr) (trace w')
  /\ In (EvCall "free" cptr) (trace w')
  /\ length (workers w') = length (workers w).
Proof.
  intros Hw Hc Hh. unfold proxy_worker_func. rewrite Hw, Hc.
  autorewrite with world. rewrite Hh.
  match goal with
  | |- context [proxy_worker_authorize md5 ?a ?b ?c ?d] =>
      pose proof (authorize_same md5 a b c d) as Hs;
      destruct (proxy_worker_authorize md5 a b c d) as [[[ret pw1] c1] w1]
  end.
  cbn [snd] in Hs.
  assert (Hw1 : workers w1 = workers w).
  { rewrite (workers_same _ _ Hs). by autorewrite with world. }
  assert (Hh1 : heap w1 = heap w).
  { destruct Hs as (_ & _ & _ & -> & _). by autorewrite with world. }
  assert (Hi : (i < length (workers w))%nat) by (by apply lookup_lt_Some in Hw).
  set (w2 := set_heap _ (set_workers _ w1)).
  assert (Hw2 : workers w2 = <[i := pw1]> (workers w))
    by (subst w2; autorewrite with world; by rewrite Hw1).
  assert (Hh2 : heap w2 = <[cptr := c1]> (heap w))
    by (subst w2; autorewrite with world; by rewrite Hh1).
  assert (Hfinal : forall wx f,
            workers wx = workers w2 -> heap wx = heap w2 ->
            (forall pwx, workers wx !! i = Some pwx ->
               workers (f wx) !! i = Some (set_conn_client None pwx)
               /\ heap (f wx) !! cptr = None
               /\ (forall j, j <> i -> workers (f wx) !! j = workers wx !! j)
               /\ (forall p, p <> cptr -> heap (f wx) !! p = heap wx !! p)
               /\ In (EvCall "conn_free" cptr) (trace (f wx))
               /\ In (EvCall "free" cptr) (trace (f wx))
               /\ length (workers (f wx)) = length (workers wx)) ->
            (exists pw', workers (f wx) !! i = Some pw'
                         /\ conn_client pw' = None)
            /\ heap (f wx) !! cptr = None
            /\ (forall j, j <> i -> workers (f wx) !! j = workers w !! j)
            /\ (forall p, p <> cptr -> heap (f wx) !! p = heap w !! p)
            /\ In (EvCall "conn_free" cptr) (trace (f wx))
            /\ In (EvCall "free" cptr) (trace (f wx))
            /\ length (workers (f wx)) = length (workers w)).
  { intros wx f Hwx Hhx Hf.
    assert (Hpw : workers wx !! i = Some pw1)
      by (rewrite Hwx, Hw2; by apply list_lookup_insert_eq).
    destruct (Hf pw1 Hpw) as (F1 & F2 & F3 & F4 & F5 & F6 & F7).
    split; [by eexists|]. split; [done|].
    split.
    { intros j Hj. rewrite F3, Hwx, Hw2 by done.
      by apply list_lookup_insert_ne. }
    split.
    { intros p Hp. rewrite F4, Hhx, Hh2 by done.
      by apply lookup_insert_ne. }
    split; [done|]. split; [done|].
    by rewrite F7, Hwx, Hw2, length_insert. }
  destruct (ret <? 0).
  { intros [= <-].
    destruct (lost_connection ret);
      (apply (Hfinal _ (worker_release i cptr));
       [by autorewrite with world | by autorewrite with world
       | apply worker_release_result]). }
  match goal with
  | |- context [slot_loop ?r ?n ?k ?x ?y] =>
      destruct (slot_loop_keeps r n k x y) as (W3 & H3);
      destruct (slot_loop r n k x y) as [[ret3 k3] w3]
  end.
  cbn [snd] in W3, H3. autorewrite with world in W3, H3.
  change (workers (proxy_update_registration w2)) with (workers w2) in W3.
  destruct (ret3 <? 0).
  { intros [= <-].
    destruct (ret3 =? - EBUSY);
      (apply (Hfinal _ (proxy_worker_func_exit i cptr));
       [by autorewrite with world | by autorewrite with world
       | apply proxy_worker_func_exit_result]). }
  destruct (serve_loop (process_rets e)) as [n|]; [|discriminate].
  intros [= <-].
  apply (Hfinal _ (proxy_worker_func_exit i cptr));
    [ unfold proxy_conn_finish; by autorewrite with world
    | unfold proxy_conn_finish; by autorewrite with world
    | apply proxy_worker_func_exit_result ].
Qed.

Lemma worker_func_releases_witness :
  workers (world_client reply_w1aw) !! 0%nat
  = Some (mk_pw true (Some 7%nat) (replicate 12 0))
  /\ heap (world_client reply_w1aw) !! 7%nat
     = Some (conn_of_reply reply_w1aw)
  /\ exists w',
       proxy_worker_func MD5.md5 worker_env_ok 0 (world_client reply_w1aw)
       = Some w'
       /\ heap w' !! 7%nat = None
       /\ length (workers w') = 1%nat.
Proof.
  assert (H1 : workers (world_client reply_w1aw) !! 0%nat
               = Some (mk_pw true (Some 7%nat) (replicate 12 0)))
    by reflexivity.
  assert (H2 : heap (world_client reply_w1aw) !! 7%nat
               = Some (conn_of_reply reply_w1aw)) by reflexivity.
  assert (H3 : exists w',
             proxy_worker_func MD5.md5 worker_env_ok 0
               (world_client reply_w1aw) = Some w').
  { eexists. vm_compute. reflexivity. }
  split; [exact H1|]. split; [exact H2|].
  destruct H3 as [w' H3]. exists w'. split; [exact H3|].
  destruct (worker_func_releases MD5.md5 worker_env_ok 0
              (world_client reply_w1aw) w' _ 7 _ H1 eq_refl H2 H3)
    as (_ & Hh & _ & _ & _ & _ & Hl).
  split; [exact Hh | exact Hl].
Defined.


(** The calls on collaborators recorded in a trace. *)

Lemma calls_of_app (t1 t2 : list event) :
  calls_of (t1 ++ t2) = calls_of t1 ++ calls_of t2.
Proof. apply List.filter_app. Qed.

Lemma calls_proxy_log lvl fmt w :
  calls_of (trace (proxy_log lvl fmt w)) = calls_of (trace w).
Proof.
  unfold proxy_log. destruct (_ || _); [done|].
  cbn [trace emit]. rewrite calls_of_app. cbn. apply app_nil_r.
Qed.





(** ** The acceptor *)

Lemma set_conn_client_reset (pw : proxy_worker) (new : option nat) :
  conn_client pw = None ->
  set_conn_client None (set_conn_client new pw) = pw.
Proof. destruct pw as [ph cc cs]. simpl. by intros ->. Qed.

(** The loop over the workers either leaves the array as it is, or ends with
    a non-negative value after storing the connection in one idle worker,
    every worker before which has answered busy. *)
Lemma probe_loop_result wake conn : forall n i ret ws tr,
  let '(ret', ws', tr') := probe_loop wake conn n i ret ws tr in
  (ws' = ws /\ (ret' = ret \/ ret' < 0))
  \/ (0 <= ret'
      /\ exists j pw, (i <= j < i + n)%nat /\ ws !! j = Some pw
           /\ conn_client pw = None /\ ret' = wake j
           /\ ws' = <[j := set_conn_client conn pw]> ws
           /\ forall t, (i <= t < j)%nat ->
                exists pt, ws !! t = Some pt
                  /\ (conn_client pt <> None \/ wake t = - EBUSY)).
Proof.
  induction n as [|n IH]; intros i ret ws tr; cbn [probe_loop].
  - left. split; [done | by left].
  - destruct (ws !! i) as [pw|] eqn:Hpw; [|left; split; [done | by left]].
    assert (Hnext : forall r t,
              (conn_client pw <> None \/ wake i = - EBUSY) ->
              let '(ret', ws', tr') := probe_loop wake conn n (S i) r ws t in
              r = - EBUSY ->
              (ws' = ws /\ (ret' = ret \/ ret' < 0))
              \/ (0 <= ret'
                  /\ exists j pj, (i <= j < i + S n)%nat /\ ws !! j = Some pj
                       /\ conn_client pj = None /\ ret' = wake j
                       /\ ws' = <[j := set_conn_client conn pj]> ws
                       /\ forall t, (i <= t < j)%nat ->
                            exists pt, ws !! t = Some pt
                              /\ (conn_client pt <> None
                                  \/ wake t = - EBUSY))).
    { intros r t Hbusy. specialize (IH (S i) r ws t).
      destruct (probe_loop _ _ _ _ _ _ _) as [[ret' ws'] tr'].
      intros ->.
      destruct IH as [(-> & Hr)|(Hpos & j & pj & Hj & Hpj & Hcj & Hrj & Hws & Hb)].
      - left. split; [done|]. right. unfold EBUSY in *. lia.
      - right. split; [done|]. exists j, pj.
        repeat split; try done; try lia.
        intros t0 Ht. destruct (decide (t0 = i)) as [->|Hne].
        + by exists pw.
        + apply Hb. lia. }
    destruct (conn_client pw) as [cl|] eqn:Hcl.
    + rewrite (proxy_worker_accept_busy _ _ _ _ _ _ Hcl).
      change (negb (- EBUSY =? - EBUSY)) with false. cbv iota.
      rewrite list_insert_id by done.
      match goal with
      | |- context [probe_loop wake conn n (S i) ?r ws ?t] =>
          specialize (Hnext r t ltac:(by left))
      end.
      destruct (probe_loop _ _ _ _ _ _ _) as [[ret' ws'] tr'].
      by apply Hnext.
    + rewrite (proxy_worker_accept_idle _ _ _ _ _ Hcl).
      destruct (wake i =? - EBUSY) eqn:Eb; cbn [negb].
      * apply Z.eqb_eq in Eb. rewrite Eb.
        change (- EBUSY <? 0) with true. cbv iota.
        rewrite set_conn_client_reset by done.
        rewrite list_insert_id by done.
        match goal with
        | |- context [probe_loop wake conn n (S i) ?r ws ?t] =>
            specialize (Hnext r t ltac:(by right))
        end.
        destruct (probe_loop _ _ _ _ _ _ _) as [[ret' ws'] tr'].
        by apply Hnext.
      * apply Z.eqb_neq in Eb.
        destruct (wake i <? 0) eqn:Ew.
        -- apply Z.ltb_lt in Ew. rewrite set_conn_client_reset by done.
           rewrite list_insert_id by done. left. split; [done | by right].
        -- apply Z.ltb_ge in Ew. right. split; [done|].
           exists i, pw. repeat split; try done; try lia.
Qed.

Lemma fresh_conn_unused (w : world) : heap w !! fresh (dom (heap w)) = None.
Proof. apply not_elem_of_dom, is_fresh. Qed.

(** X9: [proxy_process] returns 0 or a negative value, and a failed cycle
    leaves no trace in memory: when it returns a negative value (allocation
    failure, [conn_init] or [conn_accept] failure, failed wake-up of a
    worker) the new connection has been freed, the heap is what it was before
    the call and no worker has changed. *)
Theorem proxy_process_failure_clean (e : process_env) (w : world) :
  let '(ret, w') := proxy_process e w in
  ret <= 0
  /\ (ret < 0 -> heap w' = heap w /\ workers w' = workers w).
Proof.
  unfold proxy_process, conn_process_exit.
  pose proof (fresh_conn_unused w) as Hfresh.
  set (conn := fresh (dom (heap w))) in *.
  destruct (malloc_conn_ok e); cbn [negb];
    [|unfold ENOMEM; split; [lia | done]].
  destruct (conn_init_ret e <? 0) eqn:Ei.
  { apply Z.ltb_lt in Ei. split; [lia|]. intros _.
    autorewrite with world. by rewrite delete_insert_id. }
  destruct (conn_accept_ret e <? 0) eqn:Ea.
  { apply Z.ltb_lt in Ea. split; [lia|]. intros _.
    autorewrite with world.
    by rewrite delete_alter_eq, delete_insert_id. }
  autorewrite with world.
  match goal with
  | |- context [probe_loop ?a ?b ?n ?i ?r ?ws ?t] =>
      pose proof (probe_loop_result a b n i r ws t) as Hp;
      destruct (probe_loop a b n i r ws t) as [[ret' ws'] tr']
  end.
  apply Z.ltb_ge in Ea.
  destruct (ret' =? - EBUSY) eqn:Eb; [split; [lia | intros; lia]|].
  destruct (ret' <? 0) eqn:En; [|split; [lia | intros; lia]].
  apply Z.ltb_lt in En. split; [lia|]. intros _.
  destruct Hp as [(-> & _)|(Hpos & _)]; [|lia].
  split.
  - destruct (client_workers (priv w)); autorewrite with world;
      by rewrite delete_alter_eq, delete_insert_eq, delete_insert_id.
  - destruct (client_workers (priv w)) eqn:Ecw; autorewrite with world; done.
Qed.

Lemma probe_loop_first_idle wake conn (j : nat) : forall n ret ws tr pw,
  (forall t, (t < j)%nat ->
     exists pt ct, ws !! t = Some pt /\ conn_client pt = Some ct) ->
  ws !! j = Some pw -> conn_client pw = None -> 0 <= wake j ->
  (j < n)%nat ->
  probe_loop wake conn n 0 ret ws tr
  = (wake j, <[j := set_conn_client conn pw]> ws,
     tr ++ busy_probes 0 j
        ++ [EvMutexLock (MxWorker j); EvWorkerWake j;
            EvMutexUnlock (MxWorker j)]).
Proof.
  intros n ret ws tr pw Hbusy Hpw Hcl Hwake Hn.
  replace n with (j + S (n - S j))%nat by lia.
  rewrite probe_loop_busy by (intros t Ht; apply Hbusy; lia).
  cbn [Nat.add probe_loop]. rewrite Hpw.
  rewrite (proxy_worker_accept_idle _ _ _ _ _ Hcl).
  rewrite (proj2 (Z.ltb_ge _ _) Hwake).
  assert (Hne : (wake j =? - EBUSY) = false)
    by (apply Z.eqb_neq; unfold EBUSY; lia).
  rewrite Hne. cbn [negb]. by rewrite <- !app_assoc.
Qed.

(** X10: the acceptor is first-fit.  When a client has been accepted, the
    usable workers before worker [j] are busy, worker [j] is idle and its
    wake-up succeeds, [proxy_process] returns 0, worker [j] and no other
    holds the new connection, the connection stays open in memory, and the
    workers after [j] are not even probed. *)
Theorem proxy_process_first_fit (e : process_env) (w : world) (j : nat)
    (pw : proxy_worker) :
  malloc_conn_ok e = true ->
  0 <= conn_init_ret e ->
  0 <= conn_accept_ret e ->
  (Z.of_nat j < usable_clients (priv w)) ->
  (forall t, (t < j)%nat ->
     exists pt ct, workers w !! t = Some pt /\ conn_client pt = Some ct) ->
  workers w !! j = Some pw ->
  conn_client pw = None ->
  0 <= wake_ret e j ->
  let conn := fresh (dom (heap w)) in
  let '(ret, w') := proxy_process e w in
  ret = 0
  /\ workers w' = <[j := set_conn_client (Some conn) pw]> (workers w)
  /\ heap w' = <[conn := accepted e]> (heap w)
  /\ heap w !! conn = None
  /\ (exists before,
        trace w'
        = before ++ busy_probes 0 j
            ++ [EvMutexLock (MxWorker j); EvWorkerWake j;
                EvMutexUnlock (MxWorker j);
                EvMutexUnlockShared MxUsableClients]).
Proof.
  intros Hm Hi Ha Hu Hbusy Hpw Hcl Hwake conn.
  unfold proxy_process. rewrite Hm. cbn [negb].
  rewrite (proj2 (Z.ltb_ge _ _) Hi), (proj2 (Z.ltb_ge _ _) Ha).
  autorewrite with world. fold conn.
  rewrite (probe_loop_first_idle (wake_ret e) (Some conn) j _ _ _ _ pw)
    by (try done; lia).
  assert (Hne : (wake_ret e j =? - EBUSY) = false)
    by (apply Z.eqb_neq; unfold EBUSY; lia).
  rewrite Hne, (proj2 (Z.ltb_ge _ _) Hwake).
  destruct (client_workers (priv w)) as [ws|] eqn:Ews.
  2:{ unfold workers in Hpw. rewrite Ews in Hpw. discriminate. }
  split; [done|]. autorewrite with world.
  split; [done|].
  split; [by rewrite insert_insert_eq|].
  split; [apply fresh_conn_unused|].
  match goal with
  | |- exists before, (?T ++ _) ++ _ = _ => exists T
  end.
  by rewrite <- !app_assoc.
Qed.

Lemma proxy_process_first_fit_witness :
  malloc_conn_ok process_env_ok = true
  /\ 0 <= conn_init_ret process_env_ok
  /\ 0 <= conn_accept_ret process_env_ok
  /\ Z.of_nat 1 < usable_clients (priv world_busy_first)
  /\ (forall t, (t < 1)%nat ->
        exists pt ct,
          workers world_busy_first !! t = Some pt /\ conn_client pt = Some ct)
  /\ workers world_busy_first !! 1%nat
     = Some (mk_pw true None (replicate 12 0))
  /\ 0 <= wake_ret process_env_ok 1
  /\ let conn := fresh (dom (heap world_busy_first)) in
     let '(ret, w') := proxy_process process_env_ok world_busy_first in
     ret = 0
     /\ workers w'
        = [mk_pw true (Some 7%nat) (replicate 12 0);
           mk_pw true (Some conn) (replicate 12 0);
           mk_pw true None (replicate 12 0)]
     /\ heap w' !! conn = Some (conn_of_reply reply_w1aw)
     /\ exists before,
          trace w'
          = before
            ++ [EvMutexLock (MxWorker 0); EvMutexUnlock (MxWorker 0);
                EvMutexLock (MxWorker 1); EvWorkerWake 1;
                EvMutexUnlock (MxWorker 1);
                EvMutexUnlockShared MxUsableClients].
Proof.
  assert (H1 : malloc_conn_ok process_env_ok = true) by reflexivity.
  assert (H2 : 0 <= conn_init_ret process_env_ok) by (simpl; lia).
  assert (H3 : 0 <= conn_accept_ret process_env_ok) by (simpl; lia).
  assert (H4 : Z.of_nat 1 < usable_clients (priv world_busy_first))
    by reflexivity.
  assert (H5 : forall t, (t < 1)%nat ->
             exists pt ct,
               workers world_busy_first !! t = Some pt
               /\ conn_client pt = Some ct).
  { intros t Ht. assert (t = 0%nat) as -> by lia.
    exists (mk_pw true (Some 7%nat) (replicate 12 0)), 7%nat.
    split; reflexivity. }
  assert (H6 : workers world_busy_first !! 1%nat
               = Some (mk_pw true None (replicate 12 0))) by reflexivity.
  assert (H8 : 0 <= wake_ret process_env_ok 1) by (simpl; lia).
  do 7 (split; [assumption|]).
  pose proof (proxy_process_first_fit process_env_ok world_busy_first 1 _
                H1 H2 H3 H4 H5 H6 eq_refl H8) as H.
  cbv zeta in H |- *.
  destruct (proxy_process _ _) as [ret w'].
  destruct H as (Hret & Hws & Hh & _ & Htr).
  split; [exact Hret|]. split; [rewrite Hws; reflexivity|].
  split; [rewrite Hh; apply lookup_insert_eq|].
  exact Htr.
Defined.

(** ** Roll-back in proxy_open *)

Lemma proxy_open_exit_rollback ret w :
  let '(r, w') := proxy_open_exit ret w in
  r = ret
  /\ clients (priv w') = None /\ client_workers (priv w') = None
  /\ re_calls_allowed (priv w') = None /\ num_clients (priv w') = 0
  /\ heap w' = heap w.
Proof.
  unfold proxy_open_exit.
  destruct (re_calls_allowed (priv w)) eqn:E; by repeat split.
Qed.

Lemma proxy_open_exit_late_rollback ret w :
  let '(r, w') := proxy_open_exit_late ret w in
  r = ret
  /\ clients (priv w') = None /\ client_workers (priv w') = None
  /\ re_calls_allowed (priv w') = None /\ num_clients (priv w') = 0
  /\ heap w' = heap w.
Proof.
  unfold proxy_open_exit_late.
  pose proof (proxy_open_exit_rollback ret
                (emits (calls_up "proxy_conn_free" (num_clients (priv w))) w))
    as H.
  destruct (proxy_open_exit _ _) as [r w']. exact H.
Qed.

Lemma proxy_open_exit_later_rollback ret w :
  let '(r, w') := proxy_open_exit_later ret w in
  r = ret
  /\ clients (priv w') = None /\ client_workers (priv w') = None
  /\ re_calls_allowed (priv w') = None /\ num_clients (priv w') = 0
  /\ heap w' = heap w.
Proof.
  unfold proxy_open_exit_later.
  pose proof (proxy_open_exit_late_rollback ret
                (emits (calls_up "proxy_worker_free" (num_clients (priv w))) w))
    as H.
  destruct (proxy_open_exit_late _ _) as [r w']. exact H.
Qed.

(** X11: [proxy_open] returns 0 or a negative value.  When it fails after
    the slot array has been allocated, it has rolled back: [clients] and
    [client_workers] are NULL again, [num_clients] is 0 and the allowing
    expression has been freed.  When the allocation of the slot array itself
    fails, it returns [-ENOMEM] at once, without rolling back: [clients] is
    NULL, whatever it was before, [client_workers] and the rest of the
    private data are untouched, and [num_clients] keeps the number of slots
    that were asked for, which is at least 1, so that the arrays no longer
    hold [num_clients] elements. *)
Theorem proxy_open_rollback (e : open_env) (w : world) :
  let '(ret, w') := proxy_open e w in
  (ret = 0 \/ ret < 0)
  /\ (ret < 0 -> malloc_clients_ok e = true ->
      clients (priv w') = None /\ client_workers (priv w') = None
      /\ num_clients (priv w') = 0 /\ re_calls_allowed (priv w') = None)
  /\ (malloc_clients_ok e = false ->
      ret = - ENOMEM
      /\ w' = upd_priv (set_clients None)
                (upd_priv
                   (set_num_clients (1 + bind_addr_ext_add_len (conf w))) w)
      /\ clients (priv w') = None
      /\ 1 <= num_clients (priv w')
      /\ ~ handle_ok w').
Proof.
  unfold proxy_open.
  destruct (malloc_clients_ok e) eqn:Em; cbn [negb].
  2:{ assert (Hlen : 0 <= bind_addr_ext_add_len (conf w)).
      { unfold bind_addr_ext_add_len. destruct (bind_addr_ext_add _); lia. }
      unfold ENOMEM. split; [right; lia|]. split; [done|]. intros _.
      split; [done|]. split; [done|]. autorewrite with world.
      cbn [clients num_clients set_clients set_num_clients].
      split; [done|]. split; [lia|].
      intros (_ & _ & Hs & _). unfold slots in Hs.
      autorewrite with world in Hs.
      cbn [clients num_clients set_clients set_num_clients default length]
        in Hs.
      lia. }
  assert (Hexit : forall r wx,
            r < 0 ->
            let '(ret, w') := proxy_open_exit r wx in
            (ret = 0 \/ ret < 0)
            /\ (ret < 0 -> true = true ->
                clients (priv w') = None /\ client_workers (priv w') = None
                /\ num_clients (priv w') = 0
                /\ re_calls_allowed (priv w') = None)
            /\ (true = false ->
                ret = - ENOMEM
                /\ w' = upd_priv (set_clients None)
                          (upd_priv
                             (set_num_clients
                                (1 + bind_addr_ext_add_len (conf w))) w)
                /\ clients (priv w') = None
                /\ 1 <= num_clients (priv w')
                /\ ~ handle_ok w')).
  { intros r wx Hr. pose proof (proxy_open_exit_rollback r wx) as H.
    destruct (proxy_open_exit r wx) as [ret w'].
    destruct H as (-> & H1 & H2 & H3 & H4 & _).
    split; [by right|]. split; [done|]. discriminate. }
  destruct (malloc_workers_ok e); cbn [negb];
    [|apply Hexit; unfold ENOMEM; lia].
  destruct (log_open_ret e <? 0) eqn:El;
    [apply Hexit; by apply Z.ltb_lt|].
  destruct (open_regex e _ re_calls_allowed _ _ _ _ _) as [[r4|] w4] eqn:E4;
    [apply Hexit; by apply open_regex_fail in E4|].
  destruct (open_regex e _ re_calls_denied _ _ _ _ _) as [[r5|] w5] eqn:E5;
    [apply Hexit; by apply open_regex_fail in E5|].
  destruct (conn_init_loop e _ _ _) as [[r6|] w6] eqn:E6;
    [apply Hexit; by apply conn_init_loop_fail in E6|].
  destruct (worker_init_loop e _ _ _) as [[r7|] w7] eqn:E7.
  { apply worker_init_loop_fail in E7.
    pose proof (proxy_open_exit_late_rollback r7 w7) as H.
    destruct (proxy_open_exit_late r7 w7) as [ret w'].
    destruct H as (-> & H1 & H2 & H3 & H4 & _).
    split; [by right|]. split; [done|]. discriminate. }
  destruct (conn_listen_ret e <? 0) eqn:Ec.
  { apply Z.ltb_lt in Ec.
    match goal with
    | |- context [proxy_open_exit_later ?r ?x] =>
        pose proof (proxy_open_exit_later_rollback r x) as H;
        destruct (proxy_open_exit_later r x) as [ret w']
    end.
    destruct H as (-> & H1 & H2 & H3 & H4 & _).
    split; [by right|]. split; [done|]. discriminate. }
  split; [by left|]. split; [lia | discriminate].
Qed.

Example proxy_open_rollback_listen :
  let '(ret, w') :=
    proxy_open
      (mk_open_env true true 0 true 0 (fun _ => 0) (fun _ _ => RE_NOMATCH)
         (fun _ => 0) (fun _ => 0) (fun _ => 0) (-98))
      (snd (proxy_load_conf (load_env_of conf_two_ext) world_init)) in
  ret = -98 /\ clients (priv w') = None /\ num_clients (priv w') = 0.
Proof. vm_compute. done. Qed.

Example proxy_open_rollback_slots :
  let '(ret, w') :=
    proxy_open
      (mk_open_env false true 0 true 0 (fun _ => 0) (fun _ _ => RE_NOMATCH)
         (fun _ => 0) (fun _ => 0) (fun _ => 0) 0)
      world_open in
  ret = - ENOMEM /\ clients (priv w') = None
  /\ client_workers (priv w') = client_workers (priv world_open)
  /\ num_clients (priv w') = 1.
Proof. vm_compute. done. Qed.

(** ** The arrays after a successful proxy_open *)

Lemma conn_init_loop_workers e : forall n i w,
  workers (snd (conn_init_loop e i n w)) = workers w
  /\ re_calls_allowed (priv (snd (conn_init_loop e i n w)))
     = re_calls_allowed (priv w)
  /\ re_calls_denied (priv (snd (conn_init_loop e i n w)))
     = re_calls_denied (priv w).
Proof.
  induction n as [|n IH]; intros i w; cbn [conn_init_loop]; [done|].
  destruct (proxy_conn_init_ret e i <? 0).
  - cbn [snd]. by autorewrite with world.
  - destruct (IH (S i) (emit (EvCall "proxy_conn_init" i)
                          (set_slots (alter set_pc_ph i (slots w)) w)))
      as (A & B & C).
    rewrite A, B, C. by autorewrite with world.
Qed.

Lemma open_regex_allowed_success e pat idx f1 f2 w w' :
  open_regex e pat re_calls_allowed set_re_calls_allowed idx f1 f2 w = (None, w') ->
  re_calls_allowed (priv w')
  = (fun p => mk_regex (regex_engine e p)) <$> pat
  /\ re_calls_denied (priv w') = re_calls_denied (priv w)
  /\ workers w' = workers w.
Proof.
  unfold open_regex, workers.
  intros H. repeat case_match; simplify_eq; autorewrite with world; done.
Qed.

Lemma open_regex_denied_success e pat idx f1 f2 w w' :
  open_regex e pat re_calls_denied set_re_calls_denied idx f1 f2 w = (None, w') ->
  re_calls_denied (priv w')
  = (fun p => mk_regex (regex_engine e p)) <$> pat
  /\ re_calls_allowed (priv w') = re_calls_allowed (priv w)
  /\ workers w' = workers w.
Proof.
  unfold open_regex, workers.
  intros H. repeat case_match; simplify_eq; autorewrite with world; done.
Qed.

Lemma worker_init_loop_workers e : forall n i w,
  map conn_client (workers (snd (worker_init_loop e i n w)))
  = map conn_client (workers w)
  /\ re_calls_allowed (priv (snd (worker_init_loop e i n w)))
     = re_calls_allowed (priv w)
  /\ re_calls_denied (priv (snd (worker_init_loop e i n w)))
     = re_calls_denied (priv w).
Proof.
  induction n as [|n IH]; intros i w; cbn [worker_init_loop]; [done|].
  assert (Hstep : forall ws,
            map conn_client (alter set_pw_ph i ws) = map conn_client ws).
  { intros ws. apply list_eq. intros j.
    change (map conn_client (alter set_pw_ph i ws))
      with (conn_client <$> alter set_pw_ph i ws).
    change (map conn_client ws) with (conn_client <$> ws).
    rewrite !list_lookup_fmap.
    destruct (decide (i = j)) as [->|Hne].
    - rewrite list_lookup_alter_eq. by destruct (ws !! j).
    - by rewrite list_lookup_alter_ne. }
  assert (Hinit : forall wx,
            workers (snd (proxy_worker_init e i wx)) = workers wx
            /\ priv (snd (proxy_worker_init e i wx)) = priv wx).
  { intros wx. unfold proxy_worker_init. by repeat case_match. }
  destruct (Hinit (set_workers (alter set_pw_ph i (workers w)) w))
    as (W1 & P1).
  destruct (proxy_worker_init _ _ _) as [ret w1]. cbn [snd] in W1, P1.
  destruct (ret <? 0).
  - cbn [snd]. autorewrite with world. rewrite W1, P1.
    autorewrite with world. by rewrite Hstep.
  - destruct (IH (S i) w1) as (A & B & C).
    rewrite A, B, C, W1, P1. autorewrite with world. by rewrite Hstep.
Qed.

(** What a successful [proxy_open] leaves in the worker array and in the
    two expressions. *)
Lemma proxy_open_success (e : open_env) (w w' : world) :
  proxy_open e w = (0, w') ->
  length (workers w') = S (length (additional_addrs (conf w)))
  /\ Forall (fun pw => conn_client pw = None) (workers w')
  /\ re_calls_allowed (priv w')
     = (fun p => mk_regex (regex_engine e p)) <$> calls_allowed (conf w)
  /\ re_calls_denied (priv w')
     = (fun p => mk_regex (regex_engine e p)) <$> calls_denied (conf w).
Proof.
  unfold proxy_open.
  set (K := length (additional_addrs (conf w))).
  set (w1 := upd_priv (set_num_clients (1 + bind_addr_ext_add_len (conf w))) w).
  assert (Hn : Z.to_nat (num_clients (priv w1)) = S K).
  { subst w1 K. autorewrite with world. cbn [num_clients set_num_clients].
    unfold bind_addr_ext_add_len, additional_addrs.
    destruct (bind_addr_ext_add (conf w)); simpl; lia. }
  rewrite Hn.
  assert (Hexit : forall r wx, r < 0 -> proxy_open_exit r wx <> (0, w')).
  { intros r wx Hr Heq. pose proof (proxy_open_exit_rollback r wx) as H.
    rewrite Heq in H. lia. }
  destruct (malloc_clients_ok e); cbn [negb]; [|discriminate].
  destruct (malloc_workers_ok e); cbn [negb];
    [|intros H; by apply Hexit in H].
  destruct (log_open_ret e <? 0) eqn:El;
    [intros H; apply Hexit in H; [done | by apply Z.ltb_lt]|].
  set (w3 := set_workers (replicate (S K) pw_zero) _).
  pose proof (open_regex_allowed_kept e (calls_allowed (conf w3)) 0
                "Failed to initialize allowed callsigns regex (%d): %s"
                "Failed to compile allowed callsigns regex (%d): %s" w3) as K4.
  destruct (open_regex e _ re_calls_allowed _ _ _ _ _) as [[r4|] w4] eqn:E4;
    [intros H; apply Hexit in H; [done | by apply open_regex_fail in E4]|].
  cbn [snd] in K4.
  apply open_regex_allowed_success in E4 as (A4 & _ & W4).
  destruct (open_regex e _ re_calls_denied _ _ _ _ _) as [[r5|] w5] eqn:E5;
    [intros H; apply Hexit in H; [done | by apply open_regex_fail in E5]|].
  pose proof (open_regex_denied_kept e (calls_denied (conf w4)) 1
                "Failed to initialize denied callsigns regex (%d): %s"
                "Failed to compile denied callsigns regex (%d): %s" w4) as K5.
  rewrite E5 in K5. cbn [snd] in K5.
  apply open_regex_denied_success in E5 as (D5 & A5 & W5).
  match goal with
  | |- context [conn_init_loop e 0 (S K) ?x] =>
      destruct (conn_init_loop_workers e (S K) 0 x) as (W6 & A6 & D6);
      destruct (conn_init_loop e 0 (S K) x) as [[r6|] w6] eqn:E6
  end;
    [intros H; apply Hexit in H; [done | by apply conn_init_loop_fail in E6]|].
  cbn [snd] in W6, A6, D6. autorewrite with world in W6, A6, D6.
  cbn [re_calls_allowed re_calls_denied set_clients] in A6, D6.
  destruct (worker_init_loop_workers e (S K) 0 w6) as (W7 & A7 & D7).
  destruct (worker_init_loop e 0 (S K) w6) as [[r7|] w7] eqn:E7.
  { apply worker_init_loop_fail in E7. intros H.
    pose proof (proxy_open_exit_late_rollback r7 w7) as Hx.
    rewrite H in Hx. lia. }
  cbn [snd] in W7, A7, D7.
  destruct (conn_listen_ret e <? 0) eqn:Ec.
  { apply Z.ltb_lt in Ec. intros H.
    match type of H with
    | proxy_open_exit_later ?r ?x = _ =>
        pose proof (proxy_open_exit_later_rollback r x) as Hx
    end.
    rewrite H in Hx. lia. }
  assert (Hws : map conn_client (workers w7) = replicate (S K) None).
  { rewrite W7, W6, W5, W4. subst w3. autorewrite with world.
    change (map conn_client (replicate (S K) pw_zero))
      with (conn_client <$> replicate (S K) pw_zero).
    by rewrite fmap_replicate. }
  assert (Hfin : forall wf,
            workers wf = workers w7 -> priv wf = priv w7 ->
            length (workers wf) = S K
            /\ Forall (fun pw => conn_client pw = None) (workers wf)
            /\ re_calls_allowed (priv wf)
               = (fun p => mk_regex (regex_engine e p))
                   <$> calls_allowed (conf w)
            /\ re_calls_denied (priv wf)
               = (fun p => mk_regex (regex_engine e p))
                   <$> calls_denied (conf w)).
  { intros wf Hwf Hpf. rewrite Hwf, Hpf.
    split.
    { apply (f_equal length) in Hws.
      by rewrite length_map, length_replicate in Hws. }
    split.
    { apply Forall_forall. intros pw Hin.
      apply list_elem_of_In, (in_map conn_client) in Hin.
      rewrite Hws in Hin. apply list_elem_of_In in Hin.
      by apply elem_of_replicate in Hin as [? _]. }
    rewrite A7, A6, A5, A4, D7, D6, D5.
    destruct K4 as (C4 & _). by rewrite C4. }
  intros [= <-].
  destruct (bind_addr _); apply Hfin; by autorewrite with world.
Qed.

(** X12: after a successful [proxy_open] there are as many workers as
    slots, every worker is idle (its [conn_client] is NULL), and each of the
    two expressions is present exactly when its pattern is configured, in
    which case it is the pattern as compiled by [regex_compile]; an
    expression left from an earlier configuration is gone. *)
Theorem proxy_open_workers (e : open_env) (w w' : world) :
  proxy_open e w = (0, w') ->
  length (workers w') = S (length (additional_addrs (conf w)))
  /\ Forall (fun pw => conn_client pw = None) (workers w')
  /\ re_calls_allowed (priv w')
     = (fun p => mk_regex (regex_engine e p)) <$> calls_allowed (conf w)
  /\ re_calls_denied (priv w')
     = (fun p => mk_regex (regex_engine e p)) <$> calls_denied (conf w).
Proof. apply proxy_open_success. Qed.

Lemma proxy_open_workers_witness :
  proxy_open open_env_ok
    (snd (proxy_load_conf (load_env_of conf_two_ext) world_init))
  = (0, snd (proxy_open open_env_ok
               (snd (proxy_load_conf (load_env_of conf_two_ext) world_init))))
  /\ length
       (workers
          (snd (proxy_open open_env_ok
                  (snd (proxy_load_conf (load_env_of conf_two_ext)
                          world_init)))))
     = 2%nat.
Proof.
  assert (H : proxy_open open_env_ok
                (snd (proxy_load_conf (load_env_of conf_two_ext) world_init))
              = (0, snd (proxy_open open_env_ok
                           (snd (proxy_load_conf (load_env_of conf_two_ext)
                                   world_init))))).
  { vm_compute. reflexivity. }
  split; [exact H|].
  exact (proj1 (proxy_open_workers open_env_ok _ _ H)).
Defined.

(** ** Loading a configuration *)

(** X13: what [proxy_load_conf] returns.  A failure of the parser is
    returned as it is, before the port string is set.  After a successful
    parse the result is 0 exactly when there is no list of additional
    external addresses or the external address is set and is not "0.0.0.0",
    and [-EINVAL] otherwise; the port string has been set in both cases.  The
    parsed configuration is in the handle whatever the outcome, and the
    counters and the heap are not touched. *)
Theorem proxy_load_conf_result (e : load_env) (w : world) :
  let '(ret, w') := proxy_load_conf e w in
  conf w' = parsed_conf e
  /\ heap w' = heap w
  /\ counters_kept w w'
  /\ (parse_ret e < 0 -> ret = parse_ret e /\ priv w' = priv w)
  /\ (0 <= parse_ret e ->
      port_str (priv w') = port_to_str e (port (parsed_conf e))
      /\ (ret = 0 \/ ret = - EINVAL)
      /\ (ret = 0 <->
          bind_addr_ext_add (parsed_conf e) = None
          \/ exists a, bind_addr_ext (parsed_conf e) = Some a
                       /\ a <> "0.0.0.0"%string)).
Proof.
  unfold proxy_load_conf, counters_kept.
  destruct (parse_ret e <? 0) eqn:Ep.
  { apply Z.ltb_lt in Ep. autorewrite with world.
    split_and!; try done; intros; lia. }
  apply Z.ltb_ge in Ep. autorewrite with world.
  destruct (bind_addr_ext_add (parsed_conf e)) as [adds|] eqn:Ea.
  2:{ autorewrite with world. cbn [port_str set_port_str].
      split_and!; try done; try (intros; lia).
      intros _. split; [done|]. split; [by left|]. split; auto. }
  destruct (bind_addr_ext (parsed_conf e)) as [a|] eqn:Eb.
  - destruct (String.eqb a "0.0.0.0") eqn:Es.
    + apply String.eqb_eq in Es. subst a. autorewrite with world.
      cbn [port_str set_port_str].
      split_and!; try done; try (intros; lia).
      intros _. split; [done|]. split; [by right|].
      split; [unfold EINVAL; lia|].
      intros [H|(a & [= <-] & Ha)]; done.
    + apply String.eqb_neq in Es. autorewrite with world.
      cbn [port_str set_port_str].
      split_and!; try done; try (intros; lia).
      intros _. split; [done|]. split; [by left|].
      split; [|done]. intros _. right. by exists a.
  - autorewrite with world. cbn [port_str set_port_str].
    split_and!; try done; try (intros; lia).
    intros _. split; [done|]. split; [by right|].
    split; [unfold EINVAL; lia|].
    intros [H|(a & H & _)]; done.
Qed.

Example proxy_load_conf_empty_list :
  fst (proxy_load_conf
         (load_env_of
            (mk_conf (bytes_of_string "test") None 8100 None (Some []) None
               None))
         world_init)
  = - EINVAL.
Proof. reflexivity. Qed.

(** ** Shutdown *)

Lemma take_slots_ok (w : world) :
  handle_ok w -> take (Z.to_nat (num_clients (priv w))) (slots w) = slots w.
Proof. intros (_ & _ & Hs & _). apply take_ge. lia. Qed.

(** X14: nothing is dispatched after a shutdown.  On a handle whose arrays
    hold [num_clients] elements, [proxy_shutdown] changes nothing of the
    private data but [usable_clients], which becomes 0, and the last thing
    it tells the registration service is the number of slots in use with
    no slot available; a [proxy_process] that follows it probes no worker,
    so the workers are what they were before the shutdown, whatever client
    connects. *)
Theorem proxy_shutdown_stops_dispatch (e : process_env) (w : world) :
  handle_ok w ->
  priv (proxy_shutdown w) = set_usable_clients 0 (priv w)
  /\ heap (proxy_shutdown w) = heap w
  /\ conf (proxy_shutdown w) = conf w
  /\ handle_ok (proxy_shutdown w)
  /\ (exists before,
        trace (proxy_shutdown w)
        = before
          ++ [EvRegistrationUpdate
                (Z.of_nat (length (filter (fun pc => in_use pc = true)
                                     (slots w)))) 0;
              EvCall "conn_shutdown" 0])
  /\ workers (snd (proxy_process e (proxy_shutdown w))) = workers w.
Proof.
  intros Hok.
  assert (Hp : priv (proxy_shutdown w) = set_usable_clients 0 (priv w)).
  { unfold proxy_shutdown. by autorewrite with world. }
  assert (Ha : priv_alloc (proxy_shutdown w) = priv_alloc w).
  { unfold proxy_shutdown. by autorewrite with world. }
  split; [exact Hp|].
  split; [unfold proxy_shutdown; by autorewrite with world|].
  split; [unfold proxy_shutdown; by autorewrite with world|].
  split.
  { destruct Hok as (A & N & S & W). unfold handle_ok, slots, workers.
    rewrite Hp, Ha. by cbn [num_clients clients client_workers
                             set_usable_clients]. }
  split.
  { unfold proxy_shutdown, proxy_update_registration.
    autorewrite with world. cbn [usable_clients set_usable_clients].
    cbn [num_clients].
    assert (Hsl : forall f wx, priv wx = priv w ->
              slots (upd_priv (set_usable_clients f) wx) = slots w).
    { intros f wx Hx. unfold slots. autorewrite with world.
      by rewrite Hx. }
    rewrite Hsl by (by autorewrite with world).
    rewrite (take_slots_ok w Hok).
    match goal with
    | |- exists before, (?T ++ [EvRegistrationUpdate _ _]) ++ _ = _ =>
        exists T
    end.
    by rewrite <- app_assoc. }
  set (ws := proxy_shutdown w) in *.
  assert (Hu : usable_clients (priv ws) = 0) by (by rewrite Hp).
  assert (Hwk : workers ws = workers w) by (unfold workers; by rewrite Hp).
  unfold proxy_process, conn_process_exit.
  autorewrite with world. rewrite Hu.
  change (Z.to_nat 0) with 0%nat. cbn [probe_loop].
  repeat case_match; simplify_eq; cbn [snd]; autorewrite with world;
    done.
Qed.

Lemma proxy_shutdown_stops_dispatch_witness :
  handle_ok world_busy_first
  /\ usable_clients (priv (proxy_shutdown world_busy_first)) = 0
  /\ workers (snd (proxy_process process_env_ok
                     (proxy_shutdown world_busy_first)))
     = workers world_busy_first.
Proof.
  assert (H : handle_ok world_busy_first).
  { unfold handle_ok. split; [reflexivity|]. split; [vm_compute; discriminate|].
    split; reflexivity. }
  split; [exact H|].
  destruct (proxy_shutdown_stops_dispatch process_env_ok world_busy_first H)
    as (Hp & _ & _ & _ & _ & Hw).
  split; [by rewrite Hp | exact Hw].
Defined.

(** ** Start *)

Lemma first_failure_at (rets : nat -> Z) : forall n k i,
  (i < n)%nat ->
  (forall t, (k <= t < k + i)%nat -> 0 <= rets t) ->
  rets (k + i)%nat < 0 ->
  first_failure rets k n = Some ((k + i)%nat, rets (k + i)%nat).
Proof.
  induction n as [|n IH]; intros k i Hi Hok Hneg; [lia|].
  cbn [first_failure]. destruct i as [|i].
  - rewrite Nat.add_0_r in *. by rewrite (proj2 (Z.ltb_lt _ _) Hneg).
  - assert (H0 : 0 <= rets k) by (apply Hok; lia).
    rewrite (proj2 (Z.ltb_ge _ _) H0).
    replace (k + S i)%nat with (S k + i)%nat in * by lia.
    apply IH; [lia| |done]. intros t Ht. apply Hok. lia.
Qed.

Lemma first_failure_none (rets : nat -> Z) : forall n k,
  (forall t, (k <= t < k + n)%nat -> 0 <= rets t) ->
  first_failure rets k n = None.
Proof.
  induction n as [|n IH]; intros k Hok; [done|].
  cbn [first_failure].
  assert (H0 : 0 <= rets k) by (apply Hok; lia).
  rewrite (proj2 (Z.ltb_ge _ _) H0).
  apply IH. intros t Ht. apply Hok. lia.
Qed.

Lemma trace_proxy_log_cases lvl fmt w :
  exists L, (L = [] \/ exists msg, L = [EvLog lvl msg])
            /\ trace (proxy_log lvl fmt w) = trace w ++ L.
Proof.
  unfold proxy_log. destruct (_ || _).
  - exists []. split; [by left | by rewrite app_nil_r].
  - exists [EvLog lvl fmt]. split; [right; by eexists | done].
Qed.

(** X15: a slot that fails to start undoes the start.  When slot [i] is the
    first whose [proxy_conn_start] fails, [proxy_start] returns that error;
    the slots before it, and only they, are stopped again, the last started
    first; no worker thread has been started, the registration service has
    not been touched, and the private data, [usable_clients] included, are
    as before the call. *)
Theorem proxy_start_slot_rollback (e : start_env) (w : world) (i : nat) :
  (i < Z.to_nat (num_clients (priv w)))%nat ->
  (forall t, (t < i)%nat -> 0 <= proxy_conn_start_ret e t) ->
  proxy_conn_start_ret e i < 0 ->
  let '(ret, w') := proxy_start e w in
  ret = proxy_conn_start_ret e i
  /\ priv w' = priv w /\ heap w' = heap w /\ conf w' = conf w
  /\ exists L,
       (L = [] \/ exists msg, L = [EvLog LOG_LEVEL_FATAL msg])
       /\ trace w'
          = trace w ++ map (EvCall "proxy_conn_start") (seq 0 (S i))
            ++ L ++ calls_down "proxy_conn_stop" i.
Proof.
  intros Hi Hok Hneg. unfold proxy_start.
  rewrite (first_failure_at _ _ 0 i Hi); [|intros t Ht; apply Hok; lia|done].
  cbn [Nat.add]. unfold proxy_start_exit_early.
  match goal with
  | |- context [proxy_log ?l ?f ?x] =>
      destruct (trace_proxy_log_cases l f x) as (L & HL & Ht)
  end.
  autorewrite with world. rewrite Ht. autorewrite with world.
  repeat split; try done.
  exists L. split; [done|]. by rewrite <- !app_assoc.
Qed.

Lemma proxy_start_slot_rollback_witness :
  (2 < Z.to_nat (num_clients (priv (world_slots 4))))%nat
  /\ (forall t, (t < 2)%nat ->
        0 <= proxy_conn_start_ret (start_env_slot_fails 2 (-98)) t)
  /\ proxy_conn_start_ret (start_env_slot_fails 2 (-98)) 2%nat < 0
  /\ fst (proxy_start (start_env_slot_fails 2 (-98)) (world_slots 4)) = -98
  /\ trace (snd (proxy_start (start_env_slot_fails 2 (-98)) (world_slots 4)))
     = [EvCall "proxy_conn_start" 0; EvCall "proxy_conn_start" 1;
        EvCall "proxy_conn_start" 2;
        EvLog LOG_LEVEL_FATAL "Failed to start proxy connection #%d (%d): %s";
        EvCall "proxy_conn_stop" 1; EvCall "proxy_conn_stop" 0].
Proof.
  assert (H1 : (2 < Z.to_nat (num_clients (priv (world_slots 4))))%nat)
    by (vm_compute; lia).
  assert (H2 : forall t, (t < 2)%nat ->
                 0 <= proxy_conn_start_ret (start_env_slot_fails 2 (-98)) t).
  { intros t Ht. cbn [proxy_conn_start_ret start_env_slot_fails].
    destruct (Nat.eqb_spec t 2); lia. }
  assert (H3 : proxy_conn_start_ret (start_env_slot_fails 2 (-98)) 2%nat < 0)
    by (vm_compute; reflexivity).
  do 3 (split; [assumption|]).
  pose proof (proxy_start_slot_rollback _ _ _ H1 H2 H3) as H.
  destruct (proxy_start _ _) as [ret w'] eqn:E.
  destruct H as (Hr & _). split; [exact Hr|].
  vm_compute in E. injection E as _ <-. reflexivity.
Defined.

(** X16: a worker that fails to start undoes the start.  When every slot
    starts and worker [i] is the first whose [worker_start] fails,
    [proxy_start] returns that error; the workers before it are joined, the
    last started first, and then every slot is stopped, the last one first.
    [usable_clients] has not been written and the registration service has
    not been touched. *)
Theorem proxy_start_worker_rollback (e : start_env) (w : world) (i : nat) :
  let n := Z.to_nat (num_clients (priv w)) in
  (forall t, (t < n)%nat -> 0 <= proxy_conn_start_ret e t) ->
  (i < n)%nat ->
  (forall t, (t < i)%nat -> 0 <= worker_start_ret e t) ->
  worker_start_ret e i < 0 ->
  let '(ret, w') := proxy_start e w in
  ret = worker_start_ret e i
  /\ priv w' = priv w /\ heap w' = heap w /\ conf w' = conf w
  /\ exists L,
       (L = [] \/ exists msg, L = [EvLog LOG_LEVEL_FATAL msg])
       /\ trace w'
          = trace w ++ map (EvCall "proxy_conn_start") (seq 0 n)
            ++ map (EvCall "worker_start") (seq 0 (S i))
            ++ L ++ calls_down "worker_join" i
            ++ calls_down "proxy_conn_stop" n.
Proof.
  intros n Hslots Hi Hok Hneg. unfold proxy_start. fold n.
  rewrite first_failure_none by (intros t Ht; apply Hslots; lia).
  rewrite (first_failure_at _ _ 0 i Hi); [|intros t Ht; apply Hok; lia|done].
  cbn [Nat.add]. unfold proxy_start_exit, proxy_start_exit_early.
  match goal with
  | |- context [proxy_log ?l ?f ?x] =>
      destruct (trace_proxy_log_cases l f x) as (L & HL & Ht)
  end.
  autorewrite with world. rewrite Ht. autorewrite with world.
  repeat split; try done.
  exists L. split; [done|]. fold n. by rewrite <- !app_assoc.
Qed.

Lemma proxy_start_worker_rollback_witness :
  (forall t, (t < Z.to_nat (num_clients (priv (world_slots 3))))%nat ->
     0 <= proxy_conn_start_ret (start_env_worker_fails 1 (-11)) t)
  /\ (1 < Z.to_nat (num_clients (priv (world_slots 3))))%nat
  /\ (forall t, (t < 1)%nat ->
        0 <= worker_start_ret (start_env_worker_fails 1 (-11)) t)
  /\ worker_start_ret (start_env_worker_fails 1 (-11)) 1%nat < 0
  /\ fst (proxy_start (start_env_worker_fails 1 (-11)) (world_slots 3)) = -11
  /\ trace (snd (proxy_start (start_env_worker_fails 1 (-11)) (world_slots 3)))
     = [EvCall "proxy_conn_start" 0; EvCall "proxy_conn_start" 1;
        EvCall "proxy_conn_start" 2;
        EvCall "worker_start" 0; EvCall "worker_start" 1;
        EvLog LOG_LEVEL_FATAL "Failed to start proxy worker #%d (%d): %s";
        EvCall "worker_join" 0;
        EvCall "proxy_conn_stop" 2; EvCall "proxy_conn_stop" 1;
        EvCall "proxy_conn_stop" 0].
Proof.
  assert (H1 : forall t,
             (t < Z.to_nat (num_clients (priv (world_slots 3))))%nat ->
             0 <= proxy_conn_start_ret (start_env_worker_fails 1 (-11)) t).
  { intros t _. cbn [proxy_conn_start_ret start_env_worker_fails]. lia. }
  assert (H2 : (1 < Z.to_nat (num_clients (priv (world_slots 3))))%nat)
    by (vm_compute; lia).
  assert (H3 : forall t, (t < 1)%nat ->
                 0 <= worker_start_ret (start_env_worker_fails 1 (-11)) t).
  { intros t Ht. cbn [worker_start_ret start_env_worker_fails].
    destruct (Nat.eqb_spec t 1); lia. }
  assert (H4 : worker_start_ret (start_env_worker_fails 1 (-11)) 1%nat < 0)
    by (vm_compute; reflexivity).
  do 4 (split; [assumption|]).
  pose proof (proxy_start_worker_rollback _ _ _ H1 H2 H3 H4) as H.
  destruct (proxy_start _ _) as [ret w'] eqn:E.
  destruct H as (Hr & _). split; [exact Hr|].
  vm_compute in E. injection E as _ <-. reflexivity.
Defined.

(** X17: a registration service that fails to start.  When every slot and
    every worker starts and [registration_service_start] fails,
    [proxy_start] returns that error after joining every worker and
    stopping every slot; by then the registration service has been told
    that [num_clients] slots are available, and [usable_clients] keeps the
    value [num_clients]: the failure path does not set it back. *)
Theorem proxy_start_registration_failure (e : start_env) (w : world) :
  let n := Z.to_nat (num_clients (priv w)) in
  (forall t, (t < n)%nat -> 0 <= proxy_conn_start_ret e t) ->
  (forall t, (t < n)%nat -> 0 <= worker_start_ret e t) ->
  reg_start_ret e < 0 ->
  let '(ret, w') := proxy_start e w in
  ret = reg_start_ret e
  /\ priv w' = set_usable_clients (num_clients (priv w)) (priv w)
  /\ heap w' = heap w /\ conf w' = conf w
  /\ exists used L,
       (L = [] \/ exists msg, L = [EvLog LOG_LEVEL_FATAL msg])
       /\ trace w'
          = trace w ++ map (EvCall "proxy_conn_start") (seq 0 n)
            ++ map (EvCall "worker_start") (seq 0 n)
            ++ [EvMutexLock MxUsableClients; EvMutexUnlock MxUsableClients;
                EvMutexLockShared MxUsableClients;
                EvMutexUnlockShared MxUsableClients;
                EvRegistrationUpdate used (num_clients (priv w));
                EvCall "registration_service_start" 0]
            ++ L ++ calls_down "worker_join" n
            ++ calls_down "proxy_conn_stop" n.
Proof.
  intros n Hslots Hworkers Hneg. unfold proxy_start. fold n.
  rewrite first_failure_none by (intros t Ht; apply Hslots; lia).
  rewrite first_failure_none by (intros t Ht; apply Hworkers; lia).
  rewrite (proj2 (Z.ltb_lt _ _) Hneg).
  unfold proxy_start_exit, proxy_start_exit_early.
  match goal with
  | |- context [proxy_log ?l ?f ?x] =>
      set (wx := x);
      destruct (trace_proxy_log_cases l f wx) as (L & HL & Ht)
  end.
  autorewrite with world. rewrite Ht. subst wx.
  unfold proxy_update_registration. autorewrite with world.
  cbn [num_clients usable_clients set_usable_clients].
  repeat split; try done.
  eexists _, L. split; [done|]. fold n.
  rewrite <- !app_assoc. cbn [app]. reflexivity.
Qed.

Lemma proxy_start_registration_failure_witness :
  (forall t, (t < Z.to_nat (num_clients (priv (world_slots 2))))%nat ->
     0 <= proxy_conn_start_ret (mk_start_env (fun _ => 0) (fun _ => 0) (-5)) t)
  /\ (forall t, (t < Z.to_nat (num_clients (priv (world_slots 2))))%nat ->
        0 <= worker_start_ret (mk_start_env (fun _ => 0) (fun _ => 0) (-5)) t)
  /\ reg_start_ret (mk_start_env (fun _ => 0) (fun _ => 0) (-5)) < 0
  /\ fst (proxy_start (mk_start_env (fun _ => 0) (fun _ => 0) (-5))
            (world_slots 2)) = -5
  /\ usable_clients
       (priv (snd (proxy_start (mk_start_env (fun _ => 0) (fun _ => 0) (-5))
                     (world_slots 2)))) = 2.
Proof.
  assert (H1 : forall t,
             (t < Z.to_nat (num_clients (priv (world_slots 2))))%nat ->
             0 <= proxy_conn_start_ret
                    (mk_start_env (fun _ => 0) (fun _ => 0) (-5)) t).
  { intros t _. cbn [proxy_conn_start_ret]. lia. }
  assert (H2 : forall t,
             (t < Z.to_nat (num_clients (priv (world_slots 2))))%nat ->
             0 <= worker_start_ret
                    (mk_start_env (fun _ => 0) (fun _ => 0) (-5)) t).
  { intros t _. cbn [worker_start_ret]. lia. }
  assert (H3 : reg_start_ret (mk_start_env (fun _ => 0) (fun _ => 0) (-5)) < 0)
    by (vm_compute; reflexivity).
  do 3 (split; [assumption|]).
  pose proof (proxy_start_registration_failure _ _ H1 H2 H3) as H.
  destruct (proxy_start _ _) as [ret w'].
  destruct H as (Hr & Hp & _). split; [exact Hr|].
  cbn [snd]. rewrite Hp. reflexivity.
Defined.

(** ** Initialisation and tear-down *)

Lemma heap_set_priv_alloc b w : heap (set_priv_alloc b w) = heap w.
Proof. reflexivity. Qed.
Lemma trace_set_priv_alloc b w : trace (set_priv_alloc b w) = trace w.
Proof. reflexivity. Qed.
Lemma conf_set_priv_alloc b w : conf (set_priv_alloc b w) = conf w.
Proof. reflexivity. Qed.
Lemma heap_set_priv p w : heap (set_priv p w) = heap w.
Proof. reflexivity. Qed.
Lemma trace_set_priv p w : trace (set_priv p w) = trace w.
Proof. reflexivity. Qed.
Lemma conf_set_priv p w : conf (set_priv p w) = conf w.
Proof. reflexivity. Qed.
Lemma trace_set_conf c w : trace (set_conf c w) = trace w.
Proof. reflexivity. Qed.

#[local] Hint Rewrite heap_set_priv_alloc trace_set_priv_alloc
  conf_set_priv_alloc heap_set_priv trace_set_priv conf_set_priv
  trace_set_conf : world.

Lemma priv_proxy_shutdown w :
  priv (proxy_shutdown w) = set_usable_clients 0 (priv w).
Proof. unfold proxy_shutdown. by autorewrite with world. Qed.
Lemma heap_proxy_shutdown w : heap (proxy_shutdown w) = heap w.
Proof. unfold proxy_shutdown. by autorewrite with world. Qed.
Lemma conf_proxy_shutdown w : conf (proxy_shutdown w) = conf w.
Proof. unfold proxy_shutdown. by autorewrite with world. Qed.
Lemma alloc_proxy_shutdown w : priv_alloc (proxy_shutdown w) = priv_alloc w.
Proof. unfold proxy_shutdown. by autorewrite with world. Qed.
Lemma priv_proxy_drop w : priv (proxy_drop w) = priv w.
Proof. unfold proxy_drop. by autorewrite with world. Qed.
Lemma heap_proxy_drop w : heap (proxy_drop w) = heap w.
Proof. unfold proxy_drop. by autorewrite with world. Qed.
Lemma conf_proxy_drop w : conf (proxy_drop w) = conf w.
Proof. unfold proxy_drop. by autorewrite with world. Qed.
Lemma alloc_proxy_drop w : priv_alloc (proxy_drop w) = priv_alloc w.
Proof. unfold proxy_drop. by autorewrite with world. Qed.

#[local] Hint Rewrite priv_proxy_shutdown heap_proxy_shutdown
  conf_proxy_shutdown alloc_proxy_shutdown priv_proxy_drop heap_proxy_drop
  conf_proxy_drop alloc_proxy_drop : world.

Lemma proxy_close_state (r : Z) (w : world) :
  priv (proxy_close r w)
  = set_num_clients 0
      (set_clients None
         (set_client_workers None (set_usable_clients 0 (priv w))))
  /\ heap (proxy_close r w) = heap w
  /\ conf (proxy_close r w) = conf w
  /\ priv_alloc (proxy_close r w) = priv_alloc w.
Proof.
  unfold proxy_close.
  destruct (r <? 0); by autorewrite with world.
Qed.

Lemma proxy_free_heap (r : Z) (w : world) : heap (proxy_free r w) = heap w.
Proof.
  unfold proxy_free. destruct (priv_alloc w); [|done].
  destruct (proxy_close_state r w) as (Hp & Hh & _).
  cbv zeta. repeat case_match; autorewrite with world; exact Hh.
Qed.

(** X18: [proxy_init] on a handle without private data, when the
    allocation succeeds, returns the error of the first step that fails, in
    the order [rand_init], [log_init], [conf_init], [conn_init],
    [registration_service_init], [mutex_init], and 0 when none does.  After
    a failure the handle has no private data again; after a success the
    private data are zero but for the log level, the configuration is the
    one [conf_init] wrote, and nothing has been torn down.  The heap of
    connections is untouched either way. *)
Theorem proxy_init_first_failure (e : init_env) (w : world) :
  priv_alloc w = false ->
  malloc_priv_ok e = true ->
  let '(ret, w') := proxy_init e w in
  ret = default 0
          (head (filter (fun r => r < 0)
                   [rand_init_ret e; log_init_ret e; conf_init_ret e;
                    listen_init_ret e; reg_init_ret e;
                    usable_mutex_init_ret e]))
  /\ heap w' = heap w
  /\ (ret = 0 ->
      priv_alloc w' = true
      /\ priv w' = set_log_level (log_init_level e) priv_zero
      /\ conf w' = conf_init_conf e
      /\ trace w' = trace w)
  /\ (ret < 0 -> priv_alloc w' = false).
Proof.
  intros Hnew Hm. unfold proxy_init, proxy_init_exit.
  rewrite Hnew, Hm. cbn [negb].
  assert (Hfree : forall r wx, heap wx = heap w ->
            heap (proxy_free r wx) = heap w).
  { intros r wx Hh. by rewrite proxy_free_heap. }
  repeat match goal with
         | |- context [?r <? 0] =>
             lazymatch r with
             | context [proxy_init] => fail
             | _ => destruct (Z.ltb_spec r 0);
                    [ rewrite filter_cons_True by done
                    | rewrite filter_cons_False by lia ]
             end
         end;
    rewrite ?filter_nil; cbn [head default from_option id];
    (split; [done|]);
    (split; [first [apply Hfree; by autorewrite with world
                   | by autorewrite with world]|]);
    (split; [intros ?; first [lia | by autorewrite with world]|]);
    intros ?; first [lia | apply proxy_free_alloc].
Qed.

Lemma proxy_init_first_failure_witness :
  priv_alloc world_new = false
  /\ malloc_priv_ok (mk_init_env true 0 0 4 (-22) conf_default (-5) 0 0 0)
     = true
  /\ fst (proxy_init (mk_init_env true 0 0 4 (-22) conf_default (-5) 0 0 0)
            world_new) = -22.
Proof.
  split; [reflexivity|]. split; [reflexivity|].
  pose proof (proxy_init_first_failure
                (mk_init_env true 0 0 4 (-22) conf_default (-5) 0 0 0)
                world_new eq_refl eq_refl) as H.
  destruct (proxy_init _ _) as [ret w'].
  destruct H as (Hr & _). exact Hr.
Defined.

Lemma calls_of_calls_up fn n : calls_of (calls_up fn n) = calls_up fn n.
Proof.
  unfold calls_up. induction (seq 0 (Z.to_nat n)) as [|k l IH]; [done|].
  cbn. by rewrite <- IH at 2.
Qed.

Lemma calls_update_registration w :
  calls_of (trace (proxy_update_registration w)) = calls_of (trace w).
Proof.
  unfold proxy_update_registration. autorewrite with world.
  rewrite !calls_of_app. cbn. by rewrite !app_nil_r.
Qed.

Lemma calls_proxy_shutdown w :
  calls_of (trace (proxy_shutdown w))
  = calls_of (trace w) ++ [EvCall "conn_shutdown" 0].
Proof.
  unfold proxy_shutdown. cbv zeta. rewrite trace_emit, calls_of_app.
  rewrite calls_update_registration. autorewrite with world.
  rewrite !calls_of_app, calls_proxy_log. cbn. by rewrite !app_nil_r.
Qed.

Lemma calls_proxy_drop w :
  calls_of (trace (proxy_drop w))
  = calls_of (trace w) ++ calls_up "proxy_conn_drop" (num_clients (priv w)).
Proof.
  unfold proxy_drop. cbv zeta. autorewrite with world.
  by rewrite calls_of_app, calls_proxy_log, calls_of_calls_up.
Qed.

(** The calls of [proxy_close], in order: every slot is dropped, then every
    worker and every slot is freed, once each. *)
Lemma calls_proxy_close r w :
  calls_of (trace (proxy_close r w))
  = calls_of (trace w)
    ++ [EvCall "registration_service_stop" 0; EvCall "conn_shutdown" 0]
    ++ calls_up "proxy_conn_drop" (num_clients (priv w))
    ++ calls_up "proxy_worker_free" (num_clients (priv w))
    ++ calls_up "proxy_conn_free" (num_clients (priv w))
    ++ [EvCall "conn_close" 0; EvCall "log_close" 0].
Proof.
  unfold proxy_close. cbv zeta.
  assert (H0 : forall wx,
            priv wx = priv w ->
            calls_of (trace wx)
            = calls_of (trace w) ++ [EvCall "registration_service_stop" 0] ->
            calls_of (trace (proxy_log LOG_LEVEL_DEBUG
                               "Closing client connections..."
                               (proxy_drop (proxy_shutdown wx))))
            = calls_of (trace w)
              ++ [EvCall "registration_service_stop" 0;
                  EvCall "conn_shutdown" 0]
              ++ calls_up "proxy_conn_drop" (num_clients (priv w))
            /\ num_clients
                 (priv (proxy_log LOG_LEVEL_DEBUG
                          "Closing client connections..."
                          (proxy_drop (proxy_shutdown wx))))
               = num_clients (priv w)).
  { intros wx Hp Hc. split.
    - rewrite calls_proxy_log, calls_proxy_drop, calls_proxy_shutdown, Hc.
      autorewrite with world. rewrite Hp.
      cbn [num_clients set_usable_clients].
      by rewrite <- !app_assoc.
    - autorewrite with world. by rewrite Hp. }
  assert (H1 : calls_of (trace (emit (EvCall "registration_service_stop" 0) w))
               = calls_of (trace w) ++ [EvCall "registration_service_stop" 0]).
  { autorewrite with world. by rewrite calls_of_app. }
  destruct (r <? 0);
    match goal with
    | |- context [proxy_log LOG_LEVEL_DEBUG "Closing client connections..."
                    (proxy_drop (proxy_shutdown ?wx))] =>
        destruct (H0 wx) as (Hc & Hn);
        [ by autorewrite with world
        | by rewrite ?calls_proxy_log
        | set (w3 := proxy_log LOG_LEVEL_DEBUG "Closing client connections..."
                       (proxy_drop (proxy_shutdown wx))) in * ]
    end;
    clearbody w3;
    rewrite trace_emit, calls_of_app, calls_proxy_log;
    rewrite trace_emit, calls_of_app, calls_proxy_log;
    autorewrite with world; rewrite Hn;
    rewrite !calls_of_app, !calls_of_calls_up, Hc;
    cbn [calls_of List.filter is_call app];
    by rewrite <- !app_assoc.
Qed.

(** X19: closing a proxy, and closing it twice.  On a handle whose arrays
    hold [num_clients] elements, [proxy_close] stops the registration
    service, shuts the listening connection down, drops every slot, frees
    every worker and every slot once, and closes the listening connection
    and the log, in this order.  It leaves the private data without slot
    and worker arrays and with both counters at 0, so that the arrays hold
    [num_clients] elements again; the pattern handles, the log level, the
    configuration and the heap are kept.  A second [proxy_close] changes
    nothing of the private data and makes no call on any slot or worker:
    the only calls it makes are those on the registration service, the
    listening connection and the log. *)
Theorem proxy_close_twice (r1 r2 : Z) (w : world) :
  handle_ok w ->
  let w1 := proxy_close r1 w in
  priv w1
  = set_num_clients 0
      (set_clients None
         (set_client_workers None (set_usable_clients 0 (priv w))))
  /\ heap w1 = heap w /\ conf w1 = conf w /\ priv_alloc w1 = priv_alloc w
  /\ handle_ok w1
  /\ calls_of (trace w1)
     = calls_of (trace w)
       ++ [EvCall "registration_service_stop" 0; EvCall "conn_shutdown" 0]
       ++ calls_up "proxy_conn_drop" (num_clients (priv w))
       ++ calls_up "proxy_worker_free" (num_clients (priv w))
       ++ calls_up "proxy_conn_free" (num_clients (priv w))
       ++ [EvCall "conn_close" 0; EvCall "log_close" 0]
  /\ priv (proxy_close r2 w1) = priv w1
  /\ forall fn k,
       In (EvCall fn k) (drop (length (trace w1)) (trace (proxy_close r2 w1))) ->
       In fn ["registration_service_stop"; "conn_shutdown"; "conn_close";
              "log_close"]%string.
Proof.
  intros Hok w1.
  destruct (proxy_close_state r1 w) as (Hp1 & Hh1 & Hc1 & Ha1).
  destruct (proxy_close_state r2 w1) as (Hp2 & _).
  assert (Hn : num_clients (priv w1) = 0) by (subst w1; by rewrite Hp1).
  split; [exact Hp1|]. split; [exact Hh1|]. split; [exact Hc1|].
  split; [exact Ha1|].
  split.
  { destruct Hok as (A & _). subst w1. unfold handle_ok, slots, workers.
    rewrite Ha1, Hp1. by cbn. }
  split; [apply calls_proxy_close|].
  split; [rewrite Hp2; subst w1; by rewrite Hp1|].
  clear Hp1 Hh1 Hc1 Ha1 Hp2 Hok.
  clearbody w1.
  pose (ok := fun l : list event =>
          forall fn k, In (EvCall fn k) l ->
            In fn ["registration_service_stop"; "conn_shutdown";
                   "conn_close"; "log_close"]%string).
  pose (Inv := fun wx : world => exists l, trace wx = trace w1 ++ l /\ ok l).
  assert (Hemits : forall evs wx, ok evs -> Inv wx -> Inv (emits evs wx)).
  { intros evs wx Hevs (l & Hl & Hok). exists (l ++ evs).
    autorewrite with world. rewrite Hl, <- app_assoc. split; [done|].
    intros fn k [H|H]%in_app_iff; [exact (Hok fn k H) | exact (Hevs fn k H)]. }
  assert (Hemit : forall ev wx, ok [ev] -> Inv wx -> Inv (emit ev wx)).
  { intros ev wx. apply (Hemits [ev]). }
  assert (Hlog : forall lvl fmt wx, Inv wx -> Inv (proxy_log lvl fmt wx)).
  { intros lvl fmt wx HI. unfold proxy_log. destruct (_ || _); [done|].
    apply Hemit; [|done]. intros fn k [[=]|[]]. }
  assert (Hupd : forall f wx, Inv wx -> Inv (upd_priv f wx)).
  { intros f wx (l & Hl & Hok). exists l. by autorewrite with world. }
  assert (Hnone : forall ev, (forall fn k, ev <> EvCall fn k) -> ok [ev]).
  { intros ev Hev fn k [->|[]]. by destruct (Hev fn k). }
  assert (Hcall : forall fn k,
            In fn ["registration_service_stop"; "conn_shutdown";
                   "conn_close"; "log_close"]%string ->
            ok [EvCall fn k]).
  { intros fn k Hfn fn' k' [[= <- <-]|[]]. exact Hfn. }
  assert (H0 : Inv w1).
  { exists []. rewrite app_nil_r. split; [done|]. by intros fn k []. }
  assert (Hshut : forall wx, Inv wx -> Inv (proxy_shutdown wx)).
  { intros wx HI. unfold proxy_shutdown, proxy_update_registration.
    cbv zeta.
    apply Hemit; [apply Hcall; cbn [In]; auto|].
    do 4 (apply Hemit; [by apply Hnone|]).
    apply Hupd. apply Hemit; [by apply Hnone|]. by apply Hlog. }
  assert (Hdrop : forall wx,
            num_clients (priv wx) = 0 -> Inv wx -> Inv (proxy_drop wx)).
  { intros wx Hz HI. unfold proxy_drop. cbv zeta.
    autorewrite with world. rewrite Hz.
    apply Hemits; [by intros fn k []|]. by apply Hlog. }
  assert (HI : Inv (proxy_close r2 w1)).
  { unfold proxy_close. cbv zeta.
    destruct (r2 <? 0); autorewrite with world;
      cbn [num_clients set_usable_clients]; rewrite Hn;
      change (calls_up _ 0) with (@nil event).
    all: apply Hemit; [apply Hcall; cbn [In]; auto|]; apply Hlog.
    all: apply Hemit; [apply Hcall; cbn [In]; auto|]; apply Hlog.
    all: do 3 apply Hupd.
    all: do 2 (apply Hemits; [by intros fn k []|]); apply Hlog.
    all: apply Hdrop; [by autorewrite with world|]; apply Hshut.
    - apply Hlog. apply Hemit; [apply Hcall; cbn [In]; auto|done].
    - apply Hemit; [apply Hcall; cbn [In]; auto|done]. }
  destruct HI as (l & Hl & Hok). intros fn k.
  rewrite Hl, drop_app_length. exact (Hok fn k).
Qed.

Lemma proxy_close_twice_witness :
  handle_ok world_busy_first
  /\ calls_of (trace (proxy_close 0 world_busy_first))
     = [EvCall "registration_service_stop" 0; EvCall "conn_shutdown" 0;
        EvCall "proxy_conn_drop" 0; EvCall "proxy_conn_drop" 1;
        EvCall "proxy_conn_drop" 2;
        EvCall "proxy_worker_free" 0; EvCall "proxy_worker_free" 1;
        EvCall "proxy_worker_free" 2;
        EvCall "proxy_conn_free" 0; EvCall "proxy_conn_free" 1;
        EvCall "proxy_conn_free" 2;
        EvCall "conn_close" 0; EvCall "log_close" 0]
  /\ num_clients (priv (proxy_close 0 (proxy_close 0 world_busy_first))) = 0.
Proof.
  assert (H : handle_ok world_busy_first).
  { unfold handle_ok. split; [reflexivity|]. split; [vm_compute; discriminate|].
    split; reflexivity. }
  split; [exact H|].
  destruct (proxy_close_twice 0 0 world_busy_first H)
    as (Hp & _ & _ & _ & _ & Hc & Hp2 & _).
  split; [rewrite Hc; reflexivity|].
  rewrite Hp2, Hp. reflexivity.
Defined.

Lemma calls_proxy_free r w :
  priv_alloc w = true ->
  calls_of (trace (proxy_free r w))
  = calls_of (trace (proxy_close r w))
    ++ [EvCall "mutex_free" 0; EvCall "registration_service_free" 0;
        EvCall "conn_free" 0; EvCall "conf_free" 0; EvCall "log_free" 0]
    ++ match re_calls_allowed (priv w) with
           | Some _ => [EvCall "regex_free" 0]
           | None => []
           end
    ++ match re_calls_denied (priv w) with
           | Some _ => [EvCall "regex_free" 1]
           | None => []
           end
    ++ [EvCall "rand_free" 0].
Proof.
  intros Ha. unfold proxy_free. rewrite Ha. cbv zeta.
  destruct (proxy_close_state r w) as (Hp & _).
  set (w1 := proxy_close r w) in *. clearbody w1.
  assert (HA : re_calls_allowed (priv w1) = re_calls_allowed (priv w))
    by (by rewrite Hp).
  assert (HD : re_calls_denied (priv w1) = re_calls_denied (priv w))
    by (by rewrite Hp).
  clear Hp. autorewrite with world. rewrite HA.
  destruct (re_calls_allowed (priv w)); autorewrite with world; rewrite HD;
    destruct (re_calls_denied (priv w));
    autorewrite with world; rewrite !calls_of_app;
    cbn [calls_of List.filter is_call app];
    by rewrite <- ?app_assoc.
Qed.

(** X20: [proxy_free] releases everything once and is safe to repeat.  On a
    handle that has no private data, or whose arrays hold [num_clients]
    elements, [proxy_free] leaves the handle without private data.  When
    there were private data it has closed the proxy, with every slot and
    every worker freed once, and has then freed the mutex, the registration
    service, the listening connection, the configuration and the log, each
    of the two expressions that was present, and last the random source.
    A second [proxy_free] does nothing at all, and so does every
    [proxy_log]: nothing is printed through a freed handle.  On a handle
    that never had private data [proxy_free] itself does nothing.  The heap
    of connections is not touched. *)
Theorem proxy_free_idempotent (r1 r2 : Z) (w : world) :
  (priv_alloc w = true -> handle_ok w) ->
  priv_alloc (proxy_free r1 w) = false
  /\ proxy_free r2 (proxy_free r1 w) = proxy_free r1 w
  /\ (forall lvl fmt, proxy_log lvl fmt (proxy_free r1 w) = proxy_free r1 w)
  /\ heap (proxy_free r1 w) = heap w
  /\ (priv_alloc w = false -> proxy_free r1 w = w)
  /\ (priv_alloc w = true ->
      calls_of (trace (proxy_free r1 w))
      = calls_of (trace w)
        ++ [EvCall "registration_service_stop" 0; EvCall "conn_shutdown" 0]
        ++ calls_up "proxy_conn_drop" (num_clients (priv w))
        ++ calls_up "proxy_worker_free" (num_clients (priv w))
        ++ calls_up "proxy_conn_free" (num_clients (priv w))
        ++ [EvCall "conn_close" 0; EvCall "log_close" 0;
            EvCall "mutex_free" 0; EvCall "registration_service_free" 0;
            EvCall "conn_free" 0; EvCall "conf_free" 0; EvCall "log_free" 0]
        ++ match re_calls_allowed (priv w) with
           | Some _ => [EvCall "regex_free" 0]
           | None => []
           end
        ++ match re_calls_denied (priv w) with
           | Some _ => [EvCall "regex_free" 1]
           | None => []
           end
        ++ [EvCall "rand_free" 0]).
Proof.
  intros _.
  pose proof (proxy_free_alloc r1 w) as Ha.
  split; [exact Ha|].
  split; [unfold proxy_free at 1; by rewrite Ha|].
  split; [intros lvl fmt; unfold proxy_log; by rewrite Ha|].
  split; [apply proxy_free_heap|].
  split; [intros Hn; unfold proxy_free; by rewrite Hn|].
  intros Hal. rewrite (calls_proxy_free r1 w Hal), calls_proxy_close.
  rewrite <- !app_assoc. cbn [app]. reflexivity.
Qed.

Lemma proxy_free_idempotent_witness :
  (priv_alloc world_busy_first = true -> handle_ok world_busy_first)
  /\ priv_alloc (proxy_free 0 world_busy_first) = false
  /\ calls_of (trace (proxy_free 0 world_busy_first))
     = [EvCall "registration_service_stop" 0; EvCall "conn_shutdown" 0;
        EvCall "proxy_conn_drop" 0; EvCall "proxy_conn_drop" 1;
        EvCall "proxy_conn_drop" 2;
        EvCall "proxy_worker_free" 0; EvCall "proxy_worker_free" 1;
        EvCall "proxy_worker_free" 2;
        EvCall "proxy_conn_free" 0; EvCall "proxy_conn_free" 1;
        EvCall "proxy_conn_free" 2;
        EvCall "conn_close" 0; EvCall "log_close" 0;
        EvCall "mutex_free" 0; EvCall "registration_service_free" 0;
        EvCall "conn_free" 0; EvCall "conf_free" 0; EvCall "log_free" 0;
        EvCall "rand_free" 0].
Proof.
  assert (H : priv_alloc world_busy_first = true -> handle_ok world_busy_first).
  { intros _. unfold handle_ok. split; [reflexivity|].
    split; [vm_compute; discriminate|]. split; reflexivity. }
  split; [exact H|].
  destruct (proxy_free_idempotent 0 0 world_busy_first H)
    as (Ha & _ & _ & _ & _ & Hc).
  split; [exact Ha|]. rewrite (Hc eq_refl). reflexivity.
Defined.

(** ** Callsign patterns and the log *)

Lemma authorize_callsign_denied (w : world) (call : list Z)
    (rd : regex_handle) :
  re_calls_denied (priv w) = Some rd ->
  re_run rd (cstr call) <> RE_NOMATCH ->
  proxy_authorize_callsign w call
  = (0, if regex_is_match rd call <? 0
        then proxy_log LOG_LEVEL_WARN
               "Failed to match callsign '%s' against denial pattern (%d): %s"
               w
        else w).
Proof.
  intros Ed Hne. unfold proxy_authorize_callsign. rewrite Ed.
  unfold regex_is_match. by destruct (re_run rd (cstr call)).
Qed.

(** X21: what [proxy_authorize_callsign] does besides answering.  It never
    changes the configuration, the private data or the heap, and it logs at
    most one message, a warning; when it logs, the answer is 0 and the
    engine has failed on one of the two patterns.  The denial pattern is
    consulted first: when it does not answer "no match", the answer and the
    log are the same whatever the allowing pattern is. *)
Theorem authorize_callsign_effects (w : world) (call : list Z) :
  let '(ret, w') := proxy_authorize_callsign w call in
  conf w' = conf w /\ priv w' = priv w /\ heap w' = heap w
  /\ (trace w' = trace w
      \/ (exists msg, trace w' = trace w ++ [EvLog LOG_LEVEL_WARN msg])
         /\ ret = 0
         /\ exists re err,
              (re_calls_denied (priv w) = Some re
               \/ re_calls_allowed (priv w) = Some re)
              /\ re_run re (cstr call) = RE_ERROR err)
  /\ (forall rd ra,
        re_calls_denied (priv w) = Some rd ->
        re_run rd (cstr call) <> RE_NOMATCH ->
        let '(ret2, w2) :=
          proxy_authorize_callsign (upd_priv (set_re_calls_allowed ra) w)
            call in
        ret2 = ret /\ trace w2 = trace w').
Proof.
  assert (Hlast : forall rd ra,
            re_calls_denied (priv w) = Some rd ->
            re_run rd (cstr call) <> RE_NOMATCH ->
            let '(ret2, w2) :=
              proxy_authorize_callsign (upd_priv (set_re_calls_allowed ra) w)
                call in
            ret2 = fst (proxy_authorize_callsign w call)
            /\ trace w2 = trace (snd (proxy_authorize_callsign w call))).
  { intros rd ra Ed Hne.
    rewrite (authorize_callsign_denied w call rd Ed Hne).
    rewrite (authorize_callsign_denied _ call rd); [|by rewrite <- Ed|done].
    cbn [fst snd]. split; [done|].
    destruct (regex_is_match rd call <? 0); [|done].
    unfold proxy_log. autorewrite with world.
    cbn [log_level set_re_calls_allowed].
    destruct (_ || _); by autorewrite with world. }
  destruct (proxy_authorize_callsign w call) as [ret w'] eqn:E.
  cbn [fst snd] in Hlast.
  match goal with
  | |- ?A /\ ?B /\ ?C /\ ?D /\ _ =>
      cut (A /\ B /\ C /\ D); [intros (? & ? & ? & ?); by repeat split|]
  end.
  clear Hlast.
  revert E. unfold proxy_authorize_callsign, regex_is_match, proxy_log.
  destruct (re_calls_denied (priv w)) as [rd|] eqn:Ed.
  - destruct (re_run rd (cstr call)) as [| |err] eqn:Erd; cbn.
    + intros [= <- <-]. repeat split; try done. by left.
    + destruct (re_calls_allowed (priv w)) as [ra0|] eqn:Ea.
      * destruct (re_run ra0 (cstr call)) as [| |err] eqn:Era; cbn.
        -- intros [= <- <-]. repeat split; try done. by left.
        -- intros [= <- <-]. repeat split; try done. by left.
        -- destruct (_ || _); intros [= <- <-].
           ++ repeat split; try done. by left.
           ++ repeat split; try done.
              right. split; [by eexists|]. split; [done|].
              exists ra0, err. auto.
      * intros [= <- <-]. repeat split; try done. by left.
    + destruct (_ || _); intros [= <- <-].
      * repeat split; try done. by left.
      * repeat split; try done.
        right. split; [by eexists|]. split; [done|].
        exists rd, err. auto.
  - destruct (re_calls_allowed (priv w)) as [ra0|] eqn:Ea.
    + destruct (re_run ra0 (cstr call)) as [| |err] eqn:Era; cbn.
      * intros [= <- <-]. repeat split; try done. by left.
      * intros [= <- <-]. repeat split; try done. by left.
      * destruct (_ || _); intros [= <- <-].
        -- repeat split; try done. by left.
        -- repeat split; try done.
           right. split; [by eexists|]. split; [done|].
           exists ra0, err. auto.
    + intros [= <- <-]. repeat split; try done. by left.
Qed.

(** X22: the log level is a threshold.  Once [proxy_log_level] has set the
    level of an initialised handle to [lvl], [proxy_log] prints a message
    exactly when its level is [lvl] or more severe, and it changes nothing
    else; a fatal message is therefore printed at every level. *)
Theorem proxy_log_threshold (lvl l : LOG_LEVEL) (fmt : string) (w : world) :
  priv_alloc w = true ->
  let w1 := proxy_log_level lvl w in
  let w2 := proxy_log l fmt w1 in
  priv w2 = priv w1 /\ heap w2 = heap w /\ conf w2 = conf w
  /\ (level_code l <= level_code lvl -> trace w2 = trace w ++ [EvLog l fmt])
  /\ (level_code lvl < level_code l -> trace w2 = trace w)
  /\ (l = LOG_LEVEL_FATAL -> trace w2 = trace w ++ [EvLog l fmt]).
Proof.
  intros Ha w1 w2.
  assert (Hcases :
            (level_code l <= level_code lvl -> w2 = emit (EvLog l fmt) w1)
            /\ (level_code lvl < level_code l -> w2 = w1)).
  { subst w2 w1. unfold proxy_log, proxy_log_level.
    autorewrite with world. rewrite Ha.
    cbn [negb orb log_level set_log_level].
    destruct (Z.ltb_spec (level_code lvl) (level_code l));
      split; intros ?; first [lia | done]. }
  destruct Hcases as [Hle Hgt].
  assert (Ht1 : trace w1 = trace w)
    by (subst w1; unfold proxy_log_level; by autorewrite with world).
  assert (Hh1 : heap w1 = heap w)
    by (subst w1; unfold proxy_log_level; by autorewrite with world).
  assert (Hc1 : conf w1 = conf w)
    by (subst w1; unfold proxy_log_level; by autorewrite with world).
  clearbody w1 w2.
  destruct (Z.le_gt_cases (level_code l) (level_code lvl)) as [H|H].
  - rewrite (Hle H). autorewrite with world.
    repeat split; try done; try (by rewrite Ht1); intros; lia.
  - assert (H' : level_code lvl < level_code l) by lia.
    rewrite (Hgt H').
    repeat split; try done; try (intros; lia).
    intros ->. destruct lvl; cbn in H; lia.
Qed.

Lemma proxy_log_threshold_witness :
  priv_alloc world_open = true
  /\ trace (proxy_log LOG_LEVEL_INFO "Dropping client"
              (proxy_log_level LOG_LEVEL_WARN world_open))
     = trace world_open.
Proof.
  split; [reflexivity|].
  exact (proj1 (proj2 (proj2 (proj2 (proj2
           (proxy_log_threshold LOG_LEVEL_WARN LOG_LEVEL_INFO
              "Dropping client" world_open eq_refl)))))
           ltac:(vm_compute; reflexivity)).
Defined.

Lemma in_use_count_zero (l : list proxy_conn_handle) :
  length (filter (fun pc => in_use pc = true) l) = 0%nat
  <-> Forall (fun pc => in_use pc = false) l.
Proof.
  induction l as [|pc l IH]; [done|].
  destruct (in_use pc) eqn:E.
  - rewrite filter_cons_True by done. split; [done|].
    intros H. apply Forall_cons in H as [H _]. congruence.
  - rewrite filter_cons_False by (by rewrite E). rewrite IH.
    rewrite Forall_cons. tauto.
Qed.

Lemma in_use_count_all (l : list proxy_conn_handle) :
  length (filter (fun pc => in_use pc = true) l) = length l
  <-> Forall (fun pc => in_use pc = true) l.
Proof.
  induction l as [|pc l IH]; [done|].
  pose proof (length_filter (fun pc => in_use pc = true) l) as Hle.
  destruct (in_use pc) eqn:E.
  - rewrite filter_cons_True by done. cbn [length].
    rewrite Forall_cons, <- IH. split; [intros [= H]; done|].
    intros [_ ->]. done.
  - rewrite filter_cons_False by (by rewrite E). cbn [length].
    split; [lia|]. intros H. apply Forall_cons in H as [H _]. congruence.
Qed.

(** X23: what the registration service is told.  On a handle whose arrays
    hold [num_clients] elements, [proxy_update_registration] reports as
    used the number of slots that are in use and as total the current value
    of [usable_clients], read under the shared lock; the number reported as
    used is between 0 and [num_clients], it is 0 exactly when no slot is in
    use and [num_clients] exactly when every slot is.  The call changes
    nothing of the proxy. *)
Theorem proxy_update_registration_report (w : world) :
  handle_ok w ->
  let w' := proxy_update_registration w in
  let used :=
    Z.of_nat (length (filter (fun pc => in_use pc = true) (slots w))) in
  conf w' = conf w /\ priv w' = priv w /\ heap w' = heap w
  /\ trace w'
     = trace w ++ [EvMutexLockShared MxUsableClients;
                   EvMutexUnlockShared MxUsableClients;
                   EvRegistrationUpdate used (usable_clients (priv w))]
  /\ 0 <= used <= num_clients (priv w)
  /\ (used = 0 <-> Forall (fun pc => in_use pc = false) (slots w))
  /\ (used = num_clients (priv w)
      <-> Forall (fun pc => in_use pc = true) (slots w)).
Proof.
  intros Hok. cbv zeta. unfold proxy_update_registration.
  autorewrite with world. rewrite (take_slots_ok w Hok).
  destruct Hok as (_ & Hn & Hs & _).
  pose proof (length_filter (fun pc => in_use pc = true) (slots w)) as Hf.
  split; [done|]. split; [done|]. split; [done|].
  split; [by rewrite <- !app_assoc|].
  split; [lia|].
  split.
  - rewrite <- in_use_count_zero. lia.
  - rewrite <- in_use_count_all. lia.
Qed.

Lemma proxy_update_registration_report_witness :
  handle_ok
    (set_slots [mk_pc None true true; mk_pc None true false;
                mk_pc None true true] world_busy_first)
  /\ trace (proxy_update_registration
              (set_slots [mk_pc None true true; mk_pc None true false;
                          mk_pc None true true] world_busy_first))
     = [EvMutexLockShared MxUsableClients;
        EvMutexUnlockShared MxUsableClients; EvRegistrationUpdate 2 3].
Proof.
  assert (H : handle_ok
                (set_slots [mk_pc None true true; mk_pc None true false;
                            mk_pc None true true] world_busy_first)).
  { unfold handle_ok. split; [reflexivity|]. split; [vm_compute; discriminate|].
    split; reflexivity. }
  split; [exact H|].
  destruct (proxy_update_registration_report _ H) as (_ & _ & _ & Ht & _).
  rewrite Ht. reflexivity.
Defined.

(** ** The life cycle *)

Lemma arrays_kept_refl w : arrays_kept w w.
Proof. done. Qed.

Lemma arrays_kept_trans w1 w2 w3 :
  arrays_kept w1 w2 -> arrays_kept w2 w3 -> arrays_kept w1 w3.
Proof.
  intros (A1 & A2 & A3) (B1 & B2 & B3). unfold arrays_kept.
  by rewrite B1, B2, B3.
Qed.

Lemma same_priv_arrays w w' :
  conf w' = conf w -> priv w' = priv w -> arrays_kept w w'.
Proof. intros Hc Hp. unfold arrays_kept, slots, workers. by rewrite Hc, Hp. Qed.

Lemma same_state_arrays w w' : same_state w w' -> arrays_kept w w'.
Proof. intros (C & _ & P & _). by apply same_priv_arrays. Qed.

Lemma set_workers_arrays ws w :
  length ws = length (workers w) -> arrays_kept w (set_workers ws w).
Proof. intros H. unfold arrays_kept. by autorewrite with world. Qed.

Lemma set_slots_arrays cs w :
  length cs = length (slots w) -> arrays_kept w (set_slots cs w).
Proof. intros H. unfold arrays_kept. by autorewrite with world. Qed.

Lemma set_heap_arrays h w : arrays_kept w (set_heap h w).
Proof. by apply same_priv_arrays. Qed.

Lemma usable_arrays v w :
  arrays_kept w (upd_priv (set_usable_clients v) w).
Proof. unfold arrays_kept, slots, workers. by autorewrite with world. Qed.

Lemma proxy_shutdown_arrays w : arrays_kept w (proxy_shutdown w).
Proof.
  unfold arrays_kept, slots, workers. by autorewrite with world.
Qed.

Lemma proxy_start_arrays e w : arrays_kept w (snd (proxy_start e w)).
Proof.
  unfold proxy_start, proxy_start_exit, proxy_start_exit_early.
  assert (Hu : forall v wx, arrays_kept w wx ->
            arrays_kept w (upd_priv (set_usable_clients v) wx)).
  { intros v wx H. eapply arrays_kept_trans; [exact H | apply usable_arrays]. }
  assert (Hs : forall wx wy, arrays_kept w wx -> same_state wx wy ->
            arrays_kept w wy).
  { intros wx wy H S. eapply arrays_kept_trans; [exact H|].
    by apply same_state_arrays. }
  destruct (first_failure (proxy_conn_start_ret e) _ _) as [[i ret]|].
  { cbn [snd]. eapply Hs; [apply arrays_kept_refl|].
    eapply same_state_trans; [apply emits_same|].
    eapply same_state_trans; [apply proxy_log_same | apply emits_same]. }
  destruct (first_failure (worker_start_ret e) _ _) as [[i ret]|].
  { cbn [snd]. eapply Hs; [apply arrays_kept_refl|].
    eapply same_state_trans; [apply emits_same|].
    eapply same_state_trans; [apply emits_same|].
    eapply same_state_trans; [apply proxy_log_same|].
    eapply same_state_trans; apply emits_same. }
  set (w1 := emit (EvMutexLock MxUsableClients) _).
  assert (H1 : arrays_kept w w1).
  { apply same_state_arrays.
    eapply same_state_trans; [apply emits_same|].
    eapply same_state_trans; [apply emits_same | apply emit_same]. }
  set (w2 := emit (EvCall "registration_service_start" 0) _).
  assert (H2 : arrays_kept w w2).
  { eapply Hs; [apply Hu, H1|].
    eapply same_state_trans; [apply emit_same|].
    eapply same_state_trans;
      [apply proxy_update_registration_same | apply emit_same]. }
  destruct (reg_start_ret e <? 0); cbn [snd]; [|exact H2].
  eapply Hs; [exact H2|].
  eapply same_state_trans; [apply proxy_log_same|].
  eapply same_state_trans; apply emits_same.
Qed.

Lemma slots_set_trace v w : slots (set_trace v w) = slots w.
Proof. reflexivity. Qed.

#[local] Hint Rewrite slots_set_trace : world.

Lemma probe_loop_length wake conn : forall n i ret ws tr,
  length (snd (fst (probe_loop wake conn n i ret ws tr))) = length ws.
Proof.
  induction n as [|n IH]; intros i ret ws tr; cbn [probe_loop]; [done|].
  destruct (ws !! i) as [pw|]; [|done].
  destruct (proxy_worker_accept _ _ _ _ _) as [[r pw'] tr'].
  destruct (negb _); cbn [fst snd]; [apply length_insert|].
  rewrite IH. apply length_insert.
Qed.

Lemma proxy_process_arrays e w : arrays_kept w (snd (proxy_process e w)).
Proof.
  unfold proxy_process, conn_process_exit.
  match goal with
  | |- context [probe_loop ?a ?b ?c ?d ?r ?ws ?t] =>
      pose proof (probe_loop_length a b c d r ws t) as Hl;
      destruct (probe_loop a b c d r ws t) as [[ret ws'] tr]
  end.
  cbn [fst snd] in Hl. autorewrite with world in Hl.
  unfold arrays_kept.
  repeat case_match; cbn [snd]; autorewrite with world; done.
Qed.

Lemma proxy_conn_accept_arrays ret k w :
  arrays_kept w (proxy_conn_accept ret k w).
Proof.
  unfold proxy_conn_accept. destruct (ret <? 0).
  - apply same_state_arrays, emit_same.
  - eapply arrays_kept_trans; [apply same_state_arrays, emit_same|].
    apply set_slots_arrays. by rewrite length_alter.
Qed.

Lemma slot_loop_arrays rets : forall n k ret w,
  arrays_kept w (snd (slot_loop rets n k ret w)).
Proof.
  induction n as [|n IH]; intros k ret w; cbn [slot_loop].
  - apply arrays_kept_refl.
  - destruct (negb _).
    + apply proxy_conn_accept_arrays.
    + eapply arrays_kept_trans; [apply proxy_conn_accept_arrays | apply IH].
Qed.

Lemma worker_release_arrays i cptr w : arrays_kept w (worker_release i cptr w).
Proof.
  unfold worker_release, arrays_kept. autorewrite with world.
  by rewrite length_alter.
Qed.

Lemma proxy_worker_func_exit_arrays i cptr w :
  arrays_kept w (proxy_worker_func_exit i cptr w).
Proof.
  unfold proxy_worker_func_exit.
  eapply arrays_kept_trans; [apply worker_release_arrays|].
  apply same_state_arrays.
  eapply same_state_trans;
    [apply proxy_update_registration_same | apply proxy_log_same].
Qed.

(** A worker changes neither the configuration nor the lengths of the
    arrays. *)
Lemma proxy_worker_func_arrays md5 e i w w' :
  proxy_worker_func md5 e i w = Some w' -> arrays_kept w w'.
Proof.
  unfold proxy_worker_func.
  destruct (workers w !! i) as [pw|]; [|intros [= <-]; apply arrays_kept_refl].
  destruct (conn_client pw) as [cptr|].
  2:{ intros [= <-]. apply same_state_arrays.
      eapply same_state_trans; [apply emit_same|].
      eapply same_state_trans; [apply proxy_log_same | apply emit_same]. }
  autorewrite with world.
  destruct (heap w !! cptr) as [c|].
  2:{ intros [= <-]. apply same_state_arrays.
      eapply same_state_trans; apply emit_same. }
  match goal with
  | |- context [proxy_worker_authorize md5 ?a ?b ?c ?d] =>
      pose proof (authorize_same md5 a b c d) as Hs;
      destruct (proxy_worker_authorize md5 a b c d) as [[[ret pw'] c'] w1]
  end.
  cbn [snd] in Hs. apply same_state_arrays in Hs.
  assert (H0 : arrays_kept w w1).
  { eapply arrays_kept_trans; [|exact Hs]. apply same_state_arrays.
    eapply same_state_trans; [apply emit_same|].
    eapply same_state_trans; [apply emit_same | apply proxy_log_same]. }
  clear Hs.
  set (w2 := set_heap _ (set_workers _ w1)).
  assert (H2 : arrays_kept w w2).
  { eapply arrays_kept_trans; [exact H0|]. subst w2.
    eapply arrays_kept_trans; [|apply set_heap_arrays].
    apply set_workers_arrays, length_insert. }
  destruct (ret <? 0).
  { intros [= <-]. eapply arrays_kept_trans; [exact H2|].
    eapply arrays_kept_trans; [|apply worker_release_arrays].
    apply same_state_arrays.
    destruct (lost_connection ret); apply proxy_log_same. }
  match goal with
  | |- context [slot_loop ?r ?n ?k ?x ?y] =>
      pose proof (slot_loop_arrays r n k x y) as H3;
      destruct (slot_loop r n k x y) as [[ret3 k3] w3]
  end.
  cbn [snd] in H3.
  assert (H4 : arrays_kept w (emit (EvMutexUnlockShared MxUsableClients) w3)).
  { eapply arrays_kept_trans; [exact H2|].
    eapply arrays_kept_trans; [|eapply arrays_kept_trans; [exact H3|]].
    - apply same_state_arrays.
      eapply same_state_trans;
        [apply proxy_update_registration_same | apply emit_same].
    - apply same_state_arrays, emit_same. }
  destruct (ret3 <? 0).
  { intros [= <-]. eapply arrays_kept_trans; [exact H4|].
    eapply arrays_kept_trans; [|apply proxy_worker_func_exit_arrays].
    destruct (ret3 =? - EBUSY);
      [apply same_state_arrays, proxy_log_same | apply arrays_kept_refl]. }
  destruct (serve_loop (process_rets e)) as [n|]; [|discriminate].
  intros [= <-]. eapply arrays_kept_trans; [exact H4|].
  eapply arrays_kept_trans; [|apply proxy_worker_func_exit_arrays].
  unfold proxy_conn_finish.
  eapply arrays_kept_trans;
    [|apply set_slots_arrays; by rewrite length_alter].
  apply same_state_arrays.
  eapply same_state_trans; [apply emits_same|].
  eapply same_state_trans; [apply proxy_log_same | apply emit_same].
Qed.

(** A successful [proxy_open] leaves the proxy open for its configuration. *)
Lemma proxy_open_opened e w w' : proxy_open e w = (0, w') -> opened w'.
Proof.
  intros Hopen.
  pose proof (proxy_open_result e w) as H. cbv zeta in H.
  destruct (proxy_open_success e w w' Hopen) as (Hw & _).
  rewrite Hopen in H.
  destruct H as (C & _ & _ & [(_ & N & S)|(Hlt & _)]); [|lia].
  unfold opened, configured_slots. rewrite C.
  split; [exact N|]. split; [|exact Hw].
  apply (f_equal length) in S.
  rewrite length_map in S. rewrite S. cbn [length]. by rewrite length_map.
Qed.

Lemma opened_kept w w' :
  opened w -> arrays_kept w w' ->
  num_clients (priv w') = num_clients (priv w) -> opened w'.
Proof.
  intros (N & S & W) (C & S' & W') N'. unfold opened.
  by rewrite C, N', S', W'.
Qed.

Lemma opened_num w : opened w -> 1 <= num_clients (priv w).
Proof. intros (N & _). rewrite N. unfold configured_slots. lia. Qed.

Lemma phase_inv_bound ph w :
  ph <> PhNew -> phase_inv ph w ->
  0 <= usable_clients (priv w) <= num_clients (priv w).
Proof.
  destruct ph; cbn [phase_inv]; intros Hne H; try done;
    try (destruct H as (_ & H & Ho); apply opened_num in Ho); lia.
Qed.

Lemma phase_inv_opened ph w :
  ph = PhOpen \/ ph = PhStarted \/ ph = PhStartFailed \/ ph = PhShutdown ->
  phase_inv ph w -> opened w.
Proof. intros [->|[->|[->| ->]]] H; apply H. Qed.

Lemma api_step_inv md5 ph w c ph' w' :
  phase_inv ph w -> api_step md5 ph w c = Some (ph', w') -> phase_inv ph' w'.
Proof.
  intros Hinv. destruct c as [e|e|e|e|e|e i| |r]; cbn [api_step].
  - destruct ph; try discriminate.
    pose proof (proxy_init_result e w Hinv) as H.
    destruct (proxy_init e w) as [ret w1]. intros [= <- <-].
    destruct H as [(Hlt & Ha)|(-> & Ha & Hu & Hn)].
    + by rewrite (proj2 (Z.ltb_lt _ _) Hlt).
    + simpl. rewrite Hu, Hn. done.
  - destruct ph; try discriminate. intros [= <- <-].
    destruct (proxy_load_conf_counters e w) as (A & U & N).
    cbn [phase_inv] in *. by rewrite A, U, N.
  - destruct ph; try discriminate.
    pose proof (proxy_open_result e w) as H. cbv zeta in H.
    pose proof (proxy_open_opened e w) as Ho.
    destruct (proxy_open e w) as [ret w1]. intros [= <- <-].
    destruct Hinv as (Ha & Hu & Hn).
    destruct H as (_ & A & U & [(-> & N & _)|(Hlt & N)]).
    + cbn [Z.ltb Z.compare phase_inv]. rewrite A, U.
      split; [done|]. split; [done|]. by apply Ho.
    + rewrite (proj2 (Z.ltb_lt _ _) Hlt). cbn [phase_inv]. rewrite A, U.
      repeat split; try done. destruct N as [-> | ->]; lia.
  - destruct ph; try discriminate.
    pose proof (proxy_start_result e w) as H.
    pose proof (proxy_start_arrays e w) as Hk.
    destruct (proxy_start e w) as [ret w1]. intros [= <- <-].
    cbn [snd] in Hk.
    destruct Hinv as (Ha & Hu & Ho).
    pose proof (opened_num w Ho) as Hn.
    destruct H as (A & N & [(-> & U)|(Hlt & U)]).
    + cbn [Z.ltb Z.compare phase_inv]. rewrite A, U, N.
      split; [done|]. split; [done|]. by eapply opened_kept.
    + rewrite (proj2 (Z.ltb_lt _ _) Hlt). cbn [phase_inv]. rewrite A, N.
      split; [done|].
      split; [destruct U as [-> | ->]; lia | by eapply opened_kept].
  - destruct (proxy_process_counters e w) as (A & U & N).
    pose proof (proxy_process_arrays e w) as Hk.
    destruct ph; try discriminate; intros [= <- <-];
      cbn [phase_inv] in *; rewrite A, U, ?N;
      destruct Hinv as (Ha & Hu & Ho);
      (split; [done|]); (split; [done|]); by eapply opened_kept.
  - destruct ph; try discriminate;
      (destruct (proxy_worker_func md5 e i w) as [w1|] eqn:E;
         [|discriminate]);
      intros [= <- <-];
      destruct (proxy_worker_func_counters md5 e i w w1 E) as (A & U & N);
      pose proof (proxy_worker_func_arrays md5 e i w w1 E) as Hk;
      cbn [phase_inv] in *; rewrite A, U, ?N;
      destruct Hinv as (Ha & Hu & Ho);
      (split; [done|]); (split; [done|]); by eapply opened_kept.
  - destruct (proxy_shutdown_result w) as (A & U & N).
    pose proof (proxy_shutdown_arrays w) as Hk.
    destruct ph; try discriminate; intros [= <- <-];
      cbn [phase_inv] in *; rewrite A, U;
      destruct Hinv as (Ha & Hu & Ho);
      (split; [done|]); (split; [done|]); by eapply opened_kept.
  - destruct (proxy_close_result r w) as (A & U & N).
    destruct ph; try discriminate; intros [= <- <-];
      cbn [phase_inv] in *; rewrite A, U, ?N; repeat split; try tauto; lia.
Qed.

Lemma run_inv md5 calls : forall ph w ph' w',
  phase_inv ph w -> run md5 calls ph w = Some (ph', w') -> phase_inv ph' w'.
Proof.
  induction calls as [|c calls IH]; intros ph w ph' w' Hinv; cbn [run].
  - by intros [= <- <-].
  - destruct (api_step md5 ph w c) as [[ph1 w1]|] eqn:E; [|discriminate].
    apply IH. by eapply api_step_inv.
Qed.

(** C9: along every sequence of calls made in the order of the life cycle
    on a fresh handle, and the runs of the workers between them,
    [usable_clients] is 0 from a successful init until start, equals
    [num_clients] after a successful start, is 0 again after shutdown (and
    after close), and never exceeds [num_clients].  From a successful open
    until the close, [num_clients] is the number of configured slots, one
    for the external address and one for each additional external address,
    and both arrays have that many elements: start and the calls after it
    keep this number, so that after a successful start every configured
    slot, and at least one, is usable. *)
Theorem usable_clients_lifecycle (md5 : list Z -> list Z)
    (calls : list api_call) (w0 w : world) (ph : phase) :
  priv_alloc w0 = false ->
  run md5 calls PhNew w0 = Some (ph, w) ->
  (ph <> PhNew ->
   0 <= usable_clients (priv w) <= num_clients (priv w))
  /\ (ph = PhInit \/ ph = PhOpen -> usable_clients (priv w) = 0)
  /\ (ph = PhStarted -> usable_clients (priv w) = num_clients (priv w))
  /\ (ph = PhShutdown -> usable_clients (priv w) = 0)
  /\ (ph = PhOpen \/ ph = PhStarted \/ ph = PhStartFailed \/ ph = PhShutdown ->
      num_clients (priv w) = Z.of_nat (configured_slots (conf w))
      /\ length (slots w) = configured_slots (conf w)
      /\ length (workers w) = configured_slots (conf w))
  /\ (ph = PhStarted ->
      usable_clients (priv w)
      = 1 + Z.of_nat (length (additional_addrs (conf w)))).
Proof.
  intros Hnew Hrun.
  assert (Hinv : phase_inv ph w) by (by eapply run_inv; [|exact Hrun]).
  split; [intros Hne; by apply (phase_inv_bound ph)|].
  split; [intros [-> | ->]; apply Hinv|].
  split; [intros ->; apply Hinv|].
  split; [intros ->; apply Hinv|].
  split; [intros Hph; exact (phase_inv_opened ph w Hph Hinv)|].
  intros ->. destruct Hinv as (_ & -> & -> & _).
  unfold configured_slots. lia.
Qed.

Lemma usable_clients_lifecycle_witness :
  priv_alloc world_new = false
  /\ (exists w, run MD5.md5 (take 4 calls_life) PhNew world_new
                = Some (PhStarted, w)
                /\ usable_clients (priv w) = num_clients (priv w))
  /\ (exists w, run MD5.md5 calls_life PhNew world_new = Some (PhInit, w)
                /\ usable_clients (priv w) = 0)
  /\ (exists w, run MD5.md5 (take 4 calls_two_slots) PhNew world_new
                = Some (PhStarted, w)
                /\ usable_clients (priv w) = 2
                /\ num_clients (priv w) = 2
                /\ length (slots w) = 2%nat
                /\ length (workers w) = 2%nat)
  /\ (exists w, run MD5.md5 calls_two_slots PhNew world_new
                = Some (PhShutdown, w)
                /\ usable_clients (priv w) = 0
                /\ num_clients (priv w) = 2).
Proof.
  split; [reflexivity|].
  assert (H1 : exists w, run MD5.md5 (take 4 calls_life) PhNew world_new
                         = Some (PhStarted, w)).
  { eexists. vm_compute. reflexivity. }
  assert (H2 : exists w, run MD5.md5 calls_life PhNew world_new
                         = Some (PhInit, w)).
  { eexists. vm_compute. reflexivity. }
  assert (H3 : exists w, run MD5.md5 (take 4 calls_two_slots) PhNew world_new
                         = Some (PhStarted, w)
                         /\ conf w = conf_two_ext).
  { eexists. split; vm_compute; reflexivity. }
  assert (H4 : exists w, run MD5.md5 calls_two_slots PhNew world_new
                         = Some (PhShutdown, w)
                         /\ conf w = conf_two_ext).
  { eexists. split; vm_compute; reflexivity. }
  destruct H1 as [w1 H1]. destruct H2 as [w2 H2].
  destruct H3 as (w3 & H3 & C3). destruct H4 as (w4 & H4 & C4).
  split; [|split; [|split]].
  - exists w1. split; [exact H1|].
    exact (proj1 (proj2 (proj2
             (usable_clients_lifecycle MD5.md5 _ world_new w1 PhStarted
                eq_refl H1))) eq_refl).
  - exists w2. split; [exact H2|].
    exact (proj1 (proj2
             (usable_clients_lifecycle MD5.md5 _ world_new w2 PhInit
                eq_refl H2)) (or_introl eq_refl)).
  - exists w3. split; [exact H3|].
    destruct (usable_clients_lifecycle MD5.md5 _ world_new w3 PhStarted
                eq_refl H3) as (_ & _ & _ & _ & Ho & Hu).
    destruct (Ho (or_intror (or_introl eq_refl))) as (Hn & Hs & Hw).
    rewrite (Hu eq_refl), Hn, Hs, Hw, C3. repeat split; reflexivity.
  - exists w4. split; [exact H4|].
    destruct (usable_clients_lifecycle MD5.md5 _ world_new w4 PhShutdown
                eq_refl H4) as (_ & _ & _ & Hz & Ho & _).
    destruct (Ho (or_intror (or_intror (or_intror eq_refl)))) as (Hn & _).
    rewrite (Hz eq_refl), Hn, C4. split; reflexivity.
Defined.
